(** * vscode-haste (Code Quicken): the import engine, embedded and verified

    A shallow embedding of [src/edge/JavaScript.ts] and of the
    recently-used list [RecentSelectedItems], followed by the properties
    of the specification that concern them.

    Conventions of the embedding.
    - A JavaScript string is a [string] (a sequence of code units).
    - A JavaScript value (syntax-tree nodes included) is a [Value]; a
      raised exception is the [Throw] outcome of [Completion].
    - The syntax tree that [babylon] produces is a [Value], read with
      the property accessors of the code; the parser itself is an
      external collaborator and is a member of [Platform].
    - The editor is explicit state: the document text, the notifications
      shown, and the answers of the user to each prompt. *)

From Stdlib Require Import String Ascii List ZArith Lia Bool Permutation Sorted.
From stdpp Require Import base option list gmap strings pretty.
Import ListNotations.
Local Open Scope string_scope.
Local Open Scope list_scope.

(** ** JavaScript and lodash primitives *)

Module Js.

(** Outcome of evaluating JavaScript code that may raise. *)
Inductive Completion (A : Type) : Type :=
| Normal (a : A)
| Throw (error : string).
Arguments Normal {A} a.
Arguments Throw {A} error.

Definition cbind {A B} (c : Completion A) (k : A -> Completion B) : Completion B :=
  match c with
  | Normal a => k a
  | Throw e => Throw e
  end.

#[global] Instance Completion_ret : MRet Completion := fun _ a => Normal a.
#[global] Instance Completion_bind : MBind Completion := fun _ _ k c => cbind c k.
#[global] Instance Completion_fmap : FMap Completion :=
  fun _ _ f c => cbind c (fun a => Normal (f a)).

Definition TypeError : string := "TypeError".

(** [try { ... } catch (ex) { ... }] with a handler that yields a value. *)
Definition try_catch {A} (c : Completion A) (handler : A) : A :=
  match c with
  | Normal a => a
  | Throw _ => handler
  end.

(** [_.sortBy(items, iteratee)]: a stable ascending sort on the key.
    [leb] is the order of the keys; an element is placed before the first
    element whose key is not smaller, elements being entered from the
    right, so that equal keys keep their order. *)
Section SortBy.
Context {A K : Type} (leb : K -> K -> bool) (key : A -> K).

Fixpoint sortBy_insert (x : A) (l : list A) : list A :=
  match l with
  | [] => [x]
  | y :: ys => if leb (key x) (key y) then x :: y :: ys else y :: sortBy_insert x ys
  end.

Definition sortBy (l : list A) : list A := foldr sortBy_insert [] l.

(** The order that the result of [sortBy] is sorted by. *)
Definition key_le (a b : A) : Prop := leb (key a) (key b) = true.

End SortBy.

(** Numeric keys where [None] stands for [Infinity]. *)
Definition rank_leb (a b : option nat) : bool :=
  match a, b with
  | Some x, Some y => Nat.leb x y
  | Some _, None => true
  | None, Some _ => false
  | None, None => true
  end.

(** Whether a key is a number rather than [Infinity]. *)
Definition has_rank {A} (key : A -> option nat) (a : A) : bool :=
  match key a with Some _ => true | None => false end.

(** The names of the members of [Object.prototype]: a plain object has
    them without having been given them. All are functions but
    [__proto__], which reads and sets the prototype of the object. *)
Definition OBJECT_PROTOTYPE : list string :=
  ["constructor"; "__defineGetter__"; "__defineSetter__"; "hasOwnProperty";
   "__lookupGetter__"; "__lookupSetter__"; "isPrototypeOf"; "propertyIsEnumerable";
   "toString"; "valueOf"; "__proto__"; "toLocaleString"].

Definition inherited (key : string) : bool :=
  existsb (String.eqb key) OBJECT_PROTOTYPE.

End Js.

(** ** Strings *)

Module Str.

Definition code (c : ascii) : nat := nat_of_ascii c.

Definition inRange (lo hi : ascii) (c : ascii) : bool :=
  Nat.leb (code lo) (code c) && Nat.leb (code c) (code hi).

(** [\d] *)
Definition isDigit (c : ascii) : bool := inRange "0" "9" c.

(** The character class of [/[a-z_$1-9]/gi]. *)
Definition isNameChar (c : ascii) : bool :=
  inRange "a" "z" c || inRange "A" "Z" c
  || Ascii.eqb c "_" || Ascii.eqb c "$" || inRange "1" "9" c.

(** [s.replace(/^\d+/, '')] *)
Fixpoint stripLeadingDigits (s : string) : string :=
  match s with
  | String c rest => if isDigit c then stripLeadingDigits rest else s
  | EmptyString => EmptyString
  end.

(** The matches of a one-character pattern with the [g] flag, in order. *)
Fixpoint matches (p : ascii -> bool) (s : string) : list string :=
  match s with
  | String c rest => if p c then String c EmptyString :: matches p rest else matches p rest
  | EmptyString => []
  end.

(** [s.match(/[...]/g)]: the array of matches, or [null] when there is
    none. *)
Definition matchGlobal (p : ascii -> bool) (s : string) : option (list string) :=
  match matches p s with
  | [] => None
  | l => Some l
  end.

(** [array.join('')] *)
Definition join (l : list string) : string := String.concat EmptyString l.

Definition startsWith (s p : string) : bool := String.prefix p s.

(** [s.includes(c)] for a one-character needle. *)
Fixpoint includes (s : string) (c : ascii) : bool :=
  match s with
  | String a rest => Ascii.eqb a c || includes rest c
  | EmptyString => false
  end.

(** [_.trimEnd(s, c)]: every trailing occurrence of [c] is removed. *)
Fixpoint trimEnd (s : string) (c : ascii) : string :=
  match s with
  | EmptyString => EmptyString
  | String a rest =>
      match trimEnd rest c with
      | EmptyString => if Ascii.eqb a c then EmptyString else String a EmptyString
      | rest' => String a rest'
      end
  end.

(** [_.trimStart(s, c)] *)
Fixpoint trimStart (s : string) (c : ascii) : string :=
  match s with
  | String a rest => if Ascii.eqb a c then trimStart rest c else s
  | EmptyString => EmptyString
  end.

Definition endsWith (s suffix : string) : bool :=
  let n := String.length s in
  let m := String.length suffix in
  Nat.leb m n && String.eqb (String.substring (n - m) m s) suffix.

(** [s.replace(new RegExp(_.escapeRegExp(suffix) + '$'), '')] *)
Definition dropSuffix (s suffix : string) : string :=
  if endsWith s suffix
  then String.substring 0 (String.length s - String.length suffix) s
  else s.

(** [s.replace(/x/g, y)] for single characters. *)
Fixpoint replaceChar (s : string) (x y : ascii) : string :=
  match s with
  | EmptyString => EmptyString
  | String a rest => String (if Ascii.eqb a x then y else a) (replaceChar rest x y)
  end.

(** [_.trim(s, c)] *)
Definition trim (s : string) (c : ascii) : string := trimEnd (trimStart s c) c.

(** [s.substring(n)] *)
Definition from (n : nat) (s : string) : string :=
  String.substring n (String.length s - n) s.

(** The lower-case form of a letter of the basic alphabet. *)
Definition lowerChar (c : ascii) : ascii :=
  if inRange "A" "Z" c then ascii_of_nat (code c + 32) else c.

Fixpoint lower (s : string) : string :=
  match s with
  | EmptyString => EmptyString
  | String a rest => String (lowerChar a) (lower rest)
  end.

(** [n] copies of [c]. *)
Fixpoint replicate (n : nat) (c : ascii) : string :=
  match n with
  | O => EmptyString
  | S n => String c (replicate n c)
  end.

(** [s.split(c)] for a one-character separator. *)
Fixpoint split (c : ascii) (s : string) : list string :=
  match s with
  | EmptyString => [EmptyString]
  | String a rest =>
      if Ascii.eqb a c then EmptyString :: split c rest
      else match split c rest with
           | part :: parts => String a part :: parts
           | [] => [String a EmptyString]
           end
  end.

(** [s.indexOf(c)] and [s.lastIndexOf(c)] for a one-character needle;
    [-1] when absent. *)
Fixpoint indexOf (s : string) (c : ascii) : Z :=
  match s with
  | EmptyString => (-1)%Z
  | String a rest =>
      if Ascii.eqb a c then 0%Z
      else let i := indexOf rest c in if (i <? 0)%Z then (-1)%Z else (i + 1)%Z
  end.

Fixpoint lastIndexOf (s : string) (c : ascii) : Z :=
  match s with
  | EmptyString => (-1)%Z
  | String a rest =>
      let i := lastIndexOf rest c in
      if (0 <=? i)%Z then (i + 1)%Z
      else if Ascii.eqb a c then 0%Z else (-1)%Z
  end.

(** [/sub/.test(s)] for a pattern that is a plain word: [sub] occurs
    somewhere in [s]. *)
Fixpoint contains (s sub : string) : bool :=
  String.prefix sub s
  || match s with
     | String _ rest => contains rest sub
     | EmptyString => false
     end.

End Str.

(** ** JavaScript values and the syntax tree

    The tree of babylon is a tree of plain objects; the engine reads it
    by property name and by structural comparison with templates. It is
    embedded as it is: a [Value] of JavaScript, a node being an object
    with a [type] property. *)

Module Value.
Import Js.

Set Warnings "-register-all".

Inductive Value : Type :=
| Undefined
| Null
| Str (s : string)
| Num (n : Z)
| Boolean (b : bool)
| Arr (elements : list Value)
| Obj (properties : list (string * Value)).

Set Warnings "+register-all".

Fixpoint lookup (key : string) (properties : list (string * Value)) : Value :=
  match properties with
  | [] => Undefined
  | (k, v) :: rest => if String.eqb k key then v else lookup key rest
  end.

(** [v[key]] where it does not raise: [undefined] when the property is
    absent. The [length] of an array is the only property of a value
    other than an object that the engine reads. *)
Definition prop (key : string) (v : Value) : Value :=
  match v with
  | Obj properties => lookup key properties
  | Arr elements => if String.eqb key "length" then Num (Z.of_nat (length elements)) else Undefined
  | Str s => if String.eqb key "length" then Num (Z.of_nat (String.length s)) else Undefined
  | _ => Undefined
  end.

(** [v[0]] where it does not raise. *)
Definition first (v : Value) : Value :=
  match v with
  | Arr (x :: _) => x
  | Str (String c _) => Str (String c EmptyString)
  | Obj properties => lookup "0" properties
  | _ => Undefined
  end.

(** The [toString] of lodash. Numbers are the integers that the engine
    reads (lines, columns, offsets). *)
Fixpoint baseToString (v : Value) : string :=
  match v with
  | Undefined => "undefined"
  | Null => "null"
  | Str s => s
  | Num n => pretty n
  | Boolean b => if b then "true" else "false"
  | Arr l => String.concat "," (map baseToString l)
  | Obj _ => "[object Object]"
  end.

Definition toString (v : Value) : string :=
  match v with
  | Undefined | Null => EmptyString
  | _ => baseToString v
  end.

(** The element that an array-like value holds under the index [key]. *)
Fixpoint atIndex {X} (key : string) (i : nat) (l : list X) : option X :=
  match l with
  | [] => None
  | x :: rest => if String.eqb (pretty i) key then Some x else atIndex key (S i) rest
  end.

(** The own enumerable property [key] of a value, as the spread
    [{ ...v }] copies it: a property of an object, an element of an
    array or a character of a string under its index. *)
Definition own (key : string) (v : Value) : option Value :=
  match v with
  | Obj properties =>
      if existsb (fun kv => String.eqb (fst kv) key) properties
      then Some (lookup key properties) else None
  | Arr elements => atIndex key 0 elements
  | Str s => (fun c => Str (String c EmptyString)) <$> atIndex key 0 (list_ascii_of_string s)
  | _ => None
  end.

(** A value whose properties can be read. *)
Definition defined (v : Value) : Prop :=
  match v with Undefined | Null => False | _ => True end.

(** [v.key]: reading a property of [undefined] or [null] raises. *)
Definition get (key : string) (v : Value) : Completion Value :=
  match v with
  | Undefined | Null => Throw TypeError
  | _ => Normal (prop key v)
  end.

(** [_.has(v, key)] *)
Definition has (key : string) (v : Value) : bool :=
  match v with
  | Obj properties => existsb (fun kv => String.eqb (fst kv) key) properties
  | _ => false
  end.

(** Truthiness. *)
Definition truthy (v : Value) : bool :=
  match v with
  | Undefined | Null => false
  | Str s => negb (String.eqb s EmptyString)
  | Num n => negb (Z.eqb n 0)
  | Boolean b => b
  | Arr _ | Obj _ => true
  end.

(** [v === 'literal'] *)
Definition isStr (v : Value) (s : string) : bool :=
  match v with
  | Str s' => String.eqb s' s
  | _ => false
  end.

(** [a === b] on primitive values (objects and arrays compare by
    identity, which a template never shares with a tree). *)
Definition strictEq (a b : Value) : bool :=
  match a, b with
  | Undefined, Undefined => true
  | Null, Null => true
  | Str x, Str y => String.eqb x y
  | Num x, Num y => Z.eqb x y
  | Boolean x, Boolean y => Bool.eqb x y
  | _, _ => false
  end.

(** The elements of an array-like value. *)
Definition elements (v : Value) : option (list Value) :=
  match v with
  | Arr l => Some l
  | _ => None
  end.

(** [_.isMatch(object, source)]: partial deep comparison. Every property
    of the template [source] must be matched by [object]; every element
    of an array of the template must be matched by an element of the
    array of the object that no earlier element of the template took. *)
Fixpoint isMatch (source : Value) (object : Value) {struct source} : bool :=
  match source with
  | Obj sprops =>
      match object with
      | Obj oprops =>
          (fix all (sprops : list (string * Value)) : bool :=
             match sprops with
             | [] => true
             | (k, sv) :: rest =>
                 existsb (fun kv => String.eqb (fst kv) k) oprops
                 && isMatch sv (lookup k oprops) && all rest
             end) sprops
      | _ => false
      end
  | Arr selems =>
      match object with
      | Arr oelems =>
          (fix all (selems : list Value) (others : list Value) : bool :=
             match selems with
             | [] => true
             | sv :: rest =>
                 (fix take (seen others : list Value) : bool :=
                    match others with
                    | [] => false
                    | ov :: others' =>
                        if isMatch sv ov then all rest (rev_append seen others')
                        else take (ov :: seen) others'
                    end) [] others
             end) selems oelems
      | _ => false
      end
  | _ => strictEq source object
  end.

End Value.

(** ** External collaborators

    What the engine obtains from the platform: the file system, the path
    library, the parser, the regular-expression engine, the case
    functions of lodash and the missing modules [FileInfo] and [global]. *)

Module Platform.
Import Js Value.

(** The missing class [FileInfo]: the fields the engine reads. *)
Record FileInfo := {
  fullPath : string;
  fullPathForPOSIX : string;
  fileNameWithExtension : string;
  fileNameWithoutExtension : string;
  fileExtensionWithoutLeadingDot : string;
  directoryName : string;
  directoryPath : string;
}.

(** A compiled regular expression, by what is done with it. *)
Record RegExp := {
  test : string -> bool;
  replaceIn : string -> string -> string;
}.

Class Platform := {
  (* fs *)
  existsSync : string -> bool;
  readFileSync : string -> Completion string;
  (* require(path) of a JSON file *)
  requireJson : string -> Completion Value;
  (* path *)
  sep : ascii;
  join : list string -> string;
  resolve : list string -> string;
  dirname : string -> string;
  extname : string -> string;
  (* babylon.parse with the plugins of [JavaScript.parse] *)
  babylon_parse : string -> Completion Value;
  (* new RegExp(source) *)
  newRegExp : string -> Completion RegExp;
  (* lodash *)
  camelCase : string -> string;
  snakeCase : string -> string;
  words : string -> list string;
  upperFirst : string -> string;
  toLowerCase : string -> string;
  (* FileInfo, global *)
  newFileInfo : string -> FileInfo;
  getRelativePath : FileInfo -> string -> string;
  getSortablePath : FileInfo -> FileInfo -> string;
  findFilesRoughly : string -> string -> list string;
}.

End Platform.

(** ** JavaScript.ts: options, parsing, names and exports *)

Module JavaScript.
Import Js Value Platform.

Inductive Syntax := SyntaxImport | SyntaxRequire.
Inductive QuoteCharacter := single | double.
Inductive NamingConvention := camelCase_ | PascalCase | snake_case | lowercase | none.

Record LanguageOptions := {
  syntax : Syntax;
  grouping : bool;
  fileExtension : bool;
  indexFile : bool;
  quoteCharacter : QuoteCharacter;
  semiColons : bool;
  predefinedVariableNames : list (string * string);
  variableNamingConvention : NamingConvention;
  filteredFileList : list (string * string);
}.

Section WithPlatform.
Context `{Platform}.

(** [JavaScript.parse]: [null] when babylon raises. *)
Definition parse (code : string) : Value :=
  try_catch (babylon_parse code) Null.

Record NameRule := { inputPattern : RegExp; output : string }.

(** [_.toPairs(options.predefinedVariableNames).map(...)] *)
Definition compileRules (options : LanguageOptions) : Completion (list NameRule) :=
  mapM (fun pair : string * string =>
          pattern ← newRegExp (fst pair);
          mret {| inputPattern := pattern; output := snd pair |})
       (predefinedVariableNames options).

Definition getVariableName (name : string) (options : LanguageOptions)
  : Completion string :=
  rules ← compileRules options;
  match List.find (fun rule => test (inputPattern rule) name) rules with
  | Some rule => Normal (replaceIn (inputPattern rule) name (output rule))
  | None =>
      (* Strip starting digits *)
      let name := Str.stripLeadingDigits name in
      match variableNamingConvention options with
      | camelCase_ => Normal (camelCase name)
      | PascalCase => Normal (Str.join (map upperFirst (words name)))
      | snake_case => Normal (snakeCase name)
      | lowercase => Normal (toLowerCase (Str.join (words name)))
      | none =>
          match Str.matchGlobal Str.isNameChar name with
          | Some found => Normal (Str.join found)
          | None => Throw TypeError
          end
      end
  end.

Definition getFilePathWithExtension (expectedFileExtension : string) (path : list string)
  : string :=
  let filePath := resolve path in
  if existsSync filePath then filePath
  else filePath +:+ "." +:+ expectedFileExtension.

Definition MODULE_EXPORTS : Value :=
  Obj [("type", Str "ExpressionStatement");
       ("expression", Obj [
          ("type", Str "AssignmentExpression");
          ("left", Obj [
             ("type", Str "MemberExpression");
             ("object", Obj [("type", Str "Identifier"); ("name", Str "module")]);
             ("property", Obj [("type", Str "Identifier"); ("name", Str "exports")])])])].

(** [array.map(f)] of JavaScript: raises on a value that is no array. *)
Definition arrayMap (f : Value -> Completion Value) (v : Value) : Completion Value :=
  match v with
  | Arr l => Arr <$> mapM f l
  | _ => Throw TypeError
  end.

(** [_.flatten]: one level. *)
Definition flatten (l : list Value) : list Value :=
  flat_map (fun v => match v with Arr l' => l' | _ => [v] end) l.

(** The collection that [_.chain(v).map] runs over. *)
Definition collection (v : Value) : list Value :=
  match v with
  | Arr l => l
  | Obj properties => map snd properties
  | Str s => map (fun c => Str (String c EmptyString)) (list_ascii_of_string s)
  | _ => []
  end.

(** What one statement of the file contributes to its exports. The
    recursive call for [export * from] is the parameter [recurse]. *)
Definition exportedBy (recurse : string -> list Value) (fileExtn filePath : string)
    (node : Value) : Completion Value :=
  type ← get "type" node;
  if isStr type "ExportNamedDeclaration" then
    let declaration := prop "declaration" node in
    if truthy declaration && isStr (prop "type" declaration) "FunctionDeclaration" then
      id ← get "id" declaration; get "name" id
    else if truthy declaration && isStr (prop "type" declaration) "VariableDeclaration" then
      arrayMap (fun item => id ← get "id" item; get "name" id)
               (prop "declarations" declaration)
    else if truthy (prop "specifiers" node) then
      arrayMap (fun item =>
                  exported ← get "exported" item;
                  if truthy exported then get "name" exported
                  else local ← get "local" item; get "name" local)
               (prop "specifiers" node)
    else Normal Undefined
  else
    source_value ← (if isStr type "ExportAllDeclaration"
                    then source ← get "source" node; get "value" source
                    else Normal Undefined);
    if isStr type "ExportAllDeclaration" && truthy source_value then
      match source_value with
      | Str value =>
          Normal (Arr (recurse (getFilePathWithExtension fileExtn [filePath; value])))
      | _ => Throw TypeError
      end
    else if isMatch MODULE_EXPORTS node then
      let right := prop "right" (prop "expression" node) in
      right_type ← get "type" right;
      if isStr right_type "ObjectExpression" then
        arrayMap (fun item => key ← get "key" item; get "name" key)
                 (prop "properties" right)
      else Normal Undefined
    else Normal Undefined.

(** [getExportedVariables]. The recursion follows [export * from] from
    file to file and need not end; [depth] is the room left on the call
    stack. When it is used up the call raises and the [catch] of the
    caller yields the empty list, as it does for a file that cannot be
    read or parsed. *)
Fixpoint getExportedVariables (depth : nat) (filePath : string) : list Value :=
  match depth with
  | O => []
  | S depth =>
      let fileExtn := Str.trimStart (extname filePath) "." in
      try_catch
        (code ← readFileSync filePath;
         let codeTree := parse code in
         program ← get "program" codeTree;
         body ← get "body" program;
         names ← mapM (exportedBy (getExportedVariables depth) fileExtn filePath)
                      (collection body);
         mret (List.filter (fun name => negb (isStr name "default"))
                 (List.filter truthy (flatten names))))
        []
  end.

End WithPlatform.

(** *** Existing imports *)

Definition EXPORT_DEFAULT : Value := Obj [("type", Str "ExportDefaultDeclaration")].

Definition MODULE_REQUIRE : Value :=
  Obj [("type", Str "VariableDeclarator");
       ("init", Obj [
          ("type", Str "CallExpression");
          ("callee", Obj [("type", Str "Identifier"); ("name", Str "require")]);
          ("arguments", Arr [Obj [("type", Str "StringLiteral")]])])].

Definition MODULE_REQUIRE_IMMEDIATE : Value :=
  Obj [("type", Str "ExpressionStatement");
       ("expression", Obj [
          ("type", Str "CallExpression");
          ("callee", Obj [("type", Str "Identifier"); ("name", Str "require")])])].

Definition IMPORT_EVERYTHING : Value :=
  Obj [("type", Str "ImportDeclaration");
       ("specifiers", Arr [Obj [("type", Str "ImportNamespaceSpecifier")]])].

(** [ImportStatementForReadOnly]. The object is made as
    [{ node: stub, ...loc, path }]; [start] and [end_] are two of the
    properties that the spread brings, and [spread] is the value that
    was spread, for the others. *)
Record ImportStatementForReadOnly := {
  node : Value;
  path : Value;
  start : Value;
  end_ : Value;
  spread : Value;
}.

(** [{ node: stub, ...loc, path }]: the properties of [loc] are spread
    after [node] and before [path]. *)
Definition importStatement (stub loc path : Value) : ImportStatementForReadOnly :=
  {| node := if has "node" loc then prop "node" loc else stub;
     path := path;
     start := prop "start" loc;
     end_ := prop "end" loc;
     spread := loc |}.

(** [item[key]] for an own property of the statement: [None] when it
    has no such property. *)
Definition member (item : ImportStatementForReadOnly) (key : string) : option Value :=
  if String.eqb key "path" then Some (path item)
  else
    match own key (spread item) with
    | Some v => Some v
    | None => if String.eqb key "node" then Some (node item) else None
    end.

(** [array.filter(p)] of JavaScript: raises on a value that is no array. *)
Fixpoint filterM (p : Value -> Completion bool) (l : list Value) : Completion (list Value) :=
  match l with
  | [] => Normal []
  | x :: rest =>
      keep ← p x;
      kept ← filterM p rest;
      mret (if keep : bool then x :: kept else kept)
  end.

Definition arrayFilter (p : Value -> Completion bool) (v : Value) : Completion (list Value) :=
  match v with
  | Arr l => filterM p l
  | _ => Throw TypeError
  end.

Definition isImportWithLiteralSource (line : Value) : Completion bool :=
  type ← get "type" line;
  mret (isStr type "ImportDeclaration"
        && truthy (prop "source" line)
        && isStr (prop "type" (prop "source" line)) "StringLiteral").

Definition isVariableDeclaration (line : Value) : Completion bool :=
  type ← get "type" line;
  mret (isStr type "VariableDeclaration").

Definition isImmediateRequire (stub : Value) : Completion bool :=
  if isMatch MODULE_REQUIRE_IMMEDIATE stub then
    n ← get "length" (prop "arguments" (prop "expression" stub));
    mret (strictEq n (Num 1))
  else mret false.

Definition requireOfDeclarator (line stub : Value) : Completion ImportStatementForReadOnly :=
  path ← get "value" (first (prop "arguments" (prop "init" stub)));
  mret (importStatement stub (prop "loc" line) path).

Definition requiresOfDeclaration (line : Value)
  : Completion (list ImportStatementForReadOnly) :=
  stubs ← arrayFilter (fun stub => mret (isMatch MODULE_REQUIRE stub))
                      (prop "declarations" line);
  mapM (requireOfDeclarator line) stubs.

Definition requireOfStatement (stub : Value) : Completion ImportStatementForReadOnly :=
  path ← get "value" (first (prop "arguments" (prop "expression" stub)));
  mret (importStatement stub (prop "loc" stub) path).

Definition importOfDeclaration (stub : Value) : ImportStatementForReadOnly :=
  importStatement stub (prop "loc" stub)
    (Str (Str.trimEnd (toString (prop "value" (prop "source" stub))) "/")).

Definition getExistingImports (codeTree : Value)
  : Completion (list ImportStatementForReadOnly) :=
  if truthy codeTree && truthy (prop "program" codeTree)
     && truthy (prop "body" (prop "program" codeTree))
  then
    let body := prop "body" (prop "program" codeTree) in
    (* import '...', import name from '...', import { name } from '...' *)
    lines ← arrayFilter isImportWithLiteralSource body;
    let imports1 := map importOfDeclaration lines in
    (* var name = require('...'), var { name } = require('...') *)
    lines ← arrayFilter isVariableDeclaration body;
    nested ← mapM requiresOfDeclaration lines;
    let imports2 := concat nested in
    (* require('...') *)
    stubs ← arrayFilter isImmediateRequire body;
    imports3 ← mapM requireOfStatement stubs;
    mret (imports1 ++ imports2 ++ imports3)
  else mret [].

Definition getDuplicateImport (existingImports : list ImportStatementForReadOnly)
    (path_ : string) : option ImportStatementForReadOnly :=
  List.find (fun stub => isStr (path stub) path_) existingImports.

(** Specification vocabulary: the statements of a tree, the range of a
    statement, and a path with one trailing slash removed, as the
    specification words the trimming. *)
Definition statements (codeTree : Value) : list Value :=
  match prop "body" (prop "program" codeTree) with
  | Arr l => l
  | _ => []
  end.

Definition hasRangeOf (imp : ImportStatementForReadOnly) (line : Value) : Prop :=
  start imp = prop "start" (prop "loc" line) /\ end_ imp = prop "end" (prop "loc" line).

(** An extracted statement comes from a statement of the tree of one of
    the three forms and has its range; when that statement is a static
    import, the recorded path is its literal without the trailing
    slashes: the literal is the recorded path followed by slashes only,
    and the recorded path does not end in a slash. *)
Definition extractedFrom (codeTree : Value) (imp : ImportStatementForReadOnly) : Prop :=
  exists line, In line (statements codeTree) /\ hasRangeOf imp line /\
    ((isImportWithLiteralSource line = Normal true /\
      forall literal, prop "value" (prop "source" line) = Str literal ->
        exists recorded n,
          path imp = Str recorded /\
          recorded = Str.trimEnd literal "/" /\
          literal = (recorded +:+ Str.replicate n "/")%string /\
          forall t, recorded <> (t +:+ "/")%string)
     \/ isVariableDeclaration line = Normal true
     \/ isImmediateRequire line = Normal true).

Definition trimOneTrailingSlash (s : string) : string :=
  if Str.endsWith s "/" then String.substring 0 (String.length s - 1) s else s.

End JavaScript.

(** ** The editor

    The text document, the edits, the messages and the prompts of the
    editor API. The state is explicit: the text of the document, the
    answers that the user is going to give, and a log of what the
    engine showed and did. *)

Module Editor.
Import Js Value.

Record Position := { line : nat; character : nat }.
Record Range := { start : Position; end_ : Position }.

(** [new vscode.Position(line, character)]: negative arguments are
    illegal. *)
Definition newPosition (line character : Z) : Completion Position :=
  if (line <? 0)%Z || (character <? 0)%Z then Throw "illegalArgument"
  else Normal {| line := Z.to_nat line; character := Z.to_nat character |}.

Definition before (a b : Position) : bool :=
  Nat.ltb (line a) (line b)
  || (Nat.eqb (line a) (line b) && Nat.ltb (character a) (character b)).

(** [new vscode.Range(start, end)]: the ends are put in order. *)
Definition newRange (a b : Position) : Range :=
  if before b a then {| start := b; end_ := a |} else {| start := a; end_ := b |}.

(** A number read from the tree; arithmetic on anything else gives a
    value that the constructors of the editor do not accept. *)
Definition number (v : Value) : Completion Z :=
  match v with
  | Num n => Normal n
  | _ => Throw "illegalArgument"
  end.

(** [new vscode.Position(p.line - 1, p.column)] for a position [p] of
    babylon. *)
Definition positionOf (p : Value) : Completion Position :=
  l ← get "line" p;
  c ← get "column" p;
  l ← number l;
  c ← number c;
  newPosition (l - 1) c.

(** [new vscode.Range(loc.start.line - 1, loc.start.column,
    loc.end.line - 1, loc.end.column)] *)
Definition rangeOf (start_ end__ : Value) : Completion Range :=
  a ← positionOf start_;
  b ← positionOf end__;
  mret (newRange a b).

(** *** Text of a document: lines end with a line feed, which a
    carriage return may precede. *)

Definition LF : ascii := "010"%char.
Definition DQUOTE : ascii := "034"%char.
Definition CR : ascii := "013"%char.

(** Length of the first line, without its terminator. *)
Fixpoint lineLength (text : string) : nat :=
  match text with
  | EmptyString => 0
  | String c rest =>
      if Ascii.eqb c LF then 0
      else if Ascii.eqb c CR && Str.startsWith rest (String LF EmptyString) then 0
      else S (lineLength rest)
  end.

(** [document.offsetAt(position)]: the position is adjusted to the
    document first (a column past the end of its line is the end of the
    line, a line past the last is the end of the text). *)
Fixpoint offsetAt (text : string) (l c : nat) : nat :=
  match l with
  | O => Nat.min c (lineLength text)
  | S l' =>
      match text with
      | EmptyString => 0
      | String a rest => S (offsetAt rest (if Ascii.eqb a LF then l' else l) c)
      end
  end.

Definition offsetOf (text : string) (p : Position) : nat :=
  offsetAt text (line p) (character p).

(** [document.positionAt(offset)] *)
Fixpoint positionAt (text : string) (offset : nat) (l c : nat) : Position :=
  match offset, text with
  | S offset', String a rest =>
      if Ascii.eqb a LF then positionAt rest offset' (S l) 0
      else positionAt rest offset' l (S c)
  | _, _ => {| line := l; character := c |}
  end.

(** [document.getText(range)] *)
Definition getText (text : string) (r : Range) : string :=
  let a := offsetOf text (start r) in
  let b := offsetOf text (end_ r) in
  String.substring a (b - a) text.

Inductive TextEdit :=
| Replace (range : Range) (newText : string)
| Insert (position : Position) (newText : string)
| Delete (range : Range).

Definition splice (text : string) (a b : nat) (newText : string) : string :=
  (String.substring 0 a text +:+ newText
   +:+ String.substring b (String.length text - b) text)%string.

Definition applyEdit (e : TextEdit) (text : string) : string :=
  match e with
  | Replace r newText => splice text (offsetOf text (start r)) (offsetOf text (end_ r)) newText
  | Insert p newText => splice text (offsetOf text p) (offsetOf text p) newText
  | Delete r => splice text (offsetOf text (start r)) (offsetOf text (end_ r)) EmptyString
  end.

Inductive EndOfLine := EOL_LF | EOL_CRLF.

(** A document, with the path of its workspace folder. *)
Record TextDocument := {
  text : string;
  eol : EndOfLine;
  languageId : string;
  fileName : string;
  workspaceFolder : string;
}.

(** What the engine shows and does, in the order of occurrence. *)
Inductive Event :=
| QuickPickShown (items : list string) (placeHolder : string) (answer : option nat)
| WarningModalShown (message : string) (options : list string) (answer : option nat)
| InformationMessage (message : string)
| WarningMessage (message : string)
| StatusBarMessage (message : string)
| Revealed (position : Position)
| Searched (path : string)
| Edited (e : TextEdit)
| LinterRan.

(** The editor and its user. [quickPicks], [dialogs] and
    [cancellations] are what the user answers to the prompts to come and
    what the cancellation token reads at the polls to come; [linter] is
    the fix-all command of ESLint when it is installed. *)
Record World := {
  document : TextDocument;
  selection : Position;
  quickPicks : list (option nat);
  dialogs : list (option nat);
  cancellations : list bool;
  linter : option (string -> string);
  log : list Event;
}.

Definition M (A : Type) : Type := World -> Completion A * World.

#[global] Instance M_ret : MRet M := fun _ a w => (Normal a, w).
#[global] Instance M_bind : MBind M := fun _ _ k m w =>
  match m w with
  | (Normal a, w') => k a w'
  | (Throw e, w') => (Throw e, w')
  end.

Definition lift {A} (c : Completion A) : M A := fun w => (c, w).

Definition record (e : Event) (w : World) : World :=
  {| document := document w; selection := selection w; quickPicks := quickPicks w;
     dialogs := dialogs w; cancellations := cancellations w; linter := linter w;
     log := log w ++ [e] |}.

Definition withText (t : string) (d : TextDocument) : TextDocument :=
  {| text := t; eol := eol d; languageId := languageId d; fileName := fileName d;
     workspaceFolder := workspaceFolder d |}.

Definition setText (t : string) (w : World) : World :=
  {| document := withText t (document w);
     selection := selection w; quickPicks := quickPicks w;
     dialogs := dialogs w; cancellations := cancellations w; linter := linter w;
     log := log w |}.

(** [await vscode.window.showQuickPick(items, { placeHolder })]: the
    operation is suspended until the user picks an item or dismisses
    the list. *)
Definition showQuickPick (items : list string) (placeHolder : string)
  : M (option nat) := fun w =>
  let answer := match quickPicks w with a :: _ => a | [] => None end in
  (Normal answer,
   record (QuickPickShown items placeHolder answer)
     {| document := document w; selection := selection w;
        quickPicks := tail (quickPicks w);
        dialogs := dialogs w; cancellations := cancellations w; linter := linter w;
        log := log w |}).

(** [await vscode.window.showWarningMessage(message, { modal: true },
    ...options)] *)
Definition showWarningModal (message : string) (options : list string)
  : M (option nat) := fun w =>
  let answer := match dialogs w with a :: _ => a | [] => None end in
  (Normal answer,
   record (WarningModalShown message options answer)
     {| document := document w; selection := selection w;
        quickPicks := quickPicks w;
        dialogs := tail (dialogs w); cancellations := cancellations w; linter := linter w;
        log := log w |}).

(** [cancellationToken.isCancellationRequested] *)
Definition isCancellationRequested : M bool := fun w =>
  (Normal (match cancellations w with c :: _ => c | [] => false end),
   {| document := document w; selection := selection w;
      quickPicks := quickPicks w; dialogs := dialogs w;
      cancellations := tail (cancellations w); linter := linter w;
      log := log w |}).

Definition notify (e : Event) : M unit := fun w => (Normal tt, record e w).

(** [await editor.edit(worker => ...)] with one change. *)
Definition edit (e : TextEdit) : M unit := fun w =>
  (Normal tt, record (Edited e) (setText (applyEdit e (text (document w))) w)).

Definition readDocument : M TextDocument := fun w => (Normal (document w), w).

Definition readSelection : M Position := fun w => (Normal (selection w), w).

(** [JavaScript.fixESLint] *)
Definition fixESLint : M unit := fun w =>
  match linter w with
  | Some fix_ => (Normal tt, record LinterRan (setText (fix_ (text (document w))) w))
  | None => (Normal tt, w)
  end.

(** [focusAt(node)] *)
Definition focusAt (node_start node_end : Value) : M unit :=
  l ← lift (l ← get "line" node_start; number l);
  c ← lift (c ← get "column" node_end; number c);
  position ← lift (newPosition (l - 1) c);
  notify (Revealed position).

(** The edits of a log. *)
Definition edits (events : list Event) : list TextEdit :=
  flat_map (fun e => match e with Edited t => [t] | _ => [] end) events.

(** *** Reasoning about runs

    [runs m Q]: from any state, [m] appends events [es] to the log, the
    document afterwards is the document before with the edits of [es]
    applied, and the completion of [m] and [es] satisfy [Q]. *)

Definition isChange (e : Event) : bool :=
  match e with
  | Edited _ | LinterRan => true
  | _ => false
  end.

Definition changes (events : list Event) : list Event := List.filter isChange events.

(** The document after the events [es]: the edits applied in their
    order, and the linter where it ran. *)
Definition replayEvent (linter : option (string -> string)) (d : TextDocument)
    (e : Event) : TextDocument :=
  match e with
  | Edited x => withText (applyEdit x (text d)) d
  | LinterRan => match linter with
                 | Some fix_ => withText (fix_ (text d)) d
                 | None => d
                 end
  | _ => d
  end.

Definition replay (linter : option (string -> string)) (es : list Event)
    (d : TextDocument) : TextDocument :=
  fold_left (replayEvent linter) es d.

Definition runs {A} (m : M A) (Q : Completion A -> list Event -> Prop) : Prop :=
  forall w, exists es,
    log (snd (m w)) = log w ++ es /\
    linter (snd (m w)) = linter w /\
    document (snd (m w)) = replay (linter w) es (document w) /\
    Q (fst (m w)) es.

Definition isPick (e : Event) : bool :=
  match e with
  | QuickPickShown _ _ _ => true
  | _ => false
  end.

Definition isDialog (e : Event) : bool :=
  match e with
  | WarningModalShown _ _ _ => true
  | _ => false
  end.

Definition isPrompt (e : Event) : bool := isPick e || isDialog e.

Definition noPrompt (e : Event) : Prop := isPrompt e = false.

(** An event of the choice of the binding: a message, a reveal or a
    quick pick. *)
Definition isSelection (e : Event) : Prop := isChange e = false /\ isDialog e = false.

(** A quick pick that the user dismissed, or whose choice is empty. *)
Definition dismissedPick (items : list string) (answer : option nat) : Prop :=
  match answer ≫= (fun i => items !! i) with
  | None => True
  | Some selected => selected = EmptyString
  end.

(** Some quick pick of the events was dismissed. *)
Definition someDismissedPick (es : list Event) : Prop :=
  exists items placeHolder answer,
    In (QuickPickShown items placeHolder answer) es /\ dismissedPick items answer.

Definition quiet (e : Event) : Prop := isChange e = false /\ isPrompt e = false.

(** An event that leaves the document as it is. *)
Definition calm (e : Event) : Prop := isChange e = false.

(** What the choice of a binding guarantees: nothing is edited, no
    dialog is shown, and a dismissed quick pick ends the operation. *)
Definition settled {A} (r : Completion (option A)) (es : list Event) : Prop :=
  Forall isSelection es /\ (someDismissedPick es -> r = Normal None).

(** What the completion of the operation guarantees: no quick pick is
    shown, and when the conflict dialog is answered by anything other
    than its first option the operation goes on normally and its only
    edit is the insertion of the new statement. *)
Definition completed (r : Completion unit) (es : list Event) : Prop :=
  Forall (fun e => isPick e = false) es /\
  forall message options answer,
    In (WarningModalShown message options answer) es -> answer <> Some 0 ->
    r = Normal tt /\ exists position snippet, edits es = [Insert position snippet].

(** Runs whose events all satisfy [P]. *)
Definition emits (P : Event -> Prop) {A} (m : M A) : Prop :=
  runs m (fun _ es => Forall P es).

End Editor.

(** ** Tree searches *)

Module TreeSearch.
Import Js Value JavaScript.

(** The value of the property [key] handed to [k]; [absent] when there
    is no such property. *)
Definition withProp {R} (key : string) (absent : R) (k : Value -> R)
  : list (string * Value) -> R :=
  fix go properties :=
    match properties with
    | [] => absent
    | (k', v) :: rest => if String.eqb k' key then k v else go rest
    end.

(** The first result that is not [undefined]. *)
Definition firstDefined (f : Value -> Completion (option Value))
  : list Value -> Completion (option Value) :=
  fix go l :=
    match l with
    | [] => Normal None
    | x :: rest =>
        r ← f x;
        match r with
        | Some y => Normal (Some y)
        | None => go rest
        end
    end.

(** [_.get(source, 'type', '').endsWith('Declaration')] *)
Definition typeEndsWithDeclaration (source : Value) : Completion bool :=
  match prop "type" source with
  | Undefined => Normal false
  | Str t => Normal (Str.endsWith t "Declaration")
  | _ => Throw TypeError
  end.

(** [findInCodeTree(source, target)]; [None] is [undefined]. No node of
    the tree has a [length], so that the array-like values are the
    arrays and the strings. *)
Fixpoint findInCodeTree (target : Value) (source : Value) {struct source}
  : Completion (option Value) :=
  match source with
  | Null => Normal None
  | Undefined => Throw TypeError
  | Obj properties =>
      if isStr (lookup "type" properties) "File" && truthy (lookup "program" properties)
      then withProp "program" (Normal None) (findInCodeTree target) properties
      else if isMatch target source then Normal (Some source)
      else
        match lookup "body" properties with
        | Arr _ =>
            withProp "body" (Normal None)
              (fun body => match body with
                           | Arr l => firstDefined (findInCodeTree target) l
                           | _ => Normal None
                           end) properties
        | Str _ => Normal None
        | Obj _ => withProp "body" (Normal None) (findInCodeTree target) properties
        | _ =>
            declaration ← typeEndsWithDeclaration source;
            if declaration && has "declaration" source then
              withProp "declaration" (Normal None) (findInCodeTree target) properties
            else if declaration && has "declarations" source
                    && match lookup "declarations" properties with Arr _ => true | _ => false end
            then
              withProp "declarations" (Normal None)
                (fun l => match l with
                          | Arr l => firstDefined (findInCodeTree target) l
                          | _ => Normal None
                          end) properties
            else Normal None
        end
  | _ => Normal None
  end.

(** The test of [findRequireRecursively] for [require('...')]. *)
Definition isRequireCall (node : Value) : Completion bool :=
  if isStr (prop "type" node) "CallExpression" then
    callee_type ← get "type" (prop "callee" node);
    if isStr callee_type "Identifier" && isStr (prop "name" (prop "callee" node)) "require"
    then
      n ← get "length" (prop "arguments" node);
      if strictEq n (Num 1) then
        argument_type ← get "type" (first (prop "arguments" node));
        mret (isStr argument_type "StringLiteral")
      else mret false
    else mret false
  else mret false.

Definition concatMapM {X} (f : Value -> Completion (list X))
  : list Value -> Completion (list X) :=
  fix go l :=
    match l with
    | [] => Normal []
    | x :: rest => a ← f x; b ← go rest; mret (a ++ b)
    end.

Definition concatMapValues {X} (f : Value -> Completion (list X))
  : list (string * Value) -> Completion (list X) :=
  fix go properties :=
    match properties with
    | [] => Normal []
    | (_, v) :: rest => a ← f v; b ← go rest; mret (a ++ b)
    end.

(** [findRequireRecursively(node)]: the calls of [require] with one
    string literal, in the order of the tree. The set of visited nodes
    of the source guards against shared nodes, which a tree does not
    have. *)
Fixpoint findRequireRecursively (node : Value) {struct node} : Completion (list Value) :=
  match node with
  | Arr l => concatMapM findRequireRecursively l
  | Obj properties =>
      match lookup "type" properties with
      | Undefined => Normal []
      | _ =>
          found ← isRequireCall node;
          if found : bool then Normal [node]
          else concatMapValues findRequireRecursively properties
      end
  | _ => Normal []
  end.

End TreeSearch.

(** ** FileItem *)

(** The binding that [addImport] constructs: [name] is the text between
    [import] and [from], [iden] the identifier it binds, [path] the
    module path. *)
Module Binding.
Record t := { name : string; iden : string; path : string }.
End Binding.

Module FileItem.
Import Js Value Platform JavaScript TreeSearch Editor.

(** [/^jsx?$/] and [/^(j|t)sx?$/] *)
Definition WORKING_EXTENSION (s : string) : bool :=
  String.eqb s "js" || String.eqb s "jsx".

Definition WORKING_EXTENSION_WITH_TYPESCRIPT (s : string) : bool :=
  String.eqb s "js" || String.eqb s "jsx" || String.eqb s "ts" || String.eqb s "tsx".

(** [/^tsx?$/] *)
Definition TYPESCRIPT_EXTENSION (s : string) : bool :=
  String.eqb s "ts" || String.eqb s "tsx".

(** [/^(css|less|sass|scss|styl)$/] *)
Definition STYLE_EXTENSION (s : string) : bool :=
  String.eqb s "css" || String.eqb s "less" || String.eqb s "sass"
  || String.eqb s "scss" || String.eqb s "styl".

Record FileItem := {
  options : LanguageOptions;
  extension : string -> bool;
  id : string;
  label : string;
  description : string;
  fileInfo : FileInfo;
  sortablePath : option string;
  sortableName : string;
}.

Section WithPlatform.
Context `{Platform}.

Definition checkIfIndexPath (extension : string -> bool) (fileNameWithExtension : string)
  : bool :=
  match Str.split "." fileNameWithExtension with
  | [part0; part1] => String.eqb part0 "index" && extension part1
  | _ => false
  end.

(** The constructor. *)
Definition new (filePath rootPath : string) (options : LanguageOptions)
    (extension : string -> bool) : FileItem :=
  let fileInfo := newFileInfo filePath in
  let relative := Str.from (String.length rootPath) (fullPath fileInfo) in
  let isIndex := checkIfIndexPath extension (fileNameWithExtension fileInfo) in
  {| options := options;
     extension := extension;
     id := fullPath fileInfo;
     fileInfo := fileInfo;
     label :=
       if indexFile options && isIndex then directoryName fileInfo
       else if negb (fileExtension options)
               && extension (fileExtensionWithoutLeadingDot fileInfo)
       then fileNameWithoutExtension fileInfo
       else fileNameWithExtension fileInfo;
     description :=
       if indexFile options && isIndex
       then Str.replaceChar (Str.trim relative sep) "\" "/"
       else Str.replaceChar (Str.trim (dirname relative) sep) "\" "/";
     sortablePath := None;
     (* Make index file appear on the top of its directory *)
     sortableName :=
       if isIndex then "!" else toLowerCase (fileNameWithExtension fileInfo) |}.

Definition getNameAndRelativePath (self : FileItem)
    (directoryPathOfWorkingDocument : string) : Completion (string * string) :=
  name ← getVariableName (fileNameWithoutExtension (fileInfo self)) (options self);
  let path := getRelativePath (fileInfo self) directoryPathOfWorkingDocument in
  if indexFile (options self)
     && checkIfIndexPath (extension self) (fileNameWithExtension (fileInfo self))
  then
    (* Set the imported variable name to the directory name *)
    name ← getVariableName (directoryName (fileInfo self)) (options self);
    (* Remove "/index.js" from the imported path *)
    mret (name, dirname path)
  else if negb (fileExtension (options self))
          && extension self (fileExtensionWithoutLeadingDot (fileInfo self))
  then
    (* Remove file extension from the imported path only if it matches
       the working document *)
    mret (name, Str.dropSuffix path ("." +:+ fileExtensionWithoutLeadingDot (fileInfo self)))
  else mret (name, path).

Definition getIndexPath (self : FileItem) : string :=
  resolve [directoryPath (fileInfo self);
           "index." +:+ fileExtensionWithoutLeadingDot (fileInfo self)].

Definition hasIndexFile (self : FileItem) : bool := existsSync (getIndexPath self).

(** [getImportSnippet]; a [name] that is [null] or empty is [None]. *)
Definition getImportSnippet (name : option string) (path : string) (useImport : bool)
    (options : LanguageOptions) (document : TextDocument) : string :=
  let path := match quoteCharacter options with
              | single => "'" +:+ path +:+ "'"
              | double => String DQUOTE path +:+ String DQUOTE EmptyString
              end in
  let lineEnding :=
    (if semiColons options then ";" else EmptyString)
    +:+ match eol document with
        | EOL_CRLF => String CR (String LF EmptyString)
        | EOL_LF => String LF EmptyString
        end in
  if useImport then
    match name with
    | Some name => "import " +:+ name +:+ " from " +:+ path +:+ lineEnding
    | None => "import " +:+ path +:+ lineEnding
    end
  else
    match name with
    | Some name => "const " +:+ name +:+ " = require(" +:+ path +:+ ")" +:+ lineEnding
    | None => "require(" +:+ path +:+ ")"
    end.

Definition nonEmpty (s : string) : option string :=
  if String.eqb s EmptyString then None else Some s.

(** *** The exports seen through the index file *)

Definition hasType (type : string) (node : Value) : Completion bool :=
  t ← get "type" node;
  mret (isStr t type).

(** [fp.resolve(directory, value)]: the segments are strings. *)
Definition resolveIn (directory : string) (value : Value) : Completion string :=
  match value with
  | Str v => Normal (resolve [directory; v])
  | _ => Throw TypeError
  end.

Fixpoint foldM {S X} (f : S -> X -> Completion S) (s : S) (l : list X) : Completion S :=
  match l with
  | [] => Normal s
  | x :: rest => s' ← f s x; foldM f s' rest
  end.

(** [array.forEach] with a state: raises on a value that is no array. *)
Definition arrayFold {S} (f : S -> Value -> Completion S) (s : S) (v : Value)
  : Completion S :=
  match v with
  | Arr l => foldM f s l
  | _ => Throw TypeError
  end.

(** [hash[key] = value] and [hash[key]] on an object used as a map. *)
Definition setKey (key : string) (value : string) (hash : list (string * string))
  : list (string * string) :=
  (key, value) :: List.filter (fun kv => negb (String.eqb (fst kv) key)) hash.

Definition getKey (key : string) (hash : list (string * string)) : option string :=
  snd <$> List.find (fun kv => String.eqb (fst kv) key) hash.

(** The working memory of [getExportedVariablesFromIndexFile]:
    [exportedVariableList] and [sourceExportedVariableDict]. *)
Record ExportTable := {
  exportedVariableList : list Value;
  sourceExportedVariableDict : list (string * list Value);
}.

Fixpoint pushTo (path : string) (name : Value) (dict : list (string * list Value))
  : list (string * list Value) :=
  match dict with
  | [] => [(path, [name])]
  | (p, names) :: rest =>
      if String.eqb p path then (p, names ++ [name]) :: rest
      else (p, names) :: pushTo path name rest
  end.

Definition save (name : Value) (path : string) (table : ExportTable) : ExportTable :=
  if negb (truthy name) || String.eqb path EmptyString then table
  else {| exportedVariableList := exportedVariableList table ++ [name];
          sourceExportedVariableDict :=
            pushTo path name (sourceExportedVariableDict table) |}.

Definition importedSources (self : FileItem) (hash : list (string * string))
    (node : Value) : Completion (list (string * string)) :=
  let specifiers := if truthy (prop "specifiers" node)
                    then prop "specifiers" node else Arr [] in
  arrayFold (fun hash item =>
      type ← get "type" item;
      if isStr type "ImportDefaultSpecifier" then
        local ← get "local" item;
        name ← get "name" local;
        source ← get "value" (prop "source" node);
        path ← resolveIn (directoryPath (fileInfo self)) source;
        mret (setKey (baseToString name) path hash)
      else if isStr type "ImportSpecifier" then
        imported ← get "imported" item;
        name ← get "name" imported;
        source ← get "value" (prop "source" node);
        path ← resolveIn (directoryPath (fileInfo self)) source;
        mret (setKey (baseToString name) path hash)
      else mret hash)
    hash specifiers.

Definition namedExports (self : FileItem) (importedVariableSourceDict : list (string * string))
    (table : ExportTable) (node : Value) : Completion ExportTable :=
  let extn := fileExtensionWithoutLeadingDot (fileInfo self) in
  arrayFold (fun table item =>
      local ← get "local" item;
      name ← get "name" local;
      path ← (if truthy (prop "source" node) then
                source ← get "value" (prop "source" node);
                match source with
                | Str v =>
                    Normal (getFilePathWithExtension extn [directoryPath (fileInfo self); v])
                | _ => Throw TypeError
                end
              else
                match getKey (baseToString name) importedVariableSourceDict with
                | Some p => Normal (getFilePathWithExtension extn [p])
                | None => Throw TypeError
                end);
      mret (save name path table))
    table (prop "specifiers" node).

Definition starExports (depth : nat) (self : FileItem) (table : ExportTable)
    (node : Value) : Completion ExportTable :=
  let extn := fileExtensionWithoutLeadingDot (fileInfo self) in
  source ← get "value" (prop "source" node);
  match source with
  | Str v =>
      let path := getFilePathWithExtension extn [directoryPath (fileInfo self); v] in
      Normal (fold_left (fun table name => save name path table)
                (getExportedVariables depth path) table)
  | _ => Throw TypeError
  end.

Definition getExportedVariablesFromIndexFile (depth : nat) (self : FileItem)
  : list Value :=
  try_catch
    (code ← readFileSync (getIndexPath self);
     let codeTree := parse code in
     program ← get "program" codeTree;
     body ← get "body" program;
     imports ← arrayFilter (hasType "ImportDeclaration") body;
     importedVariableSourceDict ← foldM (importedSources self) [] imports;
     named ← arrayFilter (hasType "ExportNamedDeclaration") body;
     table ← foldM (namedExports self importedVariableSourceDict)
               {| exportedVariableList := []; sourceExportedVariableDict := [] |} named;
     stars ← arrayFilter (hasType "ExportAllDeclaration") body;
     table ← foldM (starExports depth self) table stars;
     if String.eqb (fileNameWithoutExtension (fileInfo self)) "index" then
       mret (exportedVariableList table)
     else
       match List.find (fun kv => String.eqb (fst kv) (fullPath (fileInfo self)))
                       (sourceExportedVariableDict table) with
       | Some (_, names) => mret names
       | None => mret []
       end)
    [].

(** *** addImport *)

Definition quoted (s : string) : string :=
  String DQUOTE (s +:+ String DQUOTE EmptyString).

(** [array.find(p)] of JavaScript. *)
Fixpoint findM (p : Value -> Completion bool) (l : list Value) : Completion (option Value) :=
  match l with
  | [] => Normal None
  | x :: rest => found ← p x; if found : bool then Normal (Some x) else findM p rest
  end.

Definition arrayFind (p : Value -> Completion bool) (v : Value) : Completion (option Value) :=
  match v with
  | Arr l => findM p l
  | _ => Throw TypeError
  end.

(** [_.last(array)] *)
Definition lastOf (v : Value) : Value :=
  match v with
  | Arr l => List.last l Undefined
  | _ => Undefined
  end.

(** [_.findLast(array, p)] *)
Definition findLast (p : Value -> Completion bool) (v : Value) : Completion (option Value) :=
  match v with
  | Arr l => findM p (rev l)
  | _ => Normal None
  end.

(** The position where a new statement goes: before the first existing
    import, or the top of the file. *)
Definition firstImportPosition (existingImports : list ImportStatementForReadOnly)
  : Completion Position :=
  match existingImports with
  | [] => newPosition 0 0
  | first_ :: _ => positionOf (JavaScript.start first_)
  end.

(** [await vscode.window.showQuickPick(['*', ...exportedVariables])]
    and what follows it. [None]: the operation has returned. *)
Definition chooseExport (iden : string) (exportedVariables : list string)
  : M (option (string * string)) :=
  let items := "*" :: exportedVariables in
  answer ← showQuickPick items EmptyString;
  match answer ≫= (fun i => items !! i) with
  | None => mret None
  | Some selectedName =>
      if String.eqb selectedName EmptyString then mret None
      else if String.eqb selectedName "*" then mret (Some ("* as " +:+ iden, iden))
      else mret (Some ("{ " +:+ selectedName +:+ " }", selectedName))
  end.

Definition focusAtImport (stub : ImportStatementForReadOnly) : M unit :=
  focusAt (JavaScript.start stub) (JavaScript.end_ stub).

Definition focusAtLoc (loc : Value) : M unit :=
  s ← lift (get "start" loc);
  e ← lift (get "end" loc);
  focusAt s e.

(** The index file of the directory decides the binding. The result is
    [None] when the operation has returned, and otherwise the binding
    with [foundIndexFileAndWentForIt]. *)
Definition viaIndexFile (depth : nat) (self : FileItem)
    (existingImports : list ImportStatementForReadOnly)
    (directoryPathOfWorkingDocument : string) (b : Binding.t)
  : M (option (Binding.t * bool)) :=
  if hasIndexFile self then
    let exportedVariables :=
      map baseToString (getExportedVariablesFromIndexFile depth self) in
    let indexFileRelativePath :=
      getRelativePath (newFileInfo (getIndexPath self)) directoryPathOfWorkingDocument in
    let indexFileRelativePath :=
      if negb (indexFile (options self)) then dirname indexFileRelativePath
      else if negb (fileExtension (options self))
      then Str.dropSuffix indexFileRelativePath (extname indexFileRelativePath)
      else indexFileRelativePath in
    let duplicateImportForIndexFile :=
      getDuplicateImport existingImports indexFileRelativePath in
    let duplicateImportHasImportedEverything :=
      match duplicateImportForIndexFile with
      | Some d => isMatch IMPORT_EVERYTHING (node d)
      | None => false
      end in
    match duplicateImportForIndexFile with
    | Some d =>
        if Nat.ltb 0 (length exportedVariables) && duplicateImportHasImportedEverything
        then
          (* Stop processing if there is `import * as name from "path"` *)
          _ ← notify (InformationMessage
                 ("The module " +:+ quoted (Binding.name b)
                  +:+ " has been already imported from "
                  +:+ quoted indexFileRelativePath +:+ "."));
          _ ← focusAtImport d;
          mret None
        else mret (Some (b, false))
    | None => mret (Some (b, false))
    end ≫= fun proceed =>
    match proceed with
    | None => mret None
    | Some _ =>
        match exportedVariables with
        | [] => mret (Some (b, false))
        | [only] =>
            (* import { name } from "path/index.js" when the index file
               exports only one *)
            mret (Some ({| Binding.name := "{ " +:+ only +:+ " }"; Binding.iden := only;
                           Binding.path := indexFileRelativePath |}, true))
        | _ =>
            chosen ← chooseExport (Binding.iden b) exportedVariables;
            match chosen with
            | None => mret None
            | Some (name', iden') =>
                mret (Some ({| Binding.name := name'; Binding.iden := iden';
                               Binding.path := indexFileRelativePath |}, true))
            end
        end
    end
  else mret (Some (b, false)).

(** The file itself decides the binding. *)
Definition viaForeignFile (depth : nat) (self : FileItem) (b : Binding.t)
  : M (option Binding.t) :=
  codeText ← lift (readFileSync (fullPath (fileInfo self)));
  let codeTree := parse codeText in
  foreignFileHasDefaultExport ← lift (
    match codeTree with
    | Null => Normal true
    | _ =>
        found ← findInCodeTree EXPORT_DEFAULT codeTree;
        match found with
        | Some _ => Normal true
        | None => found ← findInCodeTree MODULE_EXPORTS codeTree;
                  Normal (match found with Some _ => true | None => false end)
        end
    end);
  if foreignFileHasDefaultExport : bool then mret (Some b)
  else
    let exportedVariables :=
      map baseToString (getExportedVariables depth (fullPath (fileInfo self))) in
    match exportedVariables with
    | [] =>
        (* import * as name from "path" when the file does not export
           anything *)
        mret (Some {| Binding.name := "* as " +:+ Binding.iden b;
                      Binding.iden := Binding.iden b;
                      Binding.path := Binding.path b |})
    | _ =>
        chosen ← chooseExport (Binding.iden b) exportedVariables;
        match chosen with
        | None => mret None
        | Some (name', iden') =>
            mret (Some {| Binding.name := name'; Binding.iden := iden';
                          Binding.path := Binding.path b |})
        end
    end.

(** [new vscode.Position(loc.end.line - 1, loc.end.column)] after a
    specifier. *)
Definition endOf (specifier : Value) : Completion Position :=
  loc ← get "loc" specifier;
  e ← get "end" loc;
  positionOf e.

Definition startOf (specifier : Value) : Completion Position :=
  loc ← get "loc" specifier;
  s ← get "start" loc;
  positionOf s.

(** Replace the existing import with the namespace import. *)
Definition replaceWithNamespace (document : TextDocument) (node_ : Value) (name : string)
  : M unit :=
  let specifiers := prop "specifiers" node_ in
  let firstNameNode := first specifiers in
  let lastNameNode := lastOf specifiers in
  range ← lift (
    a ← startOf firstNameNode;
    b ← endOf lastNameNode;
    let duplicateRange := newRange a b in
    duplicateRange ← (
      if isStr (prop "type" firstNameNode) "ImportSpecifier" then
        nodeStart ← startOf node_;
        let beforeNameText := getText (text document) (newRange nodeStart a) in
        let openBraceDelta :=
          (Z.of_nat (String.length beforeNameText) - Str.lastIndexOf beforeNameText "{")%Z in
        offset ← number (prop "start" firstNameNode);
        let openBracePosition :=
          positionAt (text document) (Z.to_nat (offset - openBraceDelta)) 0 0 in
        mret (newRange openBracePosition (Editor.end_ duplicateRange))
      else mret duplicateRange);
    if isStr (prop "type" lastNameNode) "ImportSpecifier" then
      nodeEnd ← endOf node_;
      let afterNameText := getText (text document) (newRange b nodeEnd) in
      let closeBraceDelta := (Str.indexOf afterNameText "}" + 1)%Z in
      offset ← number (prop "end" lastNameNode);
      let closeBracePosition :=
        positionAt (text document) (Z.to_nat (offset + closeBraceDelta)) 0 0 in
      mret (newRange (Editor.start duplicateRange) closeBracePosition)
    else mret duplicateRange);
  _ ← edit (Replace range name);
  fixESLint.

(** The test of the loop that looks for the binding among the
    specifiers of the existing import. *)
Definition isSameBinding (b : Binding.t) (node_ : Value) : Completion bool :=
  type ← get "type" node_;
  if isStr type "ImportDefaultSpecifier" && negb (Str.startsWith (Binding.name b) "{")
  then mret true
  else if isStr type "ImportSpecifier" then
    imported ← get "imported" node_;
    imported_name ← get "name" imported;
    mret (isStr imported_name (Binding.iden b))
  else mret false.

(** Try merging named imports together. *)
Definition mergeInto (document : TextDocument) (duplicateImport : ImportStatementForReadOnly)
    (b : Binding.t) : M unit :=
  let node_ := node duplicateImport in
  let importedVariables := prop "specifiers" node_ in
  duplicateEverythingImport ←
    lift (arrayFind (hasType "ImportNamespaceSpecifier") importedVariables);
  match duplicateEverythingImport with
  | Some everything =>
      if Str.startsWith (Binding.name b) "{" || Str.startsWith (Binding.name b) "*" then
        (* Stop processing if there is `import * as name from "path"` *)
        local ← lift (local ← get "local" everything; get "name" local);
        _ ← notify (InformationMessage
               ("The module " +:+ quoted (Binding.path b) +:+ " has been already imported as "
                +:+ quoted (baseToString local) +:+ "."));
        loc ← lift (get "loc" (first importedVariables));
        _ ← focusAtLoc loc;
        mret (Some tt)
      else mret None
  | None => mret None
  end ≫= fun stopped =>
  match stopped with
  | Some _ => mret tt
  | None =>
      if Str.startsWith (Binding.name b) "*"
      then replaceWithNamespace document node_ (Binding.name b)
      else
        duplicateNamedImport ← lift (arrayFind (isSameBinding b) importedVariables);
        match duplicateNamedImport with
        | Some duplicate =>
            _ ← notify (InformationMessage
                   ("The module " +:+ quoted (Binding.iden b) +:+ " has been already imported."));
            loc ← lift (get "loc" duplicate);
            focusAtLoc loc
        | None =>
            if Str.startsWith (Binding.name b) "{" then
              (* In case of `import { name } from "path"` *)
              lastNamedImport ← lift (findLast (hasType "ImportSpecifier") importedVariables);
              match lastNamedImport with
              | Some lastNamed =>
                  afterLastName ← lift (endOf lastNamed);
                  _ ← edit (Insert afterLastName (", " +:+ Binding.iden b));
                  fixESLint
              | None =>
                  afterLastName ← lift (endOf (lastOf importedVariables));
                  _ ← edit (Insert afterLastName (", " +:+ Binding.name b));
                  fixESLint
              end
            else
              (* In case of `import name from "path"` *)
              beforeFirstName ← lift (
                loc ← get "loc" node_;
                s ← get "start" loc;
                l ← get "line" s;
                c ← get "column" s;
                l ← number l;
                c ← number c;
                newPosition (l - 1) (c + Z.of_nat (String.length "import ")));
              _ ← edit (Insert beforeFirstName (Binding.name b +:+ ", "));
              fixESLint
        end
  end.

(** The pairs that [existingVariableHash] is made from: the local name
    of every specifier of an import declaration, with the statement. *)
Definition localNames (item : ImportStatementForReadOnly)
  : Completion (list (Value * ImportStatementForReadOnly)) :=
  match prop "specifiers" (node item) with
  | Arr specifiers =>
      Normal (map (fun spec =>
                     (match prop "name" (prop "local" spec) with
                      | Undefined => Str EmptyString
                      | v => v
                      end, item)) specifiers)
  | _ => Throw TypeError
  end.

(** What [existingVariableHash[iden]] evaluates to when it is not
    [undefined]. The table is the plain object that [_.fromPairs] fills
    by assignment: it has its entries, and as every plain object the
    members of [Object.prototype]; the assignment of a statement to the
    key [__proto__] makes no entry but makes the statement the prototype
    of the table, which then has the properties of that statement as
    well. *)
Inductive Found :=
| Statement (item : ImportStatementForReadOnly)
| Property (v : Value)
| Builtin.

Definition fromPairs_get (pairs : list (string * ImportStatementForReadOnly))
    (key : string) : option Found :=
  let entry k := snd <$> List.find (fun pair => String.eqb (fst pair) k) (rev pairs) in
  if String.eqb key "__proto__" then
    Some (match entry "__proto__" with
          | Some item => Statement item
          | None => Builtin
          end)
  else
    match entry key with
    | Some item => Some (Statement item)
    | None =>
        match entry "__proto__" ≫= (fun item => member item key) with
        | Some v => Some (Property v)
        | None => if inherited key then Some Builtin else None
        end
    end.

(** [if (duplicateVariable)] *)
Definition truthyFound (d : Found) : bool :=
  match d with
  | Property v => truthy v
  | Statement _ | Builtin => true
  end.

(** [duplicateVariable.start] and [duplicateVariable.end]: a function of
    [Object.prototype] has neither. *)
Definition startOfFound (d : Found) : Value :=
  match d with
  | Statement item => JavaScript.start item
  | Property v => prop "start" v
  | Builtin => Undefined
  end.

Definition endOfFound (d : Found) : Value :=
  match d with
  | Statement item => JavaScript.end_ item
  | Property v => prop "end" v
  | Builtin => Undefined
  end.

(** [existingVariableHash[iden]], [None] when it is falsy. *)
Definition findDuplicateVariable (existingImports : list ImportStatementForReadOnly)
    (iden : string) : Completion (option Found) :=
  declarations ← mapM (fun item => type ← get "type" (node item);
                                   mret (isStr type "ImportDeclaration", item))
                      existingImports;
  let declarations := map snd (List.filter fst declarations) in
  pairs ← mapM localNames declarations;
  let pairs := List.filter (fun pair => negb (isStr (fst pair) EmptyString)) (concat pairs) in
  let pairs := map (fun pair => (baseToString (fst pair), snd pair)) pairs in
  mret (match fromPairs_get pairs iden with
        | Some d => if truthyFound d then Some d else None
        | None => None
        end).

(** Specification vocabulary: the names under which the table of
    [findDuplicateVariable] holds a statement, and a statement that the
    function can read: an import declaration has its specifiers in an
    array. *)
Definition importedNames (item : ImportStatementForReadOnly) : list string :=
  if isStr (prop "type" (node item)) "ImportDeclaration" then
    match prop "specifiers" (node item) with
    | Arr specifiers =>
        map (fun spec => baseToString (match prop "name" (prop "local" spec) with
                                       | Undefined => Str EmptyString
                                       | v => v
                                       end))
            specifiers
    | _ => []
    end
  else [].

Definition readable (item : ImportStatementForReadOnly) : Prop :=
  defined (node item) /\
  (isStr (prop "type" (node item)) "ImportDeclaration" = true ->
   exists specifiers, prop "specifiers" (node item) = Arr specifiers).

(** No import declaration binds [iden], and none binds [__proto__]. *)
Definition unbound (iden : string) (existingImports : list ImportStatementForReadOnly)
  : Prop :=
  Forall (fun item => readable item /\
                      ~ In iden (importedNames item) /\
                      ~ In "__proto__" (importedNames item))
         existingImports.

Definition REPLACE_IT : string := "Replace It".
Definition KEEP_BOTH : string := "Keep Both".

(** The naming conflict, then the new statement. *)
Definition insertStatement (self : FileItem) (document : TextDocument)
    (existingImports : list ImportStatementForReadOnly) (beforeFirstImport : Position)
    (b : Binding.t) : M unit :=
  duplicateVariable ← lift (findDuplicateVariable existingImports (Binding.iden b));
  _ ← match duplicateVariable with
      | Some duplicate =>
          selectedOption ← showWarningModal
            ("Do you want to replace the existing " +:+ quoted (Binding.iden b) +:+ "?")
            [REPLACE_IT; KEEP_BOTH];
          match selectedOption with
          | Some 0 =>
              range ← lift (rangeOf (startOfFound duplicate) (endOfFound duplicate));
              edit (Delete range)
          | _ => mret tt
          end
      | None => mret tt
      end;
  let snippet := getImportSnippet (nonEmpty (Binding.name b)) (Binding.path b)
                   (match syntax (options self) with SyntaxImport => true | _ => false end)
                   (options self) document in
  _ ← edit (Insert beforeFirstImport snippet);
  fixESLint.

(** Once the binding is settled: merge with the import of the same
    path, or report it, or insert the new statement. *)
Definition complete (self : FileItem) (document : TextDocument)
    (existingImports : list ImportStatementForReadOnly) (beforeFirstImport : Position)
    (b : Binding.t) : M unit :=
  match getDuplicateImport existingImports (Binding.path b) with
  | Some duplicateImport =>
      mergeable ← lift (if grouping (options self)
                        then hasType "ImportDeclaration" (node duplicateImport)
                        else mret false);
      if mergeable : bool then mergeInto document duplicateImport b
      else
        _ ← notify (InformationMessage
               ("The module " +:+ quoted (Binding.name b)
                +:+ " has been already imported."));
        focusAtImport duplicateImport
  | None => insertStatement self document existingImports beforeFirstImport b
  end.

(** The binding of a file of the working language: its default name
    and path, then what the index file or the file itself exports.
    [None]: the operation has returned. *)
Definition settleBinding (depth : nat) (self : FileItem)
    (existingImports : list ImportStatementForReadOnly)
    (directoryPathOfWorkingDocument : string) : M (option Binding.t) :=
  (* Set default imported variable name and its path *)
  '(name, path) ← lift (getNameAndRelativePath self directoryPathOfWorkingDocument);
  let b := {| Binding.name := name; Binding.iden := name; Binding.path := path |} in
  match syntax (options self) with
  | SyntaxImport =>
      indexed ← viaIndexFile depth self existingImports directoryPathOfWorkingDocument b;
      match indexed with
      | None => mret None
      | Some (b, true) => mret (Some b)
      | Some (b, false) => viaForeignFile depth self b
      end
  | SyntaxRequire => mret (Some b)
  end.

Definition useImport (self : FileItem) : bool :=
  match syntax (options self) with SyntaxImport => true | SyntaxRequire => false end.

Definition addImport (depth : nat) (self : FileItem) : M unit :=
  document ← readDocument;
  let codeTree := parse (text document) in
  existingImports ← lift (getExistingImports codeTree);
  let directoryPathOfWorkingDocument := directoryPath (newFileInfo (fileName document)) in
  beforeFirstImport ← lift (firstImportPosition existingImports);
  (* For JS/TS, insert `import ... from "file.js"` with rich features.
     For CSS/LESS/SASS/SCSS/Styl, insert `import "file.css"`.
     Otherwise, insert `require("...")`. *)
  if extension self (fileExtensionWithoutLeadingDot (fileInfo self)) then
    chosen ← settleBinding depth self existingImports directoryPathOfWorkingDocument;
    match chosen with
    | None => mret tt
    | Some b => complete self document existingImports beforeFirstImport b
    end
  else if STYLE_EXTENSION (fileExtensionWithoutLeadingDot (fileInfo self)) then
    '(_, path) ← lift (getNameAndRelativePath self directoryPathOfWorkingDocument);
    match getDuplicateImport existingImports path with
    | Some duplicateImport =>
        _ ← notify (InformationMessage
               ("The module " +:+ quoted (label self) +:+ " has been already imported."));
        focusAtImport duplicateImport
    | None =>
        let snippet := getImportSnippet None path (useImport self) (options self) document in
        _ ← edit (Insert beforeFirstImport snippet);
        fixESLint
    end
  else
    '(_, path) ← lift (getNameAndRelativePath self directoryPathOfWorkingDocument);
    let snippet := getImportSnippet None path false (options self) document in
    active ← readSelection;
    _ ← edit (Insert active snippet);
    fixESLint.

(** The edits of a run of [addImport]: none, one insertion, one
    replacement, or the deletion of the statement in conflict, which the
    user asked for, followed by the insertion. *)
Definition editShape (es : list Event) : Prop :=
  edits es = []
  \/ (exists position snippet, edits es = [Insert position snippet])
  \/ (exists range name, edits es = [Replace range name])
  \/ (exists range position snippet message options,
        edits es = [Delete range; Insert position snippet] /\
        In (WarningModalShown message options (Some 0)) es).

(** A run of [addImport] that raises has changed nothing. *)
Definition addImportEdits (r : Completion unit) (es : list Event) : Prop :=
  editShape es /\ (forall e, r = Throw e -> changes es = []).

(** What a run of [addImport] guarantees. *)
Definition addImportPost (r : Completion unit) (es : list Event) : Prop :=
  (someDismissedPick es -> r = Normal tt /\ changes es = []) /\
  (forall message options answer,
     In (WarningModalShown message options answer) es -> answer <> Some 0 ->
     r = Normal tt /\ exists position snippet, edits es = [Insert position snippet]).

End WithPlatform.
End FileItem.

(** ** NodeItem *)

Module NodeItem.
Import Js Value Platform JavaScript.

Record NodeItem := {
  options : LanguageOptions;
  id : string;
  label : string;
  description : string;
  name : string;
  path : string;
}.

Section WithPlatform.
Context `{Platform}.

(** The constructor. *)
Definition new (name_ rootPath : string) (options : LanguageOptions)
  : Completion NodeItem :=
  variable ← getVariableName name_ options;
  (* Set version of the module as the description *)
  let description :=
    try_catch
      (packageJson ← requireJson (join [rootPath; "node_modules"; name_; "package.json"]);
       version ← get "version" packageJson;
       mret (if truthy version then "v" +:+ baseToString version else EmptyString))
      EmptyString in
  mret {| options := options;
          id := "node://" +:+ name_;
          label := name_;
          description := description;
          name := variable;
          path := name_ |}.

(** [addImport(editor)] of a module of [node_modules]. *)
Definition addImport (self : NodeItem) : Editor.M unit :=
  document ← Editor.readDocument;
  let name :=
    (* /typescript(react)?/.test(document.languageId) *)
    if Str.contains (Editor.languageId document) "typescript"
    then "* as " +:+ name self
    else name self in
  let codeTree := parse (Editor.text document) in
  existingImports ← Editor.lift (getExistingImports codeTree);
  match List.find (fun item => isStr (JavaScript.path item) (path self)) existingImports with
  | Some duplicateImport =>
      _ ← Editor.notify (Editor.InformationMessage
             ("The module " +:+ FileItem.quoted (path self)
              +:+ " has been already imported."));
      FileItem.focusAtImport duplicateImport
  | None =>
      position ← Editor.lift (FileItem.firstImportPosition existingImports);
      let snippet :=
        FileItem.getImportSnippet (FileItem.nonEmpty name) (path self)
          (match syntax (options self) with SyntaxImport => true | SyntaxRequire => false end)
          (options self) document in
      _ ← Editor.edit (Editor.Insert position snippet);
      Editor.fixESLint
  end.

End WithPlatform.
End NodeItem.

(** ** The language: class JavaScript *)

Module Language.
Import Js Value Platform JavaScript TreeSearch Editor.

Inductive Item :=
| OfFile (item : FileItem.FileItem)
| OfNode (item : NodeItem.NodeItem).

Definition id (item : Item) : string :=
  match item with
  | OfFile f => FileItem.id f
  | OfNode n => NodeItem.id n
  end.

(** The instance of the class: its configuration and its two caches,
    [None] being the cache that is not built. *)
Record JavaScript := {
  baseConfig : LanguageOptions;
  allowTypeScriptFiles : bool;
  fileItemCache : option (list FileItem.FileItem);
  nodeItemCache : option (list NodeItem.NodeItem);
}.

(** [/^javascript(react)?/i.test(languageId)] *)
Definition WORKING_LANGUAGE (languageId : string) : bool :=
  Str.startsWith (Str.lower languageId) "javascript".

Definition WORKING_EXTENSION (self : JavaScript) : string -> bool :=
  if allowTypeScriptFiles self then FileItem.WORKING_EXTENSION_WITH_TYPESCRIPT
  else FileItem.WORKING_EXTENSION.

Definition new (baseConfig : LanguageOptions) (allowTypeScriptFiles : bool) : JavaScript :=
  {| baseConfig := baseConfig; allowTypeScriptFiles := allowTypeScriptFiles;
     fileItemCache := None; nodeItemCache := None |}.

Definition getLanguageOptions (self : JavaScript) : LanguageOptions := baseConfig self.

Definition withFileItemCache (cache : option (list FileItem.FileItem)) (self : JavaScript)
  : JavaScript :=
  {| baseConfig := baseConfig self; allowTypeScriptFiles := allowTypeScriptFiles self;
     fileItemCache := cache; nodeItemCache := nodeItemCache self |}.

Definition withNodeItemCache (cache : option (list NodeItem.NodeItem)) (self : JavaScript)
  : JavaScript :=
  {| baseConfig := baseConfig self; allowTypeScriptFiles := allowTypeScriptFiles self;
     fileItemCache := fileItemCache self; nodeItemCache := cache |}.

Definition reset (self : JavaScript) : JavaScript :=
  {| baseConfig := baseConfig self; allowTypeScriptFiles := allowTypeScriptFiles self;
     fileItemCache := None; nodeItemCache := None |}.

Section WithPlatform.
Context `{Platform}.

Definition newFileItem (self : JavaScript) (filePath rootPath : string)
  : FileItem.FileItem :=
  FileItem.new filePath rootPath (getLanguageOptions self) (WORKING_EXTENSION self).

(** [addItem(filePath)], [rootPath] being the workspace folder of the
    file. *)
Definition addItem (self : JavaScript) (filePath rootPath : string) : JavaScript :=
  match fileItemCache self with
  | Some cache => withFileItemCache (Some (cache ++ [newFileItem self filePath rootPath])) self
  | None => self
  end.

(** [array.findIndex] followed by [array.splice(index, 1)] *)
Fixpoint removeFirst {X} (p : X -> bool) (l : list X) : list X :=
  match l with
  | [] => []
  | x :: rest => if p x then rest else x :: removeFirst p rest
  end.

Definition cutItem (self : JavaScript) (filePath : string) : JavaScript :=
  match fileItemCache self with
  | Some cache =>
      let fileInfo := newFileInfo filePath in
      withFileItemCache
        (Some (removeFirst (fun item => String.eqb (fullPath (FileItem.fileInfo item))
                                                   (fullPath fileInfo)) cache))
        self
  | None => self
  end.

Record FileFilterRule := { documentPathPattern : RegExp; filePathPattern : RegExp }.

Definition findFileFilterRule (options : LanguageOptions) (documentFileInfo : FileInfo)
  : Completion (option FileFilterRule) :=
  rules ← mapM (fun pair : string * string =>
                  d ← newRegExp (fst pair);
                  f ← newRegExp (snd pair);
                  mret {| documentPathPattern := d; filePathPattern := f |})
               (filteredFileList options);
  mret (List.find (fun rule => test (documentPathPattern rule)
                                    (fullPathForPOSIX documentFileInfo)) rules).

(** The three filters of [getItems] on a cached file. *)
Definition offered (self : JavaScript) (documentFileInfo : FileInfo)
    (fileFilterRule : option FileFilterRule) (item : FileItem.FileItem) : bool :=
  (* Remove the current file *)
  negb (String.eqb (fullPath (FileItem.fileInfo item)) (fullPath documentFileInfo))
  && (allowTypeScriptFiles self
      || negb (FileItem.TYPESCRIPT_EXTENSION
                 (fileExtensionWithoutLeadingDot (FileItem.fileInfo item))))
  && match fileFilterRule with
     | Some rule => test (filePathPattern rule) (fullPathForPOSIX (FileItem.fileInfo item))
     | None => true
     end.

Definition setSortablePath (documentFileInfo : FileInfo) (item : FileItem.FileItem)
  : FileItem.FileItem :=
  {| FileItem.options := FileItem.options item;
     FileItem.extension := FileItem.extension item;
     FileItem.id := FileItem.id item;
     FileItem.label := FileItem.label item;
     FileItem.description := FileItem.description item;
     FileItem.fileInfo := FileItem.fileInfo item;
     FileItem.sortablePath := Some (getSortablePath (FileItem.fileInfo item) documentFileInfo);
     FileItem.sortableName := FileItem.sortableName item |}.

(** The order of [_.sortBy(items, [sortablePath, sortableName])]. *)
Definition sortKey (item : FileItem.FileItem) : string * string :=
  (default EmptyString (FileItem.sortablePath item), FileItem.sortableName item).

Definition sortKey_leb (a b : string * string) : bool :=
  if String.eqb (fst a) (fst b) then String.leb (snd a) (snd b)
  else String.leb (fst a) (fst b).

(** The loop that climbs from the directory of the document to the
    directory that holds [package.json], or to [rootPath]. The segments
    are in reverse order. On the empty path the loop does not progress:
    [None] is the loop that does not end. *)
Fixpoint climb (rootPath : string) (segments : list string) : option string :=
  let packageJsonPath := String.concat (String sep EmptyString) (rev segments) in
  if negb (String.eqb packageJsonPath rootPath)
     && negb (existsSync (join [packageJsonPath; "package.json"]))
  then match segments with
       | [] => None
       | _ :: rest => climb rootPath rest
       end
  else Some packageJsonPath.

(** [_.keys(object)] *)
Definition keys (v : Value) : list string :=
  match v with
  | Obj properties => map fst properties
  | Arr l => map pretty (seq 0 (length l))
  | Str s => map pretty (seq 0 (String.length s))
  | _ => []
  end.

Definition buildNodeItemCache (self : JavaScript) (rootPath packageJsonPath : string)
  : Completion (list NodeItem.NodeItem) :=
  packageJson ← requireJson packageJsonPath;
  devDependencies ← get "devDependencies" packageJson;
  dependencies ← get "dependencies" packageJson;
  items ← mapM (fun name => NodeItem.new name rootPath (getLanguageOptions self))
               (keys devDependencies ++ keys dependencies);
  mret (sortBy String.leb NodeItem.name items).

(** [getItems(document)], [fileLinks] being what the workspace holds
    when the cache is built. The result is [None] when the call does
    not return; otherwise the completion and the instance afterwards. *)
Definition getItems (self : JavaScript) (document : TextDocument) (fileLinks : list string)
  : option (Completion (option (list Item)) * JavaScript) :=
  if negb (WORKING_LANGUAGE (languageId document)) then Some (Normal None, self)
  else
    let documentFileInfo := newFileInfo (fileName document) in
    let rootPath := workspaceFolder document in
    let self :=
      match fileItemCache self with
      | Some _ => self
      | None =>
          withFileItemCache
            (Some (map (fun fileLink => newFileItem self fileLink rootPath) fileLinks)) self
      end in
    let cache := default [] (fileItemCache self) in
    match findFileFilterRule (getLanguageOptions self) documentFileInfo with
    | Throw e => Some (Throw e, self)
    | Normal fileFilterRule =>
        let keep := offered self documentFileInfo fileFilterRule in
        let self :=
          withFileItemCache
            (Some (map (fun item => if keep item then setSortablePath documentFileInfo item
                                    else item) cache)) self in
        let items := map (setSortablePath documentFileInfo) (List.filter keep cache) in
        (* Sort files by their path and name *)
        let items := sortBy sortKey_leb sortKey items in
        match climb rootPath
                (rev (Str.split sep (Str.trimEnd (dirname (fileName document)) sep))) with
        | None => None
        | Some packageJsonPath =>
            let packageJsonPath := join [packageJsonPath; "package.json"] in
            let built :=
              match nodeItemCache self with
              | None =>
                  if existsSync packageJsonPath
                  then Some <$> buildNodeItemCache self rootPath packageJsonPath
                  else Normal None
              | Some nodes => Normal (Some nodes)
              end in
            match built with
            | Throw e => Some (Throw e, self)
            | Normal nodes =>
                let self := withNodeItemCache nodes self in
                Some (Normal (Some (map OfFile items ++ map OfNode (default [] nodes))),
                      self)
            end
        end
    end.

(** Specification vocabulary: every cached candidate is identified by
    the full path of its file. *)
Definition identified (item : FileItem.FileItem) : Prop :=
  FileItem.id item = fullPath (FileItem.fileInfo item).

Definition cacheIdentified (self : JavaScript) : Prop :=
  forall cache, fileItemCache self = Some cache -> Forall identified cache.

(** The instances that the extension can hold: a new one, and what
    the cache build of [getItems], [addItem], [cutItem] and [reset] make
    of one. *)
Inductive Reachable : JavaScript -> Prop :=
| reachable_new baseConfig allowTypeScriptFiles :
    Reachable (new baseConfig allowTypeScriptFiles)
| reachable_getItems self document fileLinks result self' :
    Reachable self ->
    getItems self document fileLinks = Some (result, self') ->
    Reachable self'
| reachable_addItem self filePath rootPath :
    Reachable self -> Reachable (addItem self filePath rootPath)
| reachable_cutItem self filePath :
    Reachable self -> Reachable (cutItem self filePath)
| reachable_reset self :
    Reachable self -> Reachable (reset self).

(** *** fixImport *)

Record ImportStatementForFixingImport := {
  originalRelativePath : string;
  editableRange : Range;
}.

(** The constructor: the range of the literal in the document. *)
Definition newImportStatement (path : string) (loc : Value)
  : Completion ImportStatementForFixingImport :=
  s ← get "start" loc;
  e ← get "end" loc;
  range ← rangeOf s e;
  mret {| originalRelativePath := path; editableRange := range |}.

(** The literal of a call or of a declaration, as a string. *)
Definition stringValue (literal : Value) : Completion string :=
  v ← get "value" literal;
  match v with
  | Str s => Normal s
  | _ => Throw TypeError
  end.

(** The test on the path of an import declaration. *)
Definition isFixablePath (v : string) : bool :=
  Str.startsWith v "."
  && negb (Str.includes v "?")
  && negb (Str.includes v "!")
  && negb (Str.includes v DQUOTE).

(** The filter on the statements of the document. *)
Definition isFixableImport (node : Value) : Completion bool :=
  type ← get "type" node;
  if isStr type "ImportDeclaration" then
    v ← stringValue (prop "source" node);
    mret (isFixablePath v)
  else mret false.

Definition importsToFix (body : Value) : Completion (list ImportStatementForFixingImport) :=
  nodes ← filterM isFixableImport (collection body);
  mapM (fun node => v ← stringValue (prop "source" node);
                    newImportStatement v (prop "loc" (prop "source" node)))
       nodes.

Definition isRelativeRequire (node : Value) : Completion bool :=
  v ← stringValue (first (prop "arguments" node));
  mret (Str.startsWith v ".").

Definition requiresToFix (body : Value) : Completion (list ImportStatementForFixingImport) :=
  calls ← findRequireRecursively body;
  calls ← filterM isRelativeRequire calls;
  mapM (fun node => v ← stringValue (first (prop "arguments" node));
                    newImportStatement v (prop "loc" (first (prop "arguments" node))))
       calls.

Definition getTotalImports (codeTree : Value)
  : Completion (list ImportStatementForFixingImport) :=
  program ← get "program" codeTree;
  body ← get "body" program;
  imports ← importsToFix body;
  requires ← requiresToFix body;
  mret (List.filter (fun item => negb (String.eqb (originalRelativePath item) EmptyString))
          (imports ++ requires)).

Definition isBroken (documentFileInfo : FileInfo) (item : ImportStatementForFixingImport)
  : bool :=
  negb (existsSync (join [directoryPath documentFileInfo; originalRelativePath item]))
  && negb (existsSync (join [directoryPath documentFileInfo;
                             originalRelativePath item +:+ "."
                             +:+ fileExtensionWithoutLeadingDot documentFileInfo])).

(** [item.quoteChar]: read from the document as it is now. *)
Definition quoteChar (item : ImportStatementForFixingImport) : M string :=
  document ← readDocument;
  let originalText := getText (text document) (editableRange item) in
  mret (if Str.startsWith originalText "'" then "'" else String DQUOTE EmptyString).

(** [item.search()] *)
Definition search (documentFileInfo : FileInfo) (item : ImportStatementForFixingImport)
  : list string :=
  findFilesRoughly (originalRelativePath item)
                   (fileExtensionWithoutLeadingDot documentFileInfo).

(** The edit that rewrites the literal of [item] to point at [fullPath]. *)
Definition rewrite (self : JavaScript) (documentFileInfo : FileInfo) (rootPath : string)
    (item : ImportStatementForFixingImport) (fullPath : string) : M unit :=
  '(_, path) ← lift (FileItem.getNameAndRelativePath
                       (newFileItem self fullPath rootPath)
                       (directoryPath documentFileInfo));
  quote ← quoteChar item;
  edit (Replace (editableRange item) (quote +:+ path +:+ quote)).

(** The first loop: the automatic fixes. [None]: cancelled. *)
Fixpoint fixAutomatically (self : JavaScript) (documentFileInfo : FileInfo)
    (rootPath : string) (brokenImports : list ImportStatementForFixingImport)
    (nonResolvableImports manualSolvableImports : list ImportStatementForFixingImport)
  : M (option (list ImportStatementForFixingImport
               * list ImportStatementForFixingImport)) :=
  match brokenImports with
  | [] => mret (Some (nonResolvableImports, manualSolvableImports))
  | item :: rest =>
      cancelled ← isCancellationRequested;
      if cancelled : bool then mret None
      else
        _ ← notify (Searched (originalRelativePath item));
        match search documentFileInfo item with
        | [] =>
            fixAutomatically self documentFileInfo rootPath rest
              (nonResolvableImports ++ [item]) manualSolvableImports
        | [only] =>
            _ ← rewrite self documentFileInfo rootPath item only;
            fixAutomatically self documentFileInfo rootPath rest
              nonResolvableImports manualSolvableImports
        | _ =>
            fixAutomatically self documentFileInfo rootPath rest
              nonResolvableImports (manualSolvableImports ++ [item])
        end
  end.

(** [new FileItemForFixingImport(fullPath).label] *)
Definition candidateLabel (rootPath fullPath : string) : string :=
  Str.replaceChar (Str.from (String.length rootPath) fullPath) "\" "/".

(** The second loop: the fixes that the user chooses. [false]: the
    operation has returned. *)
Fixpoint fixManually (self : JavaScript) (documentFileInfo : FileInfo)
    (rootPath : string) (manualSolvableImports : list ImportStatementForFixingImport)
  : M bool :=
  match manualSolvableImports with
  | [] => mret true
  | item :: rest =>
      let matchingFullPaths := search documentFileInfo item in
      answer ← showQuickPick (map (candidateLabel rootPath) matchingFullPaths)
                 (originalRelativePath item);
      match answer ≫= (fun i => matchingFullPaths !! i) with
      | None => mret false
      | Some selected =>
          cancelled ← isCancellationRequested;
          if cancelled : bool then mret false
          else
            _ ← rewrite self documentFileInfo rootPath item selected;
            fixManually self documentFileInfo rootPath rest
      end
  end.

(** [fixImport]: [Some false] is [false], [None] is [null], [Some true]
    is [true]. *)
Definition fixImport (self : JavaScript) : M (option bool) :=
  document ← readDocument;
  if negb (WORKING_LANGUAGE (languageId document)) then mret (Some false)
  else
    let documentFileInfo := newFileInfo (fileName document) in
    let rootPath := workspaceFolder document in
    let codeTree := parse (text document) in
    totalImports ← lift (getTotalImports codeTree);
    let brokenImports := List.filter (isBroken documentFileInfo) totalImports in
    match brokenImports with
    | [] =>
        _ ← notify (StatusBarMessage
               "Code Quicken: No broken import/require statements have been found.");
        mret None
    | _ =>
        sorted ← fixAutomatically self documentFileInfo rootPath brokenImports [] [];
        match sorted with
        | None => mret None
        | Some (nonResolvableImports, manualSolvableImports) =>
            finished ← fixManually self documentFileInfo rootPath manualSolvableImports;
            if finished : bool then
              _ ← fixESLint;
              _ ← match nonResolvableImports with
                  | [] =>
                      notify (StatusBarMessage
                        "Code Quicken: All broken import/require statements have been fixed.")
                  | _ =>
                      let n := length nonResolvableImports in
                      notify (WarningMessage
                        ("Code Quicken: There "
                         +:+ (if Nat.eqb n 1 then "was" else "were") +:+ " "
                         +:+ pretty n +:+ " broken import/require statement"
                         +:+ (if Nat.eqb n 1 then EmptyString else "s")
                         +:+ " that had not been fixed."))
                  end;
              mret (Some true)
            else mret None
        end
    end.



(** The messages of [fixImport]. *)
Definition noneBrokenMessage : string :=
  "Code Quicken: No broken import/require statements have been found.".

Definition allFixedMessage : string :=
  "Code Quicken: All broken import/require statements have been fixed.".

Definition notFixedMessage (n : nat) : string :=
  "Code Quicken: There "
  +:+ (if Nat.eqb n 1 then "was" else "were") +:+ " "
  +:+ pretty n +:+ " broken import/require statement"
  +:+ (if Nat.eqb n 1 then EmptyString else "s")
  +:+ " that had not been fixed.".

(** The message that ends a run of [fixImport] that went through. *)
Definition isSummary (e : Event) : Prop :=
  e = StatusBarMessage allFixedMessage
  \/ exists n, 0 < n /\ e = WarningMessage (notFixedMessage n).

(** What a run of [fixImport] guarantees about its result: [false]
    comes with no event at all; the linter runs only in a run that
    returns [true]; a run that returns [true] ends with its summary; a
    quick pick that the user dismisses makes the run return [null]. *)
Definition fixImportPost (r : Completion (option bool)) (es : list Event) : Prop :=
  (r = Normal (Some false) -> es = []) /\
  (In LinterRan es -> r = Normal (Some true)) /\
  (r = Normal (Some true) ->
   exists es' summary, es = es' ++ [summary] /\ isSummary summary) /\
  (forall items placeHolder,
     In (QuickPickShown items placeHolder None) es -> r = Normal None).

(** The event of the linter, when there is one. *)
Definition linterEvents (w : World) : list Event :=
  match linter w with
  | Some _ => [LinterRan]
  | None => []
  end.

(** No cancellation is requested at any poll to come. *)
Definition neverCancelled (w : World) : Prop :=
  Forall (fun c => c = false) (cancellations w).

(** Specification vocabulary for the loop of [getItems] that looks for
    [package.json]: the path that the loop holds once [k] segments are
    popped (the segments are in reverse order), and the test that ends
    the loop. *)
Definition ancestorPath (segments : list string) (k : nat) : string :=
  String.concat (String sep EmptyString) (rev (drop k segments)).

Definition endsClimb (rootPath packageJsonPath : string) : bool :=
  String.eqb packageJsonPath rootPath
  || existsSync (join [packageJsonPath; "package.json"]).

(** The segments that the loop starts from, for a document. *)
Definition segmentsOf (document : TextDocument) : list string :=
  rev (Str.split sep (Str.trimEnd (dirname (fileName document)) sep)).

(** The cache that [getItems] reads: the one that is there, or the one
    it builds from the files of the workspace. *)
Definition cacheFor (self : JavaScript) (document : TextDocument) (fileLinks : list string)
  : list FileItem.FileItem :=
  match fileItemCache self with
  | Some cache => cache
  | None => map (fun fileLink => newFileItem self fileLink (workspaceFolder document)) fileLinks
  end.

(** The modules of the cache are in the order of their names. *)
Definition modulesSorted (self : JavaScript) : Prop :=
  forall nodes, nodeItemCache self = Some nodes ->
    Sorted (key_le String.leb NodeItem.name) nodes.

End WithPlatform.
End Language.

(** ** The shapes of babylon

    The nodes that the parser builds for the statements the engine
    reads. A span is a range of the source: lines count from 0 here and
    from 1 in the [loc] of a node. *)

Module Babylon.
Import Value.

Record Span := {
  startLine : nat; startColumn : nat;
  endLine : nat; endColumn : nat;
  startOffset : nat; endOffset : nat;
}.

Definition position (line column : nat) : Value :=
  Obj [("line", Num (Z.of_nat line)); ("column", Num (Z.of_nat column))].

Definition loc (s : Span) : Value :=
  Obj [("start", position (S (startLine s)) (startColumn s));
       ("end", position (S (endLine s)) (endColumn s))].

Definition node (type : string) (s : Span) (properties : list (string * Value)) : Value :=
  Obj (("type", Str type) :: ("start", Num (Z.of_nat (startOffset s)))
       :: ("end", Num (Z.of_nat (endOffset s))) :: ("loc", loc s) :: properties).

(** A span on the first line of a document. *)
Definition onFirstLine (from to : nat) : Span :=
  {| startLine := 0; startColumn := from; endLine := 0; endColumn := to;
     startOffset := from; endOffset := to |}.

Definition identifier (s : Span) (name : string) : Value :=
  node "Identifier" s [("name", Str name)].

Definition stringLiteral (s : Span) (value : string) : Value :=
  node "StringLiteral" s [("value", Str value)].

(** The specifiers of an import declaration. *)
Inductive Specifier :=
| Default (s : Span) (local : string)
| Named (s : Span) (imported local : string)
| Namespace (s : Span) (local : string).

Definition specifier (x : Specifier) : Value :=
  match x with
  | Default s local =>
      node "ImportDefaultSpecifier" s [("local", identifier s local)]
  | Named s imported local =>
      node "ImportSpecifier" s
        [("imported", identifier s imported); ("local", identifier s local)]
  | Namespace s local =>
      node "ImportNamespaceSpecifier" s [("local", identifier s local)]
  end.

(** The span of the last named specifier, and of the first one that
    imports [name]. *)
Fixpoint lastNamed (specifiers : list Specifier) : option Span :=
  match specifiers with
  | [] => None
  | x :: rest =>
      match lastNamed rest with
      | Some s => Some s
      | None => match x with Named s _ _ => Some s | _ => None end
      end
  end.

Fixpoint firstNamed (name : string) (specifiers : list Specifier) : option Span :=
  match specifiers with
  | [] => None
  | Named s imported _ :: rest =>
      if String.eqb imported name then Some s else firstNamed name rest
  | _ :: rest => firstNamed name rest
  end.

Definition isNamespace (x : Specifier) : bool :=
  match x with Namespace _ _ => true | _ => false end.


(** The value at the end of a path of properties of a tree. *)
Definition reads (x : Value) (path : list string) : Value :=
  fold_left (fun v key => prop key v) path x.

Definition specifierType (x : Specifier) : string :=
  match x with
  | Default _ _ => "ImportDefaultSpecifier"
  | Named _ _ _ => "ImportSpecifier"
  | Namespace _ _ => "ImportNamespaceSpecifier"
  end.

Definition specifierSpan (x : Specifier) : Span :=
  match x with
  | Default s _ | Named s _ _ | Namespace s _ => s
  end.

(** A tree [v] that the parser may give for the specifier [x]: it has
    the type of [x], the imported name when [x] is a named specifier,
    and the lines and columns of [x]; what else the tree holds is left
    open. *)
Definition isSpecifier (x : Specifier) (v : Value) : Prop :=
  reads v ["type"] = Str (specifierType x) /\
  match x with
  | Named _ imported _ => reads v ["imported"; "name"] = Str imported
  | _ => True
  end /\
  reads v ["loc"; "start"; "line"] = Num (Z.of_nat (S (startLine (specifierSpan x)))) /\
  reads v ["loc"; "start"; "column"] = Num (Z.of_nat (startColumn (specifierSpan x))) /\
  reads v ["loc"; "end"; "line"] = Num (Z.of_nat (S (endLine (specifierSpan x)))) /\
  reads v ["loc"; "end"; "column"] = Num (Z.of_nat (endColumn (specifierSpan x))).

Definition importDeclaration (s : Span) (specifiers : list Specifier) (source : Value)
  : Value :=
  node "ImportDeclaration" s
    [("specifiers", Arr (map specifier specifiers)); ("source", source)].

Definition exportDefaultDeclaration (s : Span) (declaration : Value) : Value :=
  node "ExportDefaultDeclaration" s [("declaration", declaration)].

Definition numericLiteral (s : Span) (n : Z) : Value :=
  node "NumericLiteral" s [("value", Num n)].

Definition file (body : list Value) : Value :=
  Obj [("type", Str "File");
       ("program", Obj [("type", Str "Program"); ("sourceType", Str "module");
                        ("body", Arr body)])].

(** The statements of a module that export something, and the trees
    that the parser gives them. Of a declaration only the fields that
    name it are kept. *)
Inductive Export :=
| ExportFunction (s : Span) (name : string)
  (* export function name() {} *)
| ExportClass (s : Span) (name : string)
  (* export class name {} *)
| ExportVariables (s : Span) (names : list string)
  (* export const a = ..., b = ... *)
| ExportList (s : Span) (specifiers : list (string * string)) (source : option string)
  (* export { local as exported, ... } from 'source' *)
| ExportAll (s : Span) (source : string)
  (* export * from 'source' *)
| ExportDefault (s : Span) (declaration : Value)
  (* export default declaration *)
| ModuleExports (s : Span) (keys : list string).
  (* module.exports = { key: ..., ... } *)

Definition optionalLiteral (s : Span) (source : option string) : Value :=
  match source with
  | Some value => stringLiteral s value
  | None => Null
  end.

Definition exportNamedDeclaration (s : Span) (declaration : Value)
    (specifiers : list Value) (source : Value) : Value :=
  node "ExportNamedDeclaration" s
    [("specifiers", Arr specifiers); ("source", source); ("declaration", declaration)].

Definition exportStatement (x : Export) : Value :=
  match x with
  | ExportFunction s name =>
      exportNamedDeclaration s
        (node "FunctionDeclaration" s [("id", identifier s name)]) [] Null
  | ExportClass s name =>
      exportNamedDeclaration s
        (node "ClassDeclaration" s [("id", identifier s name)]) [] Null
  | ExportVariables s names =>
      exportNamedDeclaration s
        (node "VariableDeclaration" s
           [("declarations",
             Arr (map (fun name => node "VariableDeclarator" s [("id", identifier s name)])
                      names))])
        [] Null
  | ExportList s specifiers source =>
      exportNamedDeclaration s Null
        (map (fun pair : string * string =>
                node "ExportSpecifier" s
                  [("local", identifier s (fst pair));
                   ("exported", identifier s (snd pair))])
             specifiers)
        (optionalLiteral s source)
  | ExportAll s source =>
      node "ExportAllDeclaration" s [("source", stringLiteral s source)]
  | ExportDefault s declaration => exportDefaultDeclaration s declaration
  | ModuleExports s keys =>
      node "ExpressionStatement" s
        [("expression",
          node "AssignmentExpression" s
            [("operator", Str "=");
             ("left", node "MemberExpression" s
                        [("object", identifier s "module");
                         ("property", identifier s "exports");
                         ("computed", Boolean false)]);
             ("right", node "ObjectExpression" s
                         [("properties",
                           Arr (map (fun key => node "ObjectProperty" s
                                                  [("key", identifier s key)])
                                    keys))])])]
  end.



End Babylon.

(** ** A platform for the examples

    A file system given by a table, a parser given by the trees of the
    texts in use, a search given by its results, and paths in the POSIX
    style. *)

Module Sample.
Import Js Value Platform.

Fixpoint assoc {X} (key : string) (table : list (string * X)) : option X :=
  match table with
  | [] => None
  | (k, x) :: rest => if String.eqb k key then Some x else assoc key rest
  end.

Definition basename (p : string) : string := List.last (Str.split "/" p) EmptyString.

Definition dirname (p : string) : string :=
  match rev (Str.split "/" p) with
  | _ :: (_ :: _) as rest =>
      match String.concat "/" (rev rest) with
      | EmptyString => "/"
      | d => d
      end
  | _ => "."
  end.

Definition extension (p : string) : string :=
  match rev (Str.split "." (basename p)) with
  | e :: _ :: _ => e
  | _ => EmptyString
  end.

Definition stem (p : string) : string :=
  match extension p with
  | EmptyString => basename p
  | e => Str.dropSuffix (basename p) ("." +:+ e)
  end.

Definition fileInfo (p : string) : FileInfo :=
  {| fullPath := p;
     fullPathForPOSIX := p;
     fileNameWithExtension := basename p;
     fileNameWithoutExtension := stem p;
     fileExtensionWithoutLeadingDot := extension p;
     directoryName := basename (dirname p);
     directoryPath := dirname p |}.

Definition relativePath (f : FileInfo) (directory : string) : string :=
  if Str.startsWith (fullPath f) (directory +:+ "/")
  then "./" +:+ Str.from (S (String.length directory)) (fullPath f)
  else fullPath f.

Definition platform (files : list (string * string)) (trees : list (string * Value))
    (searches : list (string * list string)) : Platform :=
  {| existsSync := fun p => match assoc p files with Some _ => true | None => false end;
     readFileSync := fun p => match assoc p files with
                              | Some code => Normal code
                              | None => Throw "ENOENT"
                              end;
     requireJson := fun _ => Throw "MODULE_NOT_FOUND";
     sep := "/";
     join := String.concat "/";
     resolve := String.concat "/";
     Platform.dirname := dirname;
     extname := fun p => match extension p with
                         | EmptyString => EmptyString
                         | e => "." +:+ e
                         end;
     babylon_parse := fun code => match assoc code trees with
                                  | Some tree => Normal tree
                                  | None => Throw "SyntaxError"
                                  end;
     newRegExp := fun source =>
       Normal {| test := String.eqb source; replaceIn := fun _ output => output |};
     camelCase := fun s => s;
     snakeCase := fun s => s;
     words := fun s => [s];
     upperFirst := fun s => s;
     toLowerCase := Str.lower;
     newFileInfo := fileInfo;
     getRelativePath := relativePath;
     getSortablePath := fun f _ => directoryPath f;
     findFilesRoughly := fun p _ => default [] (assoc p searches) |}.

Definition options : JavaScript.LanguageOptions :=
  {| JavaScript.syntax := JavaScript.SyntaxImport;
     JavaScript.grouping := true;
     JavaScript.fileExtension := false;
     JavaScript.indexFile := true;
     JavaScript.quoteCharacter := JavaScript.single;
     JavaScript.semiColons := false;
     JavaScript.predefinedVariableNames := [];
     JavaScript.variableNamingConvention := JavaScript.none;
     JavaScript.filteredFileList := [] |}.

Definition world (text fileName : string) (quickPicks dialogs : list (option nat))
  : Editor.World :=
  {| Editor.document :=
       {| Editor.text := text; Editor.eol := Editor.EOL_LF;
          Editor.languageId := "javascript"; Editor.fileName := fileName;
          Editor.workspaceFolder := "/w" |};
     Editor.selection := {| Editor.line := 0; Editor.character := 0 |};
     Editor.quickPicks := quickPicks;
     Editor.dialogs := dialogs;
     Editor.cancellations := [];
     Editor.linter := None;
     Editor.log := [] |}.

(** *** Two broken imports on one line *)

Definition newline : string := String Editor.LF EmptyString.

Definition twoImportsText : string :=
  "import a from './a'; import b from './b'" +:+ newline.

Definition twoImportsTree : Value :=
  Babylon.file
    [Babylon.importDeclaration (Babylon.onFirstLine 0 20)
       [Babylon.Default (Babylon.onFirstLine 7 8) "a"]
       (Babylon.stringLiteral (Babylon.onFirstLine 14 19) "./a");
     Babylon.importDeclaration (Babylon.onFirstLine 21 40)
       [Babylon.Default (Babylon.onFirstLine 28 29) "b"]
       (Babylon.stringLiteral (Babylon.onFirstLine 35 40) "./b")].

Definition twoImportsPlatform : Platform :=
  platform [("/w/src/lib/a.js", "export default 1"); ("/w/src/lib/b.js", "export default 2")]
           [(twoImportsText, twoImportsTree)]
           [("./a", ["/w/src/lib/a.js"]); ("./b", ["/w/src/lib/b.js"])].

Definition twoImportsWorld : Editor.World :=
  world twoImportsText "/w/src/main.js" [] [].

(** The text in which both literals are rewritten in place. *)
Definition twoImportsFixed : string :=
  "import a from './lib/a'; import b from './lib/b'" +:+ newline.

(** The text that the run leaves. *)
Definition twoImportsLeft : string :=
  "import a from './lib/a'; import b f"
  +:+ String Editor.DQUOTE ("./lib/b" +:+ String Editor.DQUOTE ("./b'" +:+ newline)).

(** The same document where no search finds a file, and where the
    second import resolves and the first one has one match. *)
Definition lostPlatform : Platform :=
  platform [] [(twoImportsText, twoImportsTree)] [].

Definition oneBrokenPlatform : Platform :=
  platform [("/w/src/lib/a.js", "export default 1"); ("/w/src/./b.js", "export default 2")]
           [(twoImportsText, twoImportsTree)]
           [("./a", ["/w/src/lib/a.js"])].

Definition oneBrokenFixed : string :=
  "import a from './lib/a'; import b from './b'" +:+ newline.

(** *** A naming conflict *)

Definition conflictText : string := "import foo from './bar'" +:+ newline.

Definition conflictTree : Value :=
  Babylon.file
    [Babylon.importDeclaration (Babylon.onFirstLine 0 23)
       [Babylon.Default (Babylon.onFirstLine 7 10) "foo"]
       (Babylon.stringLiteral (Babylon.onFirstLine 16 23) "./bar")].

Definition fooText : string := "export default 1".

Definition fooTree : Value :=
  Babylon.file
    [Babylon.exportDefaultDeclaration (Babylon.onFirstLine 0 16)
       (Babylon.numericLiteral (Babylon.onFirstLine 15 16) 1)].

Definition conflictPlatform : Platform :=
  platform [("/w/src/foo.js", fooText)]
           [(conflictText, conflictTree); (fooText, fooTree)]
           [].

(** The conflict dialog is dismissed. *)
Definition conflictWorld : Editor.World :=
  world conflictText "/w/src/main.js" [] [None].

(** *** A path with two trailing slashes *)

Definition slashTree : Value :=
  Babylon.file
    [Babylon.importDeclaration (Babylon.onFirstLine 0 24)
       [Babylon.Default (Babylon.onFirstLine 7 8) "x"]
       (Babylon.stringLiteral (Babylon.onFirstLine 14 24) "./lib//")].

Definition slashImport : JavaScript.ImportStatementForReadOnly :=
  JavaScript.importOfDeclaration
    (Babylon.importDeclaration (Babylon.onFirstLine 0 24)
       [Babylon.Default (Babylon.onFirstLine 7 8) "x"]
       (Babylon.stringLiteral (Babylon.onFirstLine 14 24) "./lib//")).

(** *** An import to merge into *)


Definition mergeTree : Value :=
  Babylon.file
    [Babylon.importDeclaration (Babylon.onFirstLine 0 23)
       [Babylon.Named (Babylon.onFirstLine 9 10) "a" "a"]
       (Babylon.stringLiteral (Babylon.onFirstLine 18 23) "./m")].

Definition mergedText : string := "import { a, b } from './m'" +:+ newline.



(** *** Two imports, and a file with two exports to merge into the
    second. The trees hold what babylon records besides: the kind of
    the import and the raw text of the literal. *)

Definition groupText : string :=
  "import { x } from './n'" +:+ newline +:+ "import { a } from './m'" +:+ newline.

Definition groupedText : string :=
  "import { x } from './n'" +:+ newline +:+ "import { a, b } from './m'" +:+ newline.

Definition onLine (line offset from to : nat) : Babylon.Span :=
  {| Babylon.startLine := line; Babylon.startColumn := from;
     Babylon.endLine := line; Babylon.endColumn := to;
     Babylon.startOffset := offset + from; Babylon.endOffset := offset + to |}.

Definition namedImport (line offset : nat) (name source : string) : Value :=
  Babylon.node "ImportDeclaration" (onLine line offset 0 23)
    [("specifiers",
      Arr [Babylon.node "ImportSpecifier" (onLine line offset 9 10)
             [("imported", Babylon.identifier (onLine line offset 9 10) name);
              ("importKind", Null);
              ("local", Babylon.identifier (onLine line offset 9 10) name)]]);
     ("importKind", Str "value");
     ("source",
      Babylon.node "StringLiteral" (onLine line offset 18 23)
        [("extra", Obj [("rawValue", Str source);
                        ("raw", Str ("'" +:+ source +:+ "'"))]);
         ("value", Str source)])].

Definition groupTree : Value :=
  Babylon.file [namedImport 0 0 "x" "./n"; namedImport 1 24 "a" "./m"].

Definition groupFileText : string := "export const a = 1, b = 2".

Definition groupPlatform : Platform :=
  platform [("/w/src/m.js", groupFileText)]
           [(groupText, groupTree);
            (groupFileText,
             Babylon.file [Babylon.exportStatement
                             (Babylon.ExportVariables (Babylon.onFirstLine 0 25)
                                ["a"; "b"])])]
           [].

(** The user picks the third item of the quick pick, the export [b]. *)
Definition groupWorld : Editor.World := world groupText "/w/src/main.js" [Some 2] [].

(** *** A file named after a member of [Object.prototype] *)

Definition constructorPlatform : Platform :=
  platform [("/w/src/constructor.js", "export default 1")]
           [(EmptyString, Babylon.file []);
            ("export default 1",
             Babylon.file
               [Babylon.exportDefaultDeclaration (Babylon.onFirstLine 0 16)
                  (Babylon.numericLiteral (Babylon.onFirstLine 15 16) 1)])]
           [].

(** *** A file with one named export, and a dismissed quick pick *)

Definition utilText : string := "export function helper() {}".

Definition utilTree : Value :=
  Babylon.file
    [Babylon.node "ExportNamedDeclaration" (Babylon.onFirstLine 0 27)
       [("specifiers", Arr []);
        ("source", Null);
        ("declaration",
         Babylon.node "FunctionDeclaration" (Babylon.onFirstLine 7 27)
           [("id", Babylon.identifier (Babylon.onFirstLine 16 22) "helper");
            ("params", Arr []);
            ("body", Babylon.node "BlockStatement" (Babylon.onFirstLine 25 27)
                       [("body", Arr []); ("directives", Arr [])])])]].

Definition utilPlatform : Platform :=
  platform [("/w/src/util.js", utilText)]
           [(EmptyString, Babylon.file []); (utilText, utilTree)]
           [].

Definition utilWorld : Editor.World := world EmptyString "/w/src/main.js" [None] [].

(** *** A call of [require] in a declaration *)

Definition requireText : string := "const fs = require('./fs')" +:+ newline.

Definition requireCall : Value :=
  Babylon.node "CallExpression" (Babylon.onFirstLine 11 26)
    [("callee", Babylon.identifier (Babylon.onFirstLine 11 18) "require");
     ("arguments", Arr [Babylon.stringLiteral (Babylon.onFirstLine 19 25) "./fs"])].

Definition requireTree : Value :=
  Babylon.file
    [Babylon.node "VariableDeclaration" (Babylon.onFirstLine 0 26)
       [("kind", Str "const");
        ("declarations",
         Arr [Babylon.node "VariableDeclarator" (Babylon.onFirstLine 6 26)
                [("id", Babylon.identifier (Babylon.onFirstLine 6 8) "fs");
                 ("init", requireCall)]])]].

(** The statements that the document imports with, and the document
    after [util.js] has been required in it. *)
Definition requireImports : list JavaScript.ImportStatementForReadOnly :=
  match JavaScript.getExistingImports requireTree with
  | Normal imports => imports
  | Throw _ => []
  end.

Definition requirePlatform : Platform :=
  platform [("/w/src/util.js", "export function helper() {}")]
           [(requireText, requireTree)]
           [].

Definition requiredText : string :=
  "const util = require('./util')" +:+ newline +:+ requireText.

(** The options with the [require] syntax, and a module of
    [node_modules]. *)
Definition requireOptions : JavaScript.LanguageOptions :=
  {| JavaScript.syntax := JavaScript.SyntaxRequire;
     JavaScript.grouping := true;
     JavaScript.fileExtension := false;
     JavaScript.indexFile := true;
     JavaScript.quoteCharacter := JavaScript.single;
     JavaScript.semiColons := false;
     JavaScript.predefinedVariableNames := [];
     JavaScript.variableNamingConvention := JavaScript.none;
     JavaScript.filteredFileList := [] |}.

Definition lodash : NodeItem.NodeItem :=
  {| NodeItem.options := options;
     NodeItem.id := "node://lodash";
     NodeItem.label := "lodash";
     NodeItem.description := EmptyString;
     NodeItem.name := "lodash";
     NodeItem.path := "lodash" |}.

(** The statements collected in the document with two imports. *)
Definition twoImportsTotal : list Language.ImportStatementForFixingImport :=
  [{| Language.originalRelativePath := "./a";
      Language.editableRange :=
        {| Editor.start := {| Editor.line := 0; Editor.character := 14 |};
           Editor.end_ := {| Editor.line := 0; Editor.character := 19 |} |} |};
   {| Language.originalRelativePath := "./b";
      Language.editableRange :=
        {| Editor.start := {| Editor.line := 0; Editor.character := 35 |};
           Editor.end_ := {| Editor.line := 0; Editor.character := 40 |} |} |}].

(** *** Paths with a query: two import declarations and a call of
    [require] on one line, and a call alone *)







(** *** A file that exports in every way *)

(** [path.resolve] of POSIX, for a first path that is absolute: a later
    absolute path takes over, and the segments [.] and [..] are
    resolved. *)
Fixpoint normalize (segments stack : list string) : list string :=
  match segments with
  | [] => rev stack
  | segment :: rest =>
      if String.eqb segment EmptyString || String.eqb segment "." then normalize rest stack
      else if String.eqb segment ".." then normalize rest (tail stack)
      else normalize rest (segment :: stack)
  end.

Definition resolve (paths : list string) : string :=
  let joined :=
    fold_left (fun joined p => if Str.startsWith p "/" then p else joined +:+ "/" +:+ p)
              paths "/" in
  "/" +:+ String.concat "/" (normalize (Str.split "/" joined) []).





(** *** A directory with an index file *)

Definition indexText : string := "export { a } from './a'".

Definition indexTree : Value :=
  Babylon.file
    [Babylon.exportStatement
       (Babylon.ExportList (Babylon.onFirstLine 0 23) [("a", "a")] (Some "./a"))].

Definition indexPlatform : Platform :=
  platform [("/w/src/lib/index.js", indexText)]
           [(EmptyString, Babylon.file []); (indexText, indexTree)]
           [].

End Sample.

(** ** RecentSelectedItems (the recently-used list) *)

Module RecentSelectedItems.
Import Js.

(** The [Item] interface, reduced to the field this class reads. *)
Class Item (A : Type) := { id : A -> string }.

(** [data] maps [language.constructor.name] to the list of ids, most
    recent first. *)
Record t := { data : gmap string (list string); limit : Z }.

Definition has (self : t) (language : string) : bool :=
  match data self !! language with
  | Some ids => Nat.ltb 0 (length ids)
  | None => false
  end.

(** [list.reduce((hash, id, rank) => { hash[id] = rank; return hash }, {})]:
    the entries of the table. The assignment of a number to the key
    [__proto__] makes no entry. *)
Fixpoint reduce_hash (hash : gmap string nat) (rank : nat) (ids : list string)
  : gmap string nat :=
  match ids with
  | [] => hash
  | id :: rest =>
      reduce_hash (if String.eqb id "__proto__" then hash else <[id := rank]> hash)
                  (S rank) rest
  end.

(** The candidates that [sort] is modelled for. The table of ranks is a
    plain object: under an id that names a member of [Object.prototype]
    it holds that member, which is then the key that [_.sortBy] sorts
    the candidate by, and how such a key compares with a number is left
    to the sorting routine of the engine. The ids of this program are
    absolute paths of files and names after [node://]; none is such a
    name. *)
Class OwnIds (A : Type) `{Item A} : Prop :=
  own_id : forall a : A, inherited (id a) = false.

Definition sort {A} `{OwnIds A} (self : t) (language : string) (items : list A) : list A :=
  if negb (has self language) then items
  else
    let ids := default [] (data self !! language) in
    let hash := reduce_hash ∅ 0 ids in
    sortBy rank_leb (fun item => hash !! id item) items.

(** [list.indexOf(x)]: position of the first occurrence. *)
Fixpoint indexOf (x : string) (ids : list string) : option nat :=
  match ids with
  | [] => None
  | y :: rest => if String.eqb y x then Some 0 else S <$> indexOf x rest
  end.

(** [list.splice(i, 1)] *)
Definition splice1 (i : nat) (ids : list string) : list string :=
  take i ids ++ drop (S i) ids.

(** The body of [markAsRecentlyUsed] on the list of one language. *)
Definition markList (limit : Z) (x : string) (ids : list string) : list string :=
  let list1 := match indexOf x ids with
               | Some i => splice1 i ids
               | None => ids
               end in
  let list2 := x :: list1 in
  if (limit <? Z.of_nat (length list2))%Z then removelast list2 else list2.

Definition markAsRecentlyUsed {A} `{Item A} (self : t) (language : string) (selectedItem : A) : t :=
  let data1 := match data self !! language with
               | Some _ => data self
               | None => <[language := []]> (data self)
               end in
  let ids := default [] (data1 !! language) in
  {| data := <[language := markList (limit self) (id selectedItem) ids]> data1;
     limit := limit self |}.

(** Specification vocabulary: the history recorded for a language, and
    the ids of a history other than [x], in their order. *)
Definition history (self : t) (language : string) : list string :=
  default [] (data self !! language).

Definition without (x : string) (ids : list string) : list string :=
  List.filter (fun y => negb (String.eqb y x)) ids.

(** The rank that [sort] reads for an item: [hash[item.id]]. *)
Definition recordedRank {A} `{Item A} (self : t) (language : string) (item : A) : option nat :=
  reduce_hash ∅ 0 (history self language) !! id item.

Definition ranked {A} `{Item A} (self : t) (language : string) (item : A) : bool :=
  match recordedRank self language item with Some _ => true | None => false end.

(** Candidates given by their ids. *)
#[global] Instance Item_string : Item string := {| id := fun s => s |}.

(** Candidates that are modules, given by their names: the id of
    [NodeItem] is the name after [node://]. *)
Inductive ModuleName := moduleName (name : string).

#[global] Instance Item_module : Item ModuleName :=
  {| id := fun m => match m with moduleName name => "node://" +:+ name end |}.

#[global] Instance OwnIds_module : OwnIds ModuleName.
Proof. intros [name]. reflexivity. Qed.

(** The constructor. *)
Definition new (limit : Z) : t := {| data := ∅; limit := limit |}.

(** [fromJSON(json)]: the object that was stored, a language name
    mapped to its list of ids; [None] is a stored value that is falsy
    ([null]), for which the empty list is taken. *)
Definition fromJSON (self : t) (json : gmap string (option (list string))) : t :=
  {| data := map_fold (fun languageName ids data => <[languageName := default [] ids]> data)
                      (data self) json;
     limit := limit self |}.

(** [toJSON()] *)
Definition toJSON (self : t) : gmap string (list string) :=
  map_fold (fun language ids json => <[language := ids]> json) ∅ (data self).

(** A history for the examples: three ids of one language, bound 3. *)
Definition exampleHistory : t :=
  {| data := {["JavaScript" := ["a"; "b"; "c"]]}; limit := 3 |}.

(** The same with the ids of three modules. *)
Definition moduleHistory : t :=
  {| data := {["JavaScript" := ["node://a"; "node://b"; "node://c"]]}; limit := 3 |}.

End RecentSelectedItems.

(* ================================================================== *)
(** * Properties *)
(* ================================================================== *)

Section SortByFacts.
Import Js.
Context {A K : Type} (leb : K -> K -> bool) (key : A -> K).

Lemma sortBy_insert_perm x l : Permutation (sortBy_insert leb key x l) (x :: l).
Proof.
  induction l as [|y ys IH]; simpl; [reflexivity|].
  destruct (leb (key x) (key y)); [reflexivity|].
  rewrite IH. apply perm_swap.
Qed.

Lemma sortBy_perm l : Permutation (sortBy leb key l) l.
Proof.
  induction l as [|x xs IH]; simpl; [reflexivity|].
  rewrite sortBy_insert_perm. now constructor.
Qed.

End SortByFacts.

Section SortByOrder.
Import Js.
Context {A K : Type} (leb : K -> K -> bool) (key : A -> K).
Hypothesis leb_total : forall a b, leb a b = false -> leb b a = true.

Lemma sortBy_insert_hdrel x y l :
  (key_le leb key) y x -> HdRel (key_le leb key) y l -> HdRel (key_le leb key) y (sortBy_insert leb key x l).
Proof.
  intros Hyx Hl. destruct l as [|z zs]; simpl.
  - now constructor.
  - destruct (leb (key x) (key z)); constructor; auto.
    now inversion Hl.
Qed.

Lemma sortBy_insert_sorted x l :
  Sorted (key_le leb key) l -> Sorted (key_le leb key) (sortBy_insert leb key x l).
Proof.
  induction 1 as [|y ys Hs IH Hhd]; simpl.
  - repeat constructor.
  - destruct (leb (key x) (key y)) eqn:E.
    + constructor; [now constructor|]. now constructor.
    + constructor; [exact IH|].
      apply sortBy_insert_hdrel; [now apply leb_total | exact Hhd].
Qed.

Lemma sortBy_sorted l : Sorted (key_le leb key) (sortBy leb key l).
Proof.
  induction l as [|x xs IH]; simpl; [constructor|].
  now apply sortBy_insert_sorted.
Qed.

End SortByOrder.

Section SortByStable.
Import Js.
Context {A K : Type} (leb : K -> K -> bool) (key : A -> K).

(** Elements selected by [p] that all compare below-or-equal to each
    other are never reordered. *)
Lemma sortBy_insert_filter (p : A -> bool) x l :
  (forall y, y ∈ l -> p x = true -> p y = true -> leb (key x) (key y) = true) ->
  List.filter p (sortBy_insert leb key x l) = List.filter p (x :: l).
Proof.
  induction l as [|y ys IH]; intros Hp; simpl; [reflexivity|].
  destruct (leb (key x) (key y)) eqn:E; simpl; [reflexivity|].
  rewrite IH by (intros z Hz; apply Hp; now right).
  simpl. destruct (p x) eqn:Px, (p y) eqn:Py; try reflexivity.
  rewrite Hp in E; [discriminate| left | | ]; auto.
Qed.

Lemma sortBy_stable (p : A -> bool) l :
  (forall x y, p x = true -> p y = true -> leb (key x) (key y) = true) ->
  List.filter p (sortBy leb key l) = List.filter p l.
Proof.
  intros Hp. induction l as [|x xs IH]; simpl; [reflexivity|].
  rewrite sortBy_insert_filter by (intros; now apply Hp).
  simpl. now rewrite IH.
Qed.

Lemma sortBy_insert_app x l1 l2 :
  (forall y, y ∈ l2 -> leb (key x) (key y) = true) ->
  sortBy_insert leb key x (l1 ++ l2) = sortBy_insert leb key x l1 ++ l2.
Proof.
  intros H2. induction l1 as [|y ys IH]; simpl.
  - destruct l2 as [|z zs]; simpl; [reflexivity|].
    rewrite H2; [reflexivity | left].
  - destruct (leb (key x) (key y)); [reflexivity|]. now rewrite IH.
Qed.

Lemma sortBy_insert_skip x l1 l2 :
  (forall y, y ∈ l1 -> leb (key x) (key y) = false) ->
  sortBy_insert leb key x (l1 ++ l2) = l1 ++ sortBy_insert leb key x l2.
Proof.
  intros H1. induction l1 as [|y ys IH]; simpl; [reflexivity|].
  rewrite H1 by left. rewrite IH; [reflexivity|].
  intros z Hz. apply H1. now right.
Qed.

End SortByStable.

(** ** The recently-used list *)

Section RecentFacts.
Import Js RecentSelectedItems.

Lemma reduce_hash_notin h r ids s :
  s ∉ ids -> reduce_hash h r ids !! s = h !! s.
Proof.
  revert h r. induction ids as [|y ys IH]; intros h r Hs; simpl; [reflexivity|].
  rewrite IH by (intros ?; apply Hs; now right).
  destruct (String.eqb y "__proto__"); [reflexivity|].
  apply lookup_insert_ne. intros ->. apply Hs. left.
Qed.

Lemma reduce_hash_elem h r ids s :
  s <> "__proto__" ->
  s ∈ ids -> exists i, reduce_hash h r ids !! s = Some (r + i) /\ ids !! i = Some s.
Proof.
  intros Hown.
  revert h r. induction ids as [|y ys IH]; intros h r Hs; [inversion Hs|].
  simpl. destruct (decide (s ∈ ys)) as [Hin|Hnin].
  - destruct (IH (if String.eqb y "__proto__" then h else <[y:=r]> h) (S r) Hin)
      as (i & Hi & Hl).
    exists (S i). split; [rewrite Hi; f_equal; lia | exact Hl].
  - assert (s = y) as <- by (inversion Hs; subst; tauto).
    exists 0. rewrite reduce_hash_notin by exact Hnin.
    apply String.eqb_neq in Hown. rewrite Hown.
    rewrite lookup_insert_eq. split; [f_equal; lia | reflexivity].
Qed.

Lemma reduce_hash_nodup h r ids i s :
  s <> "__proto__" ->
  NoDup ids -> ids !! i = Some s -> reduce_hash h r ids !! s = Some (r + i).
Proof.
  intros Hown.
  revert h r i. induction ids as [|y ys IH]; intros h r i Hnd Hi; [discriminate|].
  apply NoDup_cons in Hnd as [Hy Hnd]. simpl. destruct i as [|i]; simpl in Hi.
  - injection Hi as ->. rewrite reduce_hash_notin by exact Hy.
    apply String.eqb_neq in Hown. rewrite Hown.
    rewrite lookup_insert_eq. f_equal; lia.
  - rewrite (IH _ _ i Hnd Hi). f_equal; lia.
Qed.

Lemma own_not_proto s : inherited s = false -> s <> "__proto__".
Proof. intros Hs ->. discriminate Hs. Qed.

Lemma indexOf_None x ids : indexOf x ids = None -> without x ids = ids.
Proof.
  induction ids as [|y ys IH]; simpl; [reflexivity|].
  destruct (String.eqb y x) eqn:E; [discriminate|]. simpl.
  destruct (indexOf x ys); [discriminate|]. intros _. now rewrite IH.
Qed.

Lemma indexOf_None_notin x ids : indexOf x ids = None -> x ∉ ids.
Proof.
  induction ids as [|y ys IH]; simpl; [intros _ H; inversion H|].
  destruct (String.eqb y x) eqn:E; [discriminate|].
  destruct (indexOf x ys); [discriminate|]. intros _ H.
  apply elem_of_cons in H as [->|H]; [|now apply IH].
  now rewrite String.eqb_refl in E.
Qed.

Lemma without_notin x ids : x ∉ ids -> without x ids = ids.
Proof.
  induction ids as [|y ys IH]; intros Hn; simpl; [reflexivity|].
  destruct (String.eqb y x) eqn:E; simpl.
  - apply String.eqb_eq in E as ->. exfalso. apply Hn. left.
  - rewrite IH; [reflexivity|]. intros ?. apply Hn. now right.
Qed.

Lemma indexOf_Some x ids i :
  NoDup ids -> indexOf x ids = Some i -> splice1 i ids = without x ids /\ x ∈ ids.
Proof.
  revert i. induction ids as [|y ys IH]; intros i Hnd; simpl; [discriminate|].
  apply NoDup_cons in Hnd as [Hy Hnd].
  destruct (String.eqb y x) eqn:E; simpl.
  - intros [= <-]. apply String.eqb_eq in E as ->. unfold splice1. simpl.
    rewrite drop_0, without_notin by exact Hy. split; [reflexivity | left].
  - destruct (indexOf x ys) as [j|] eqn:Ej; [|discriminate].
    intros [= <-]. destruct (IH j Hnd eq_refl) as [IH1 IH2].
    unfold splice1 in *. simpl. rewrite IH1. split; [reflexivity | now right].
Qed.

Lemma without_length x ids : length (without x ids) <= length ids.
Proof.
  induction ids as [|y ys IH]; simpl; [lia|].
  destruct (negb (String.eqb y x)); simpl; lia.
Qed.

Lemma without_elem_length x ids : x ∈ ids -> length (without x ids) < length ids.
Proof.
  induction ids as [|y ys IH]; intros Hin; [inversion Hin|]. simpl.
  destruct (String.eqb y x) eqn:E; simpl.
  - pose proof (without_length x ys). lia.
  - apply elem_of_cons in Hin as [->|Hin]; [now rewrite String.eqb_refl in E|].
    specialize (IH Hin). lia.
Qed.

Lemma without_sublist x ids : sublist (without x ids) ids.
Proof.
  induction ids as [|y ys IH]; simpl; [constructor|].
  destruct (negb (String.eqb y x)); now constructor.
Qed.

Lemma without_not_elem x ids : x ∉ without x ids.
Proof.
  unfold without. rewrite list_elem_of_In, filter_In. intros [_ H].
  now rewrite String.eqb_refl in H.
Qed.

(** The effect of [markAsRecentlyUsed] on a history that is free of
    duplicates and within the bound: the id enters at the front, the
    other ids follow in their order, cut to the bound. *)
Lemma markList_spec limit x ids :
  (0 < limit)%Z -> NoDup ids -> (Z.of_nat (length ids) <= limit)%Z ->
  markList limit x ids = x :: take (Z.to_nat limit - 1) (without x ids).
Proof.
  intros Hlim Hnd Hlen. unfold markList.
  assert (Hrest : match indexOf x ids with Some i => splice1 i ids | None => ids end
                  = without x ids).
  { destruct (indexOf x ids) as [i|] eqn:E.
    - now apply indexOf_Some.
    - symmetry. now apply indexOf_None. }
  rewrite Hrest. pose proof (without_length x ids) as Hw.
  destruct (Z.ltb_spec limit (Z.of_nat (length (x :: without x ids)))) as [Hgt|Hle];
    simpl length in *.
  - destruct (without x ids) as [|w ws] eqn:Ew; [simpl in *; lia|].
    change (removelast (x :: w :: ws)) with (x :: removelast (w :: ws)).
    f_equal. rewrite removelast_firstn_len. f_equal. simpl in *. lia.
  - rewrite take_ge; [reflexivity | lia].
Qed.

End RecentFacts.

Section RankOrder.
Import Js.
Context {A : Type} (key : A -> option nat).

Lemma rank_leb_total a b : rank_leb a b = false -> rank_leb b a = true.
Proof.
  destruct a, b; simpl; try congruence; intros H.
  apply Nat.leb_gt in H. apply Nat.leb_le. lia.
Qed.

(** Items without a rank end up behind all ranked ones, in the order
    they had. *)
Lemma sortBy_rank_split l :
  sortBy rank_leb key l
  = sortBy rank_leb key (List.filter (has_rank key) l)
    ++ List.filter (fun a => negb (has_rank key a)) l.
Proof.
  induction l as [|x xs IH]; [reflexivity|].
  change (sortBy rank_leb key (x :: xs))
    with (sortBy_insert rank_leb key x (sortBy rank_leb key xs)).
  rewrite IH. simpl List.filter. destruct (has_rank key x) eqn:Ex; simpl negb; cbv iota.
  - change (sortBy rank_leb key (x :: ?l))
      with (sortBy_insert rank_leb key x (sortBy rank_leb key l)).
    apply sortBy_insert_app. intros y Hy.
    apply list_elem_of_In, filter_In in Hy as [_ Hy]. unfold has_rank in Hy, Ex.
    destruct (key x), (key y); try discriminate; reflexivity.
  - rewrite sortBy_insert_skip.
    + f_equal.
      destruct (List.filter (fun a => negb (has_rank key a)) xs) as [|u us] eqn:Eu;
        [reflexivity|].
      simpl.
      assert (Hu : In u (List.filter (fun a => negb (has_rank key a)) xs))
        by (rewrite Eu; now left).
      apply filter_In in Hu as [_ Hu]. unfold has_rank in Hu, Ex.
      destruct (key x), (key u); try discriminate; reflexivity.
    + intros y Hy.
      apply list_elem_of_In in Hy.
      apply (Permutation_in _ (sortBy_perm rank_leb key _)) in Hy.
      apply filter_In in Hy as [_ Hy]. unfold has_rank in Hy, Ex.
      destruct (key x), (key y); try discriminate; reflexivity.
Qed.

End RankOrder.

Section RecentClaims.
Import Js RecentSelectedItems.
Context {A : Type} `{OwnIds A}.

Lemma history_markAsRecentlyUsed (self : t) language (x : A) :
  history (markAsRecentlyUsed self language x) language
  = markList (limit self) (id x) (history self language).
Proof.
  unfold history, markAsRecentlyUsed. simpl. rewrite lookup_insert_eq. simpl.
  destruct (data self !! language) eqn:E; simpl.
  - now rewrite E.
  - now rewrite lookup_insert_eq.
Qed.

Lemma history_markAsRecentlyUsed_other (self : t) language other (x : A) :
  other <> language ->
  history (markAsRecentlyUsed self language x) other = history self other.
Proof.
  intros Hne. unfold history, markAsRecentlyUsed. simpl.
  rewrite lookup_insert_ne by congruence.
  destruct (data self !! language); [reflexivity|].
  now rewrite lookup_insert_ne by congruence.
Qed.

Lemma has_history (self : t) language :
  has self language = match history self language with [] => false | _ => true end.
Proof.
  unfold has, history. destruct (data self !! language) as [[|y ys]|]; reflexivity.
Qed.

Lemma ranked_iff (self : t) language (a : A) :
  ranked self language a = true <-> id a ∈ history self language.
Proof.
  unfold ranked, recordedRank. split.
  - destruct (decide (id a ∈ history self language)) as [Hin|Hnin]; [easy|].
    rewrite reduce_hash_notin by exact Hnin. now rewrite lookup_empty.
  - intros Hin.
    destruct (reduce_hash_elem ∅ 0 _ _ (own_not_proto _ (own_id a)) Hin) as (i & -> & _).
    reflexivity.
Qed.

(** C7. For candidates whose ids name no member of [Object.prototype]:
    ranking returns the candidates unchanged when the history of the
    language is empty or absent; otherwise it is the stable sort on the
    recorded rank (a permutation, ordered by rank, equal ranks in their
    original order), with the candidates that have no rank after all
    ranked ones in their original order. Marking [x] as used on a
    history that has no duplicate and is no longer than a positive bound
    puts the id of [x] at the front exactly once, keeps the other ids in
    their order, and drops the oldest id when (and only when) the bound
    would be exceeded; the history afterwards has no duplicate and is
    within the bound again. The histories of the other languages are
    untouched by any mark. *)
Theorem recency_rank_and_mark_used (self : t) (language : string)
    (items : list A) (x : A) :
  let rank := recordedRank self language in
  let self' := markAsRecentlyUsed self language x in
  let old := history self language in
  (old = [] -> sort self language items = items) /\
  (old <> [] ->
     Permutation (sort self language items) items /\
     Sorted (fun a b => rank_leb (rank a) (rank b) = true) (sort self language items) /\
     (forall k, List.filter (fun a => bool_decide (rank a = k)) (sort self language items)
                = List.filter (fun a => bool_decide (rank a = k)) items) /\
     sort self language items
     = sortBy rank_leb rank (List.filter (ranked self language) items)
       ++ List.filter (fun a => negb (ranked self language a)) items /\
     (forall a, ranked self language a = true <-> id a ∈ old) /\
     (forall a i, NoDup old -> (rank a = Some i <-> old !! i = Some (id a)))) /\
  ((0 < limit self)%Z -> NoDup old -> (Z.of_nat (length old) <= limit self)%Z ->
     history self' language
     = id x :: take (Z.to_nat (limit self) - 1) (without (id x) old) /\
     (id x ∈ old \/ (Z.of_nat (length old) < limit self)%Z ->
        history self' language = id x :: without (id x) old) /\
     (id x ∉ old -> Z.of_nat (length old) = limit self ->
        history self' language = id x :: removelast old) /\
     sublist (tail (history self' language)) old /\
     NoDup (history self' language) /\
     (Z.of_nat (length (history self' language)) <= limit self')%Z) /\
  (forall other, other <> language -> history self' other = history self other).
Proof.
  intros rank self' old. split; [|split; [|split]].
  - intros Hold. unfold sort. rewrite has_history. fold old. now rewrite Hold.
  - intros Hold.
    assert (Hsort : sort self language items = sortBy rank_leb rank items).
    { unfold sort. rewrite has_history. fold old.
      destruct old as [|y ys]; [contradiction|reflexivity]. }
    rewrite Hsort. split; [apply sortBy_perm|].
    split; [apply (sortBy_sorted rank_leb rank), rank_leb_total|].
    split.
    { intros k. apply sortBy_stable. intros a b Ha Hb.
      apply bool_decide_eq_true in Ha, Hb. rewrite Ha, Hb.
      destruct k; simpl; [apply Nat.leb_refl | reflexivity]. }
    split; [apply (sortBy_rank_split rank)|].
    split; [intros a; apply ranked_iff|].
    intros a i Hnd. unfold rank, recordedRank. fold old.
    pose proof (own_not_proto _ (own_id a)) as Hown. split.
    + intros Hr. destruct (decide (id a ∈ old)) as [Hin|Hnin].
      * destruct (reduce_hash_elem ∅ 0 _ _ Hown Hin) as (j & Hj & Hl).
        rewrite Hj in Hr. injection Hr as <-. exact Hl.
      * rewrite reduce_hash_notin, lookup_empty in Hr by exact Hnin. discriminate.
    + intros Hl. now rewrite (reduce_hash_nodup ∅ 0 old i (id a) Hown Hnd Hl).
  - intros Hlim Hnd Hlen.
    assert (Hnew : history self' language
                   = id x :: take (Z.to_nat (limit self) - 1) (without (id x) old)).
    { unfold self'. rewrite history_markAsRecentlyUsed. now apply markList_spec. }
    pose proof (without_length (id x) old) as Hwl.
    split; [exact Hnew|]. rewrite Hnew. split; [|split; [|split; [|split]]].
    + intros Hcase. f_equal. apply take_ge.
      destruct Hcase as [Hin|Hlt]; [|lia].
      apply without_elem_length in Hin. lia.
    + intros Hnin Heq. f_equal. rewrite without_notin by exact Hnin.
      rewrite removelast_firstn_len. f_equal. lia.
    + simpl. etransitivity; [apply sublist_take | apply without_sublist].
    + apply NoDup_cons. split.
      * intros Hin. apply (without_not_elem (id x) old).
        eapply elem_of_sublist; [exact Hin | apply sublist_take].
      * eapply sublist_NoDup; [exact Hnd|].
        etransitivity; [apply sublist_take | apply without_sublist].
    + simpl. rewrite length_take. unfold self'. simpl. lia.
  - intros other Hne. now apply history_markAsRecentlyUsed_other.
Qed.

End RecentClaims.

(** ** Binding names *)

Section NamingClaims.
Import Js Value Platform JavaScript.
Context `{Platform}.

Lemma find_none_of_forall {X} (p : X -> bool) (l : list X) :
  Forall (fun x => p x = false) l -> List.find p l = None.
Proof.
  induction 1 as [|x xs Hx _ IH]; simpl; [reflexivity|]. now rewrite Hx.
Qed.

Lemma getVariableName_none name options rules :
  compileRules options = Normal rules ->
  Forall (fun rule => test (inputPattern rule) name = false) rules ->
  variableNamingConvention options = none ->
  getVariableName name options
  = match Str.matchGlobal Str.isNameChar (Str.stripLeadingDigits name) with
    | Some found => Normal (Str.join found)
    | None => Throw TypeError
    end.
Proof.
  intros Hc Hr Hn. unfold getVariableName. rewrite Hc. simpl.
  rewrite (find_none_of_forall _ _ Hr), Hn. reflexivity.
Qed.

Lemma digit_cases (c : ascii) :
  Str.isDigit c = true ->
  c = "0"%char \/ Str.inRange "1" "9" c = true.
Proof.
  unfold Str.isDigit, Str.inRange, Str.code. intros Hd.
  apply andb_true_iff in Hd as [Hlo Hhi].
  apply Nat.leb_le in Hlo, Hhi.
  change (nat_of_ascii "0") with 48 in *. change (nat_of_ascii "9") with 57 in *.
  change (nat_of_ascii "1") with 49.
  destruct (Nat.eq_dec (nat_of_ascii c) 48) as [E|E].
  - left. rewrite <- (ascii_nat_embedding c), E. reflexivity.
  - right. apply andb_true_iff. split; apply Nat.leb_le; lia.
Qed.

(** C8. The name transform is partial. With no predefined rule matching
    and the default convention, the raw name "0" makes it raise (the
    name is empty once its leading digits are stripped, the match with
    the character filter is null, and [join] is called on null); the
    transform raises exactly when the filter matches nothing. The filter
    keeps the digits 1 to 9 and drops the digit 0. *)
Theorem name_transform_partial options rules :
  compileRules options = Normal rules ->
  variableNamingConvention options = none ->
  (Forall (fun rule => test (inputPattern rule) "0" = false) rules ->
   getVariableName "0" options = Throw TypeError) /\
  (forall name,
     Forall (fun rule => test (inputPattern rule) name = false) rules ->
     (getVariableName name options = Throw TypeError
      <-> Str.matches Str.isNameChar (Str.stripLeadingDigits name) = [])) /\
  (Forall (fun rule => test (inputPattern rule) "a10" = false) rules ->
   getVariableName "a10" options = Normal "a1") /\
  Str.isNameChar "0" = false /\
  (forall c, Str.isDigit c = true -> c <> "0"%char -> Str.isNameChar c = true).
Proof.
  intros Hc Hn. split; [|split; [|split; [|split]]].
  - intros Hr. now rewrite (getVariableName_none _ _ _ Hc Hr Hn).
  - intros name Hr. rewrite (getVariableName_none _ _ _ Hc Hr Hn).
    unfold Str.matchGlobal.
    destruct (Str.matches Str.isNameChar (Str.stripLeadingDigits name)); split;
      intros E; try reflexivity; discriminate.
  - intros Hr. now rewrite (getVariableName_none _ _ _ Hc Hr Hn).
  - reflexivity.
  - intros c Hd Hc0. destruct (digit_cases c Hd) as [->|Hr]; [contradiction|].
    unfold Str.isNameChar. rewrite Hr. now rewrite !orb_true_r.
Qed.

End NamingClaims.

(** ** Exported names *)

Section ExportClaims.
Import Js Value Platform JavaScript.
Context `{Platform}.

(** C10. Whatever the files hold and however deep the chain of star
    re-exports is followed, the list of exported names never contains
    the name [default]: it is rejected from the result of every call,
    the recursive ones included. *)
Theorem exported_variables_exclude_default (depth : nat) (filePath : string) :
  (Str "default" ∉ getExportedVariables depth filePath) /\
  Forall (fun name => isStr name "default" = false /\ truthy name = true)
         (getExportedVariables depth filePath).
Proof.
  assert (Hall : Forall (fun name => isStr name "default" = false /\ truthy name = true)
                        (getExportedVariables depth filePath)).
  { destruct depth as [|depth]; simpl; [constructor|].
    unfold try_catch.
    destruct (_ ≫= _) as [names|] eqn:E; [|constructor].
    destruct (readFileSync filePath) as [code|]; simpl in E; [|discriminate].
    destruct (get "program" (parse code)) as [program|]; simpl in E; [|discriminate].
    destruct (get "body" program) as [body|]; simpl in E; [|discriminate].
    destruct (mapM _ _) as [found|]; simpl in E; [|discriminate].
    injection E as <-. apply List.Forall_forall. intros name Hin.
    apply filter_In in Hin as [Hin Hd]. apply filter_In in Hin as [_ Ht].
    split; [now apply negb_true_iff | exact Ht]. }
  split; [|exact Hall].
  intros Hin. rewrite List.Forall_forall in Hall.
  apply list_elem_of_In, Hall in Hin as [Hd _]. discriminate.
Qed.

End ExportClaims.

(** ** Monadic list functions *)

Section CompletionLists.
Import Js Value.

Lemma filterM_Normal (p : Value -> Completion bool) l r :
  JavaScript.filterM p l = Normal r ->
  forall x, In x r -> In x l /\ p x = Normal true.
Proof.
  revert r. induction l as [|a l IH]; simpl; intros r Hr x Hx.
  - injection Hr as <-. destruct Hx.
  - destruct (p a) as [keep|] eqn:Ep; simpl in Hr; [|discriminate].
    destruct (JavaScript.filterM p l) as [kept|]; simpl in Hr; [|discriminate].
    injection Hr as <-. destruct keep.
    + destruct Hx as [<-|Hx]; [now split; [left|]|].
      destruct (IH _ eq_refl x Hx). split; [now right | assumption].
    + destruct (IH _ eq_refl x Hx). split; [now right | assumption].
Qed.

Lemma mapM_Normal {X Y} (f : X -> Completion Y) l r :
  mapM f l = Normal r -> forall y, In y r -> exists x, In x l /\ f x = Normal y.
Proof.
  revert r. induction l as [|a l IH]; simpl; intros r Hr y Hy.
  - injection Hr as <-. destruct Hy.
  - destruct (f a) as [b|] eqn:Ef; simpl in Hr; [|discriminate].
    destruct (mapM f l) as [bs|]; simpl in Hr; [|discriminate].
    injection Hr as <-. destruct Hy as [<-|Hy].
    + exists a. split; [now left | assumption].
    + destruct (IH _ eq_refl y Hy) as (x & Hx & Hfx). exists x. split; [now right | assumption].
Qed.

Lemma arrayFilter_Normal p v r :
  JavaScript.arrayFilter p v = Normal r ->
  exists l, v = Arr l /\ forall x, In x r -> In x l /\ p x = Normal true.
Proof.
  destruct v; simpl; try discriminate. intros Hr.
  eexists. split; [reflexivity|]. now apply filterM_Normal.
Qed.

End CompletionLists.

(** ** Trimming *)

Section TrimFacts.

Lemma trimEnd_decompose s c :
  exists n, s = (Str.trimEnd s c +:+ Str.replicate n c)%string.
Proof.
  induction s as [|a s [n IH]]; simpl.
  - exists 0. reflexivity.
  - destruct (Str.trimEnd s c) as [|b t] eqn:E.
    + destruct (Ascii.eqb_spec a c) as [->|Hne].
      * exists (S n). simpl in *. now rewrite IH at 1.
      * exists n. simpl in *. now rewrite IH at 1.
    + exists n. simpl in *. now rewrite IH at 1.
Qed.

Lemma trimEnd_last s c a t :
  Str.trimEnd s c = (t +:+ String a EmptyString)%string -> a <> c.
Proof.
  revert t. induction s as [|b s IH]; simpl; intros t Ht.
  - destruct t; discriminate.
  - destruct (Str.trimEnd s c) as [|b' t'] eqn:E.
    + destruct (Ascii.eqb_spec b c) as [->|Hne]; [destruct t; discriminate|].
      destruct t as [|x [|y t]]; simpl in Ht; try discriminate.
      now injection Ht as <-.
    + destruct t as [|x t]; simpl in Ht; [discriminate|].
      injection Ht as _ Ht. now apply (IH t).
Qed.

End TrimFacts.

(** ** Existing imports *)

Section ExistingImportClaims.
Import Js Value JavaScript.

Lemma getExistingImports_body codeTree imports :
  getExistingImports codeTree = Normal imports ->
  imports = [] \/
  exists body, prop "body" (prop "program" codeTree) = Arr body /\
    exists lines1 lines2 nested stubs3 imports3,
      filterM isImportWithLiteralSource body = Normal lines1 /\
      filterM isVariableDeclaration body = Normal lines2 /\
      mapM requiresOfDeclaration lines2 = Normal nested /\
      filterM isImmediateRequire body = Normal stubs3 /\
      mapM requireOfStatement stubs3 = Normal imports3 /\
      imports = map importOfDeclaration lines1 ++ concat nested ++ imports3.
Proof.
  unfold getExistingImports.
  destruct (truthy codeTree && _ && _); [|intros [= <-]; now left].
  destruct (prop "body" (prop "program" codeTree)) as [| | | | |body|];
    simpl; try discriminate.
  intros Hr. right. exists body. split; [reflexivity|].
  destruct (filterM isImportWithLiteralSource body) as [lines1|] eqn:E1;
    simpl in Hr; [|discriminate].
  destruct (filterM isVariableDeclaration body) as [lines2|] eqn:E2;
    simpl in Hr; [|discriminate].
  destruct (mapM requiresOfDeclaration lines2) as [nested|] eqn:E3;
    simpl in Hr; [|discriminate].
  destruct (filterM isImmediateRequire body) as [stubs3|] eqn:E4;
    simpl in Hr; [|discriminate].
  destruct (mapM requireOfStatement stubs3) as [imports3|] eqn:E5;
    simpl in Hr; [|discriminate].
  injection Hr as <-. exists lines1, lines2, nested, stubs3, imports3.
  repeat split; assumption || reflexivity.
Qed.

(** C5, as the code has it. Every statement extracted comes from a
    statement of the document of one of the three forms and carries the
    start and the end of that statement. For a static import declaration
    the recorded path is the source literal without its trailing
    slashes, all of them: the literal is the recorded path followed by
    slashes only, and the recorded path does not end in a slash. *)
Theorem existing_imports_path_and_range codeTree imports :
  getExistingImports codeTree = Normal imports ->
  Forall (extractedFrom codeTree) imports.
Proof.
  intros Hr. apply List.Forall_forall. intros imp Himp. unfold extractedFrom.
  destruct (getExistingImports_body _ _ Hr) as [->|(body & Hbody & H)]; [destruct Himp|].
  destruct H as (lines1 & lines2 & nested & stubs3 & imports3 & H1 & H2 & H2' & H3 & H3' & ->).
  unfold statements. rewrite Hbody.
  apply in_app_or in Himp as [Himp|Himp]; [|apply in_app_or in Himp as [Himp|Himp]].
  - apply in_map_iff in Himp as (line & <- & Hline).
    destruct (filterM_Normal _ _ _ H1 _ Hline) as [Hin Hp].
    exists line. split; [exact Hin|]. split; [now split|]. left. split; [exact Hp|].
    intros literal Hlit. simpl. rewrite Hlit. simpl.
    destruct (trimEnd_decompose literal "/") as [n Hn].
    exists (Str.trimEnd literal "/"), n. repeat split; try assumption.
    intros t Ht. now apply (trimEnd_last literal "/" "/" t).
  - apply in_concat in Himp as (group & Hgroup & Himp).
    destruct (mapM_Normal _ _ _ H2' _ Hgroup) as (line & Hline & Hreq).
    destruct (filterM_Normal _ _ _ H2 _ Hline) as [Hin Hp].
    exists line. split; [exact Hin|].
    unfold requiresOfDeclaration in Hreq.
    destruct (arrayFilter _ _) as [stubs|]; simpl in Hreq; [|discriminate].
    destruct (mapM_Normal _ _ _ Hreq _ Himp) as (stub & _ & Hstub).
    unfold requireOfDeclarator in Hstub.
    destruct (get "value" _); simpl in Hstub; [|discriminate].
    injection Hstub as <-. split; [now split|]. right. now left.
  - destruct (mapM_Normal _ _ _ H3' _ Himp) as (line & Hline & Hreq).
    destruct (filterM_Normal _ _ _ H3 _ Hline) as [Hin Hp].
    exists line. split; [exact Hin|].
    unfold requireOfStatement in Hreq.
    destruct (get "value" _); simpl in Hreq; [|discriminate].
    injection Hreq as <-. split; [now split|]. right. now right.
Qed.

End ExistingImportClaims.

(** ** Parse failures *)

Section ParseFailure.
Import Js Value Platform JavaScript Editor Language.
Context `{Platform}.

(** [JavaScript.parse] never raises: it yields [null] when babylon does. *)
Lemma parse_of_malformed code e :
  babylon_parse code = Throw e -> parse code = Null.
Proof. intros He. unfold parse. now rewrite He. Qed.

(** The callers that guard against [null]. *)
Lemma getExistingImports_null : getExistingImports Null = Normal [].
Proof. reflexivity. Qed.

Lemma getExportedVariables_of_malformed depth filePath code e :
  readFileSync filePath = Normal code -> babylon_parse code = Throw e ->
  getExportedVariables depth filePath = [].
Proof.
  intros Hr He. destruct depth; [reflexivity|]. simpl.
  rewrite Hr. simpl. now rewrite (parse_of_malformed _ _ He).
Qed.

(** The caller that does not: on a document of the working language
    whose text does not parse, [fixImport] raises on [codeTree.program]. *)
Lemma fixImport_of_malformed (self : JavaScript) (w : World) e :
  WORKING_LANGUAGE (languageId (document w)) = true ->
  babylon_parse (text (document w)) = Throw e ->
  fixImport self w = (Throw TypeError, w).
Proof.
  intros Hl He. unfold fixImport, mbind, M_bind, readDocument. rewrite Hl. simpl.
  unfold lift. now rewrite (parse_of_malformed _ _ He).
Qed.

End ParseFailure.

(** C3 at the failing input: the text [import {] does not parse;
    [parse] yields [null] for it, and [fixImport] raises a [TypeError]
    instead of skipping the document. *)
Example fixImport_raises_on_malformed_text :
  let platform := Sample.platform [] [] [] in
  let w := Sample.world "import {" "/w/src/main.js" [] [] in
  JavaScript.parse "import {" = Value.Null /\
  Language.fixImport (Language.new Sample.options false) w = (Js.Throw Js.TypeError, w).
Proof. split; reflexivity. Qed.

(** ** The file cache *)

Section CacheClaims.
Import Js Value Platform JavaScript Editor Language.
Context `{Platform}.

Lemma removeFirst_incl {X} (p : X -> bool) l x : In x (removeFirst p l) -> In x l.
Proof.
  induction l as [|y l IH]; simpl; [easy|].
  destruct (p y); [now right|]. intros [->|Hx]; [now left | right; auto].
Qed.

Lemma getItems_cache self document fileLinks result self' :
  getItems self document fileLinks = Some (result, self') ->
  cacheIdentified self -> cacheIdentified self'.
Proof.
  unfold getItems. destruct (negb _); [intros [= _ <-]; auto|].
  set (self1 := match fileItemCache self with Some _ => self | None => _ end).
  intros Hg Hself.
  assert (H1 : cacheIdentified self1).
  { unfold self1. destruct (fileItemCache self) eqn:E; [exact Hself|].
    intros cache [= <-]. apply List.Forall_forall. intros item Hin.
    apply in_map_iff in Hin as (link & <- & _). reflexivity. }
  destruct (findFileFilterRule _ _) as [rule|e]; [|injection Hg as _ <-; exact H1].
  set (self2 := withFileItemCache _ self1) in Hg.
  assert (H2 : cacheIdentified self2).
  { intros cache [= <-]. apply List.Forall_forall. intros item Hin.
    apply in_map_iff in Hin as (item0 & <- & Hin0).
    assert (identified item0).
    { destruct (fileItemCache self1) as [cache1|] eqn:E1; [|destruct Hin0].
      specialize (H1 _ E1). rewrite List.Forall_forall in H1. now apply H1. }
    now destruct (offered _ _ _ item0). }
  destruct (climb _ _); [|discriminate].
  destruct (match nodeItemCache self2 with Some _ => _ | None => _ end);
    injection Hg as _ <-; exact H2.
Qed.

Lemma reachable_identified self : Reachable self -> cacheIdentified self.
Proof.
  induction 1 as [| self document fileLinks result self' _ IH Hg
                  | self filePath rootPath _ IH | self filePath _ IH | self _ IH].
  - intros cache [=].
  - eapply getItems_cache; eauto.
  - unfold addItem. destruct (fileItemCache self) as [cache|] eqn:E; [|exact IH].
    intros cache' [= <-]. apply Forall_app. split; [now apply IH|].
    constructor; [reflexivity | constructor].
  - unfold cutItem. destruct (fileItemCache self) as [cache|] eqn:E; [|exact IH].
    intros cache' [= <-]. specialize (IH _ E). rewrite List.Forall_forall in *.
    intros item Hin. apply IH. eapply removeFirst_incl, Hin.
  - intros cache [=].
Qed.

(** C4, as the code has it. In every state reachable through the cache
    build, the incremental add, the incremental remove and the reset,
    the candidates that [getItems] returns for a document hold no file
    candidate whose id is the absolute path of that document. The
    exclusion is applied to the list returned, not to the cache. *)
Theorem returned_items_exclude_requesting_document
    self document fileLinks items self' :
  Reachable self ->
  getItems self document fileLinks = Some (Normal (Some items), self') ->
  forall item, In (OfFile item) items ->
    FileItem.id item <> fullPath (newFileInfo (fileName document)).
Proof.
  intros Hreach Hg item Hin.
  pose proof (reachable_identified _ Hreach) as Hid.
  unfold getItems in Hg. destruct (negb _); [discriminate|].
  set (self1 := match fileItemCache self with Some _ => self | None => _ end) in Hg.
  assert (H1 : cacheIdentified self1).
  { unfold self1. destruct (fileItemCache self) eqn:E; [exact Hid|].
    intros cache [= <-]. apply List.Forall_forall. intros it Hit.
    apply in_map_iff in Hit as (link & <- & _). reflexivity. }
  destruct (findFileFilterRule _ _) as [rule|e]; [|discriminate].
  destruct (climb _ _); [|discriminate].
  destruct (match nodeItemCache _ with Some _ => _ | None => _ end) as [nodes|];
    [|discriminate].
  injection Hg as <- _.
  apply in_app_or in Hin as [Hin|Hin].
  - apply in_map_iff in Hin as (item' & [= ->] & Hin).
    apply (Permutation_in _ (sortBy_perm _ _ _)) in Hin.
    apply in_map_iff in Hin as (item0 & <- & Hin).
    apply filter_In in Hin as [Hin Hkeep].
    assert (Hi0 : identified item0).
    { destruct (fileItemCache self1) as [cache1|] eqn:E1; [|destruct Hin].
      specialize (H1 _ E1). rewrite List.Forall_forall in H1. now apply H1. }
    simpl. unfold identified in Hi0. rewrite Hi0.
    unfold offered in Hkeep. apply andb_true_iff in Hkeep as [Hkeep _].
    apply andb_true_iff in Hkeep as [Hkeep _].
    apply negb_true_iff in Hkeep. now apply String.eqb_neq.
  - apply in_map_iff in Hin as (n & [=] & _).
Qed.

End CacheClaims.

(** C4 as stated does not hold: after the cache build for a document,
    the cache holds the candidate of that very document. *)
Example cache_holds_requesting_document :
  let platform := Sample.platform [] [] [] in
  let document := Editor.document (Sample.world EmptyString "/w/src/main.js" [] []) in
  exists result self' cache item,
    Language.getItems (Language.new Sample.options false) document
      ["/w/src/main.js"; "/w/src/util.js"] = Some (result, self') /\
    Language.Reachable self' /\
    Language.fileItemCache self' = Some cache /\
    In item cache /\
    FileItem.id item = Platform.fullPath (Platform.newFileInfo (Editor.fileName document)).
Proof.
  intros platform document.
  destruct (Language.getItems (Language.new Sample.options false) document
              ["/w/src/main.js"; "/w/src/util.js"]) as [[result self']|] eqn:E;
    [|vm_compute in E; discriminate].
  exists result, self'.
  assert (Hc : exists cache item, Language.fileItemCache self' = Some cache /\ In item cache /\
             FileItem.id item = "/w/src/main.js").
  { vm_compute in E. injection E as _ <-. eexists. eexists.
    split; [reflexivity|]. split; [left; reflexivity | reflexivity]. }
  destruct Hc as (cache & item & Hc & Hin & Hid).
  exists cache, item. repeat split; try assumption.
  eapply Language.reachable_getItems; [apply Language.reachable_new | exact E].
Qed.

(** ** Runs of the editor monad *)

Section RunLogic.
Import Js Value Editor.

Lemma runs_conseq {A} (m : M A) (Q Q' : Completion A -> list Event -> Prop) :
  runs m Q -> (forall r es, Q r es -> Q' r es) -> runs m Q'.
Proof.
  intros Hm HQ w. destruct (Hm w) as (es & Hl & Hlin & Hd & Hq).
  exists es. auto.
Qed.

Lemma runs_silent {A} (m : M A) (Q : Completion A -> list Event -> Prop) :
  (forall w, log (snd (m w)) = log w /\ linter (snd (m w)) = linter w /\
             document (snd (m w)) = document w /\ Q (fst (m w)) []) ->
  runs m Q.
Proof.
  intros Hm w. destruct (Hm w) as (Hl & Hlin & Hd & Hq).
  exists []. rewrite app_nil_r. auto.
Qed.

Lemma runs_ret {A} (a : A) (Q : Completion A -> list Event -> Prop) :
  Q (Normal a) [] -> runs (mret a) Q.
Proof. intros HQ. apply runs_silent. intros w. simpl. auto. Qed.

Lemma runs_lift {A} (c : Completion A) (Q : Completion A -> list Event -> Prop) :
  Q c [] -> runs (lift c) Q.
Proof. intros HQ. apply runs_silent. intros w. simpl. auto. Qed.

Lemma changes_app es1 es2 : changes (es1 ++ es2) = changes es1 ++ changes es2.
Proof. apply List.filter_app. Qed.

Lemma replay_app linter es1 es2 d :
  replay linter (es1 ++ es2) d = replay linter es2 (replay linter es1 d).
Proof. apply fold_left_app. Qed.

Lemma replay_unchanged linter es d : changes es = [] -> replay linter es d = d.
Proof.
  revert d. induction es as [|e es IH]; intros d Hc; [reflexivity|].
  unfold changes in Hc. simpl in Hc. destruct (isChange e) eqn:E; [discriminate|].
  simpl. rewrite <- (IH d Hc) at 2. f_equal. now destruct e.
Qed.

Lemma runs_bind {A B} (m : M A) (k : A -> M B)
    (Q1 : Completion A -> list Event -> Prop)
    (Q2 : A -> Completion B -> list Event -> Prop)
    (Q : Completion B -> list Event -> Prop) :
  runs m Q1 ->
  (forall a es1, Q1 (Normal a) es1 -> runs (k a) (Q2 a)) ->
  (forall e es, Q1 (Throw e) es -> Q (Throw e) es) ->
  (forall a es1 r es2, Q1 (Normal a) es1 -> Q2 a r es2 -> Q r (es1 ++ es2)) ->
  runs (m ≫= k) Q.
Proof.
  intros Hm Hk Ht Hn w. unfold mbind, M_bind.
  destruct (Hm w) as (es1 & Hl1 & Hlin1 & Hd1 & Hq1).
  destruct (m w) as [[a|e] w1]; simpl in *.
  - destruct (Hk a es1 Hq1 w1) as (es2 & Hl2 & Hlin2 & Hd2 & Hq2).
    exists (es1 ++ es2). rewrite Hl2, Hl1, app_assoc. split; [reflexivity|].
    split; [congruence|]. split; [|now apply (Hn a)].
    now rewrite replay_app, Hd2, Hlin1, Hd1.
  - exists es1. auto.
Qed.

Lemma runs_notify (e : Event) (Q : Completion unit -> list Event -> Prop) :
  isChange e = false -> Q (Normal tt) [e] -> runs (notify e) Q.
Proof.
  intros He HQ w. exists [e]. simpl. repeat split; try assumption.
  now destruct e.
Qed.

Lemma runs_edit (e : TextEdit) (Q : Completion unit -> list Event -> Prop) :
  Q (Normal tt) [Edited e] -> runs (edit e) Q.
Proof. intros HQ w. exists [Edited e]. simpl. auto. Qed.

Lemma runs_fixESLint (Q : Completion unit -> list Event -> Prop) :
  Q (Normal tt) [] -> Q (Normal tt) [LinterRan] -> runs fixESLint Q.
Proof.
  intros H0 H1 w. unfold fixESLint. destruct (linter w) eqn:E.
  - exists [LinterRan]. simpl. rewrite E. auto.
  - exists []. simpl. rewrite app_nil_r. auto.
Qed.

Lemma runs_showQuickPick items placeHolder (Q : Completion (option nat) -> list Event -> Prop) :
  (forall answer, Q (Normal answer) [QuickPickShown items placeHolder answer]) ->
  runs (showQuickPick items placeHolder) Q.
Proof. intros HQ w. eexists. simpl. repeat split. apply HQ. Qed.

Lemma runs_showWarningModal message options
    (Q : Completion (option nat) -> list Event -> Prop) :
  (forall answer, Q (Normal answer) [WarningModalShown message options answer]) ->
  runs (showWarningModal message options) Q.
Proof. intros HQ w. eexists. simpl. repeat split. apply HQ. Qed.

Lemma runs_isCancellationRequested (Q : Completion bool -> list Event -> Prop) :
  (forall b, Q (Normal b) []) -> runs isCancellationRequested Q.
Proof. intros HQ. apply runs_silent. intros w. simpl. auto. Qed.

Lemma runs_readDocument (Q : Completion TextDocument -> list Event -> Prop) :
  (forall d, Q (Normal d) []) -> runs readDocument Q.
Proof. intros HQ. apply runs_silent. intros w. simpl. auto. Qed.

Lemma runs_readSelection (Q : Completion Position -> list Event -> Prop) :
  (forall p, Q (Normal p) []) -> runs readSelection Q.
Proof. intros HQ. apply runs_silent. intros w. simpl. auto. Qed.

Lemma emits_bind P {A B} (m : M A) (k : A -> M B) :
  emits P m -> (forall a, emits P (k a)) -> emits P (m ≫= k).
Proof.
  intros Hm Hk.
  apply (runs_bind m k (fun _ es => Forall P es) (fun _ _ es => Forall P es));
    [exact Hm | intros a _ _; apply Hk | auto |].
  intros a es1 r es2 H1 H2. apply Forall_app. auto.
Qed.


Lemma emits_isCancellationRequested P : emits P isCancellationRequested.
Proof. apply runs_isCancellationRequested. constructor. Qed.

Lemma emits_readDocument P : emits P readDocument.
Proof. apply runs_readDocument. constructor. Qed.


Lemma emits_ret P {A} (a : A) : emits P (mret a).
Proof. apply runs_ret. constructor. Qed.

Lemma emits_lift P {A} (c : Completion A) : emits P (lift c).
Proof. apply runs_lift. constructor. Qed.

Lemma emits_notify (P : Event -> Prop) e : isChange e = false -> P e -> emits P (notify e).
Proof. intros Hc He. apply runs_notify; [exact Hc|]. now repeat constructor. Qed.

Lemma emits_edit (P : Event -> Prop) e : P (Edited e) -> emits P (edit e).
Proof. intros He. apply runs_edit. now repeat constructor. Qed.

Lemma emits_fixESLint (P : Event -> Prop) : P LinterRan -> emits P fixESLint.
Proof. intros He. apply runs_fixESLint; now repeat constructor. Qed.

Lemma emits_focusAt (P : Event -> Prop) s e :
  (forall p, P (Revealed p)) -> emits P (focusAt s e).
Proof.
  intros HP. unfold focusAt.
  repeat (apply emits_bind; [apply emits_lift | intros ?]).
  now apply emits_notify.
Qed.

End RunLogic.

(** ** Fixing broken imports: what is collected *)

Section FixCollection.
Import Js Value Platform JavaScript TreeSearch Editor Language.
Context `{Platform}.

Lemma importsToFix_paths body items :
  importsToFix body = Normal items ->
  Forall (fun item =>
    isFixablePath (originalRelativePath item) = true /\
    exists node, In node (collection body) /\
      isFixableImport node = Normal true /\
      stringValue (prop "source" node) = Normal (originalRelativePath item) /\
      newImportStatement (originalRelativePath item) (prop "loc" (prop "source" node))
      = Normal item) items.
Proof.
  unfold importsToFix. intros Hi.
  destruct (filterM isFixableImport (collection body)) as [nodes|] eqn:Ef;
    simpl in Hi; [|discriminate].
  apply List.Forall_forall. intros item Hin.
  destruct (mapM_Normal _ _ _ Hi _ Hin) as (node & Hnode & Hmk).
  destruct (filterM_Normal _ _ _ Ef _ Hnode) as [Hbody Hfix].
  destruct (stringValue (prop "source" node)) as [v|] eqn:Ev; simpl in Hmk; [|discriminate].
  assert (Hpath : originalRelativePath item = v).
  { unfold newImportStatement in Hmk.
    destruct (get "start" _); simpl in Hmk; [|discriminate].
    destruct (get "end" _); simpl in Hmk; [|discriminate].
    destruct (rangeOf _ _); simpl in Hmk; [|discriminate].
    now injection Hmk as <-. }
  rewrite Hpath. split.
  - unfold isFixableImport in Hfix.
    destruct (get "type" node); simpl in Hfix; [|discriminate].
    destruct (isStr _ _); [|discriminate].
    rewrite Ev in Hfix. simpl in Hfix. now injection Hfix.
  - exists node. repeat split; assumption.
Qed.






Lemma isFixablePath_spec v :
  isFixablePath v = true <->
  Str.startsWith v "." = true /\ Str.includes v "?" = false /\
  Str.includes v "!" = false /\ Str.includes v DQUOTE = false.
Proof.
  unfold isFixablePath. rewrite !andb_true_iff, !negb_true_iff. tauto.
Qed.






End FixCollection.

(** C6 at the failing input: two broken imports on one line, each with
    exactly one match. The first literal is rewritten in place. The
    range of the second was computed before that edit: the replacement
    lands four columns to the left of the literal and takes its quote
    from the text there, so that the literal is neither rewritten in
    place nor given its original quote character. *)
Example fixImport_second_fix_on_a_line_is_misplaced :
  let platform := Sample.twoImportsPlatform in
  let out := Language.fixImport (Language.new Sample.options false)
               Sample.twoImportsWorld in
  fst out = Js.Normal (Some true) /\
  Editor.edits (Editor.log (snd out))
  = [Editor.Replace (Editor.newRange {| Editor.line := 0; Editor.character := 14 |}
                                     {| Editor.line := 0; Editor.character := 19 |})
       "'./lib/a'";
     Editor.Replace (Editor.newRange {| Editor.line := 0; Editor.character := 35 |}
                                     {| Editor.line := 0; Editor.character := 40 |})
       (String Editor.DQUOTE ("./lib/b" +:+ String Editor.DQUOTE EmptyString))] /\
  Forall (fun e => Editor.isPick e = false) (Editor.log (snd out)) /\
  Editor.text (Editor.document (snd out)) = Sample.twoImportsLeft /\
  Sample.twoImportsLeft <> Sample.twoImportsFixed.
Proof.
  vm_compute. repeat split; try reflexivity.
  - repeat constructor.
  - discriminate.
Qed.

(** C1 as stated does not hold at the naming-conflict dialog: the
    dialog is dismissed and the new statement is inserted all the same. *)
Example dismissed_conflict_dialog_still_inserts :
  let platform := Sample.conflictPlatform in
  let item := FileItem.new "/w/src/foo.js" "/w" Sample.options
                FileItem.WORKING_EXTENSION in
  let out := FileItem.addImport 8 item Sample.conflictWorld in
  (exists message options,
     In (Editor.WarningModalShown message options None) (Editor.log (snd out))) /\
  Editor.text (Editor.document (snd out))
  = "import foo from './foo'" +:+ Sample.newline +:+ Sample.conflictText /\
  Editor.text (Editor.document (snd out))
  <> Editor.text (Editor.document Sample.conflictWorld).
Proof.
  vm_compute. repeat split.
  - eexists. eexists. left. reflexivity.
  - discriminate.
Qed.

(** ** Adding an import: the suspension points *)

Section AddImportRuns.
Import Js Value Platform JavaScript TreeSearch Editor FileItem.
Context `{Platform}.

Ltac emits_step :=
  first
    [ apply emits_ret
    | apply emits_lift
    | apply emits_notify; [reflexivity|]
    | apply emits_edit
    | apply emits_fixESLint
    | apply emits_focusAt
    | apply emits_readDocument
    | apply runs_readSelection; constructor
    | apply emits_bind; [|intros ?]
    | match goal with
      | |- emits _ (match ?x with _ => _ end) => destruct x
      | |- emits _ (if ?x then _ else _) => destruct x
      end ].

Lemma focusAtLoc_emits loc : emits noPrompt (focusAtLoc loc).
Proof. unfold focusAtLoc. repeat emits_step; intros; reflexivity. Qed.

Lemma focusAtImport_emits stub : emits noPrompt (focusAtImport stub).
Proof. unfold focusAtImport. repeat emits_step; intros; reflexivity. Qed.

Lemma replaceWithNamespace_emits document node_ name :
  emits noPrompt (replaceWithNamespace document node_ name).
Proof. unfold replaceWithNamespace. repeat emits_step; reflexivity. Qed.

Lemma mergeInto_emits document duplicateImport b :
  emits noPrompt (mergeInto document duplicateImport b).
Proof.
  unfold mergeInto.
  repeat first [ apply focusAtLoc_emits | apply replaceWithNamespace_emits | emits_step ];
    reflexivity.
Qed.

Lemma edits_app es1 es2 : edits (es1 ++ es2) = edits es1 ++ edits es2.
Proof. apply flat_map_app. Qed.

Lemma noPrompt_noPick es : Forall noPrompt es -> Forall (fun e => isPick e = false) es.
Proof.
  apply List.Forall_impl. intros e He. unfold noPrompt, isPrompt in He.
  now apply orb_false_iff in He as [He _].
Qed.

Lemma noPrompt_not_dialog es message options answer :
  Forall noPrompt es -> ~ In (WarningModalShown message options answer) es.
Proof.
  intros Hf Hin. rewrite List.Forall_forall in Hf. specialize (Hf _ Hin). discriminate.
Qed.

(** The conflict dialog: only the answer [Replace It] deletes. *)
Lemma conflictDialog_runs (duplicateVariable : option Found) iden :
  runs (match duplicateVariable with
        | Some duplicate =>
            selectedOption ← showWarningModal
              ("Do you want to replace the existing " +:+ quoted iden +:+ "?")
              [REPLACE_IT; KEEP_BOTH];
            match selectedOption with
            | Some 0 =>
                range ← lift (rangeOf (startOfFound duplicate) (endOfFound duplicate));
                edit (Delete range)
            | _ => mret tt
            end
        | None => mret tt
        end)
       (fun r es => Forall (fun e => isPick e = false) es /\
          forall message options answer,
            In (WarningModalShown message options answer) es -> answer <> Some 0 ->
            r = Normal tt /\ edits es = []).
Proof.
  destruct duplicateVariable as [duplicate|].
  - eapply runs_bind.
    + apply runs_showWarningModal with
        (Q := fun r es => exists answer,
                r = Normal answer /\
                es = [WarningModalShown
                        ("Do you want to replace the existing " +:+ quoted iden +:+ "?")
                        [REPLACE_IT; KEEP_BOTH] answer]).
      intros answer. now exists answer.
    + intros selected es1 (answer & [= <-] & ->).
      instantiate (1 := fun selected r es =>
        Forall (fun e => isPick e = false /\ isDialog e = false) es /\
        (selected <> Some 0 -> r = Normal tt /\ es = [])).
      destruct selected as [[|n]|].
      * eapply runs_bind; [apply runs_lift with (Q := fun _ es => es = []); reflexivity | | |].
        -- intros range es1 ->. apply runs_edit with
             (Q := fun _ es => Forall (fun e => isPick e = false /\ isDialog e = false) es).
           repeat constructor.
        -- intros e es ->. split; [constructor | congruence].
        -- intros a es1 r es2 -> H2. simpl. split; [exact H2 | congruence].
      * apply runs_ret. split; [constructor | auto].
      * apply runs_ret. split; [constructor | auto].
    + intros e es (answer & [=] & _).
    + intros selected es1 r es2 (answer & [= <-] & ->) [Hf Hr]. split.
      * constructor; [reflexivity|].
        eapply List.Forall_impl; [|exact Hf]. now intros e [He _].
      * intros message options answer [[= <- <- <-]|Hin] Hne.
        -- destruct (Hr Hne) as [-> ->]. auto.
        -- rewrite List.Forall_forall in Hf. destruct (Hf _ Hin) as [_ Hd]. discriminate.
  - apply runs_ret. split; [constructor|]. intros ? ? ? [].
Qed.

Lemma insertStatement_runs self document existingImports beforeFirstImport b :
  runs (insertStatement self document existingImports beforeFirstImport b)
       (fun r es => Forall (fun e => isPick e = false) es /\
          forall message options answer,
            In (WarningModalShown message options answer) es -> answer <> Some 0 ->
            r = Normal tt /\ exists position snippet, edits es = [Insert position snippet]).
Proof.
  unfold insertStatement.
  set (Post := fun (r : Completion unit) es =>
         Forall (fun e => isPick e = false) es /\
         forall message options answer,
           In (WarningModalShown message options answer) es -> answer <> Some 0 ->
           r = Normal tt /\ exists position snippet, edits es = [Insert position snippet]).
  apply (runs_bind _ _ (fun _ es => es = []) (fun _ => Post)).
  - now apply runs_lift.
  - intros duplicateVariable es0 _.
    apply (runs_bind _ _
             (fun r es => Forall (fun e => isPick e = false) es /\
                forall message options answer,
                  In (WarningModalShown message options answer) es -> answer <> Some 0 ->
                  r = Normal tt /\ edits es = [])
             (fun _ r es => r = Normal tt /\ Forall noPrompt es /\
                            exists p s, edits es = [Insert p s])).
    + apply conflictDialog_runs.
    + intros u es1 _.
      apply (runs_bind _ _ (fun r es => r = Normal tt /\ exists p s, es = [Edited (Insert p s)])
                           (fun _ r es => r = Normal tt /\ (es = [] \/ es = [LinterRan]))).
      * apply runs_edit. split; [reflexivity|]. eauto.
      * intros u' es2 _. apply runs_fixESLint; auto.
      * intros e es [[=] _].
      * intros a es2 r es3 [_ (p & s & ->)] [-> Hl].
        split; [reflexivity|]. destruct Hl as [->| ->]; simpl;
          (split; [repeat constructor | eauto]).
    + intros e es [Hf Hd]. split; [exact Hf|].
      intros message options answer Hin Hne.
      destruct (Hd _ _ _ Hin Hne) as [[=] _].
    + intros a es1 r es2 [Hf1 Hd] (-> & Hf2 & p & s & He2).
      split; [apply Forall_app; split; [exact Hf1 | now apply noPrompt_noPick]|].
      intros message options answer Hin Hne. split; [reflexivity|].
      apply in_app_or in Hin as [Hin|Hin].
      * destruct (Hd _ _ _ Hin Hne) as [_ He1]. exists p, s.
        now rewrite edits_app, He1, He2.
      * now apply noPrompt_not_dialog in Hin.
  - intros e es ->. split; [constructor|]. intros ? ? ? [].
  - intros a es1 r es2 -> H2. exact H2.
Qed.

Lemma quiet_selection es : Forall quiet es -> Forall isSelection es.
Proof.
  apply List.Forall_impl. intros e [Hc Hp]. split; [exact Hc|].
  unfold isPrompt in Hp. now apply orb_false_iff in Hp as [_ Hp].
Qed.

Lemma quiet_no_pick es : Forall quiet es -> ~ someDismissedPick es.
Proof.
  intros Hf (items & ph & a & Hin & _). rewrite List.Forall_forall in Hf.
  destruct (Hf _ Hin) as [_ Hp]. discriminate.
Qed.

Lemma settled_of_quiet {A} (m : M (option A)) : emits quiet m -> runs m settled.
Proof.
  intros Hm. eapply runs_conseq; [exact Hm|]. intros r es Hq. split.
  - now apply quiet_selection.
  - intros Hd. now apply quiet_no_pick in Hd.
Qed.

Lemma settled_bind_quiet {A B} (m : M A) (k : A -> M (option B)) :
  emits quiet m -> (forall a, runs (k a) settled) -> runs (m ≫= k) settled.
Proof.
  intros Hm Hk.
  apply (runs_bind m k (fun _ es => Forall quiet es) (fun _ => settled)).
  - exact Hm.
  - intros a _ _. apply Hk.
  - intros e es Hq. split; [now apply quiet_selection|].
    intros Hd. now apply quiet_no_pick in Hd.
  - intros a es1 r es2 Hq [Hs Hd]. split.
    + apply Forall_app. split; [now apply quiet_selection | exact Hs].
    + intros (items & ph & ans & Hin & Hdis). apply Hd.
      apply in_app_or in Hin as [Hin|Hin].
      * exfalso. apply (quiet_no_pick es1 Hq). now exists items, ph, ans.
      * now exists items, ph, ans.
Qed.

Lemma chooseExport_spec iden exportedVariables :
  runs (chooseExport iden exportedVariables)
       (fun r es => exists answer,
          es = [QuickPickShown ("*" :: exportedVariables) EmptyString answer] /\
          ((dismissedPick ("*" :: exportedVariables) answer /\ r = Normal None) \/
           (~ dismissedPick ("*" :: exportedVariables) answer /\
            exists x, r = Normal (Some x)))).
Proof.
  unfold chooseExport.
  set (items := "*" :: exportedVariables).
  apply (runs_bind _ _
           (fun r es => exists answer, r = Normal answer /\
                                       es = [QuickPickShown items EmptyString answer])
           (fun answer r es => es = [] /\
              ((dismissedPick items answer /\ r = Normal None) \/
               (~ dismissedPick items answer /\ exists x, r = Normal (Some x))))).
  - apply runs_showQuickPick. intros answer. now exists answer.
  - intros answer es1 _. unfold dismissedPick.
    destruct (answer ≫= _) as [selectedName|].
    + destruct (String.eqb_spec selectedName EmptyString) as [->|Hne].
      * apply runs_ret. auto.
      * destruct (String.eqb selectedName "*"); apply runs_ret;
          (split; [reflexivity | right; split; [exact Hne | eauto]]).
    + apply runs_ret. auto.
  - intros e es (answer & [=] & _).
  - intros answer es1 r es2 (answer' & [= <-] & ->) [-> Hd]. now exists answer.
Qed.

Lemma chooseExport_settled {A} iden exportedVariables
    (k : option (string * string) -> M (option A)) :
  k None = mret None ->
  (forall x, exists y, k (Some x) = mret (Some y)) ->
  runs (chooseExport iden exportedVariables ≫= k) settled.
Proof.
  intros Hnone Hsome.
  apply (runs_bind _ _ _ (fun chosen r es => es = [] /\ (chosen = None -> r = Normal None))
           _ (chooseExport_spec iden exportedVariables)).
  - intros chosen es1 _. destruct chosen as [x|].
    + destruct (Hsome x) as [y ->]. apply runs_ret. split; auto; discriminate.
    + rewrite Hnone. apply runs_ret. split; auto.
  - intros e es (answer & _ & [[_ [=]]|[_ [x [=]]]]).
  - intros chosen es1 r es2 (answer & -> & Hcases) [-> Hn]. split.
    + repeat constructor.
    + intros (items' & ph & ans & [[= <- <- <-]|[]] & Hdis).
      destruct Hcases as [[_ [= ->]]|[Hnot _]]; [now apply Hn | contradiction].
Qed.

Ltac quiet_step :=
  first
    [ apply emits_ret
    | apply emits_lift
    | apply emits_notify; [reflexivity | split; reflexivity]
    | apply emits_focusAt; intros; split; reflexivity
    | apply emits_bind; [|intros ?]
    | match goal with
      | |- emits _ (match ?x with _ => _ end) => destruct x
      | |- emits _ (if ?x then _ else _) => destruct x
      end ].

Lemma viaIndexFile_settled depth self existingImports directory b :
  runs (viaIndexFile depth self existingImports directory b) settled.
Proof.
  unfold viaIndexFile.
  destruct (hasIndexFile self); [|apply settled_of_quiet, emits_ret].
  apply settled_bind_quiet.
  - unfold focusAtImport. repeat quiet_step.
  - intros [proceed|]; [|apply settled_of_quiet, emits_ret].
    destruct (map baseToString _) as [|only [|another more]].
    + apply settled_of_quiet, emits_ret.
    + apply settled_of_quiet, emits_ret.
    + apply chooseExport_settled; [reflexivity|].
      intros [n i]. eexists. reflexivity.
Qed.

Lemma viaForeignFile_settled depth self b :
  runs (viaForeignFile depth self b) settled.
Proof.
  unfold viaForeignFile.
  apply settled_bind_quiet; [apply emits_lift|]. intros codeText.
  apply settled_bind_quiet; [apply emits_lift|]. intros [|].
  - apply settled_of_quiet, emits_ret.
  - destruct (map baseToString _) as [|one more].
    + apply settled_of_quiet, emits_ret.
    + apply chooseExport_settled; [reflexivity|].
      intros [n i]. eexists. reflexivity.
Qed.

Lemma settled_bind {A B} (m : M (option A)) (k : option A -> M (option B)) :
  runs m settled -> k None = mret None -> (forall a, runs (k (Some a)) settled) ->
  runs (m ≫= k) settled.
Proof.
  intros Hm Hnone Hk.
  apply (runs_bind m k settled
           (fun a r es => match a with
                          | None => es = [] /\ r = Normal None
                          | Some _ => settled r es
                          end)).
  - exact Hm.
  - intros [a|] es1 _; [apply Hk|]. rewrite Hnone. now apply runs_ret.
  - intros e es [Hs Hd]. split; [exact Hs|]. intros Hx. now apply Hd in Hx.
  - intros [a|] es1 r es2 [Hs1 Hd1] H2.
    + destruct H2 as [Hs2 Hd2]. split; [now apply Forall_app|].
      intros (items & ph & ans & Hin & Hdis).
      apply in_app_or in Hin as [Hin|Hin].
      * assert (Hx : someDismissedPick es1) by now exists items, ph, ans.
        apply Hd1 in Hx. discriminate.
      * apply Hd2. now exists items, ph, ans.
    + destruct H2 as [-> ->]. rewrite app_nil_r. split; auto.
Qed.

Lemma settleBinding_settled depth self existingImports directory :
  runs (settleBinding depth self existingImports directory) settled.
Proof.
  unfold settleBinding.
  apply settled_bind_quiet; [apply emits_lift|]. intros [name path].
  destruct (syntax (options self)); [|apply settled_of_quiet, emits_ret].
  apply settled_bind; [apply viaIndexFile_settled | reflexivity |].
  intros [b' [|]]; [apply settled_of_quiet, emits_ret | apply viaForeignFile_settled].
Qed.

Lemma completed_of_noPrompt (m : M unit) : emits noPrompt m -> runs m completed.
Proof.
  intros Hm. eapply runs_conseq; [exact Hm|]. intros r es Hf. split.
  - now apply noPrompt_noPick.
  - intros message options answer Hin. now apply noPrompt_not_dialog in Hin.
Qed.

Lemma complete_runs self document existingImports beforeFirstImport b :
  runs (complete self document existingImports beforeFirstImport b) completed.
Proof.
  unfold complete. destruct (getDuplicateImport _ _) as [duplicateImport|].
  - apply completed_of_noPrompt.
    apply emits_bind; [apply emits_lift|]. intros [|].
    + apply mergeInto_emits.
    + apply emits_bind; [now apply emits_notify|]. intros _.
      apply focusAtImport_emits.
  - apply insertStatement_runs.
Qed.

Lemma isSelection_no_edits es : Forall isSelection es -> edits es = [] /\ changes es = [].
Proof.
  induction 1 as [|e es [Hc Hd] _ [IH1 IH2]]; [split; reflexivity|].
  unfold changes in *. simpl. rewrite Hc, IH2.
  destruct e; try discriminate; simpl; rewrite IH1; auto.
Qed.

Lemma isSelection_not_dialog es message options answer :
  Forall isSelection es -> ~ In (WarningModalShown message options answer) es.
Proof.
  intros Hf Hin. rewrite List.Forall_forall in Hf.
  destruct (Hf _ Hin) as [_ Hd]. discriminate.
Qed.

Lemma addImportPost_of_noPrompt (m : M unit) : emits noPrompt m -> runs m addImportPost.
Proof.
  intros Hm. eapply runs_conseq; [exact Hm|]. intros r es Hf. split.
  - intros (items & ph & ans & Hin & _). rewrite List.Forall_forall in Hf.
    specialize (Hf _ Hin). discriminate.
  - intros message options answer Hin. now apply noPrompt_not_dialog in Hin.
Qed.

Lemma addImportPost_bind_lift {A} (c : Completion A) (k : A -> M unit) :
  (forall a, runs (k a) addImportPost) -> runs (lift c ≫= k) addImportPost.
Proof.
  intros Hk. apply (runs_bind _ _ (fun _ es => es = []) (fun _ => addImportPost)).
  - now apply runs_lift.
  - intros a _ _. apply Hk.
  - intros e es ->. split.
    + intros (items & ph & ans & [] & _).
    + intros ? ? ? [].
  - intros a es1 r es2 -> H2. exact H2.
Qed.

Lemma addImport_runs depth self : runs (addImport depth self) addImportPost.
Proof.
  unfold addImport.
  apply (runs_bind _ _ (fun _ es => es = []) (fun _ => addImportPost)).
  - apply runs_readDocument. reflexivity.
  - intros document _ _.
    apply addImportPost_bind_lift. intros existingImports.
    apply addImportPost_bind_lift. intros beforeFirstImport.
    destruct (extension self _).
    + apply (runs_bind _ _ settled
               (fun chosen r es => match chosen with
                                   | None => es = [] /\ r = Normal tt
                                   | Some _ => completed r es
                                   end)).
      * apply settleBinding_settled.
      * intros [b|] es1 _; [apply complete_runs | now apply runs_ret].
      * intros e es [Hs Hd]. split.
        -- intros Hx. apply Hd in Hx. discriminate.
        -- intros message options answer Hin. now apply isSelection_not_dialog in Hin.
      * intros [b|] es1 r es2 [Hs Hd] H2.
        -- destruct H2 as [Hp Hdialog]. split.
           ++ intros (items & ph & ans & Hin & Hdis).
              apply in_app_or in Hin as [Hin|Hin].
              ** assert (Hx : someDismissedPick es1) by now exists items, ph, ans.
                 apply Hd in Hx. discriminate.
              ** rewrite List.Forall_forall in Hp. specialize (Hp _ Hin). discriminate.
           ++ intros message options answer Hin Hne.
              apply in_app_or in Hin as [Hin|Hin];
                [now apply isSelection_not_dialog in Hin|].
              destruct (Hdialog _ _ _ Hin Hne) as [-> (p & s & He)].
              split; [reflexivity|]. exists p, s.
              destruct (isSelection_no_edits _ Hs) as [He1 _].
              now rewrite edits_app, He1, He.
        -- destruct H2 as [-> ->]. rewrite app_nil_r. split.
           ++ intros _. split; [reflexivity|]. now apply isSelection_no_edits.
           ++ intros message options answer Hin. now apply isSelection_not_dialog in Hin.
    + apply addImportPost_of_noPrompt.
      destruct (STYLE_EXTENSION _).
      * repeat first [ apply focusAtImport_emits | emits_step ]; reflexivity.
      * repeat emits_step; reflexivity.
  - intros e es ->. split.
    + intros (items & ph & ans & [] & _).
    + intros ? ? ? [].
  - intros a es1 r es2 -> H2. exact H2.
Qed.

Lemma changes_nil_edits es : changes es = [] -> edits es = [].
Proof.
  induction es as [|e es IH]; [reflexivity|]. unfold changes. simpl.
  destruct e; simpl; try discriminate; exact IH.
Qed.

Lemma replay_without_linter es d :
  text (replay None es d) = fold_left (fun t x => applyEdit x t) (edits es) (text d).
Proof.
  revert d. induction es as [|e es IH]; intros d; [reflexivity|].
  change (replay None (e :: es) d) with (replay None es (replayEvent None d e)).
  rewrite IH. destruct e; reflexivity.
Qed.

(** C1, as the code has it. In a run of [addImport]: when a quick pick
    (the choice between the exports of the index file, or of the file
    itself) is dismissed or its choice is empty, the operation returns
    with no edit applied and the document as it was. When the naming
    conflict dialog is answered by anything other than [Replace It],
    dismissal included, the operation does not abort: it deletes
    nothing and its one edit is the insertion of the new statement. *)
Theorem dismissed_choice_in_addImport depth self w :
  log w = [] ->
  let out := addImport depth self w in
  let es := log (snd out) in
  (someDismissedPick es ->
     fst out = Normal tt /\ edits es = [] /\ changes es = [] /\
     document (snd out) = document w) /\
  (forall message options answer,
     In (WarningModalShown message options answer) es -> answer <> Some 0 ->
     fst out = Normal tt /\
     exists position snippet,
       edits es = [Insert position snippet] /\
       (linter w = None ->
        text (document (snd out)) = applyEdit (Insert position snippet) (text (document w)))).
Proof.
  intros Hlog out es.
  destruct (addImport_runs depth self w) as (es' & Hl & Hlin & Hd & Hpick & Hdialog).
  fold out in Hl, Hlin, Hd, Hpick, Hdialog. rewrite Hlog in Hl. simpl in Hl.
  fold es in Hl. subst es'. split.
  - intros Hx. destruct (Hpick Hx) as [Hr Hc]. repeat split; try assumption.
    + now apply changes_nil_edits.
    + rewrite Hd. now apply replay_unchanged.
  - intros message options answer Hin Hne.
    destruct (Hdialog _ _ _ Hin Hne) as [Hr (p & s & He)].
    split; [exact Hr|]. exists p, s. split; [exact He|].
    intros Hnone. rewrite Hd, Hnone, replay_without_linter, He. reflexivity.
Qed.

End AddImportRuns.

(** ** Adding an import: the merge protocol *)

Section MergeProtocol.
Import Js Value Platform JavaScript TreeSearch Editor FileItem.
Context `{Platform}.

Lemma hasType_specifier type x :
  hasType type (Babylon.specifier x)
  = Normal (String.eqb (match x with
                        | Babylon.Default _ _ => "ImportDefaultSpecifier"
                        | Babylon.Named _ _ _ => "ImportSpecifier"
                        | Babylon.Namespace _ _ => "ImportNamespaceSpecifier"
                        end) type).
Proof. destruct x; reflexivity. Qed.


Lemma positionOf_position l c :
  positionOf (Babylon.position (S l) c) = Normal {| line := l; character := c |}.
Proof.
  unfold positionOf, Babylon.position. simpl. unfold newPosition.
  replace (Z.of_nat (S l) - 1)%Z with (Z.of_nat l) by lia.
  destruct (Z.ltb_spec (Z.of_nat l) 0); [lia|].
  destruct (Z.ltb_spec (Z.of_nat c) 0); [lia|]. simpl.
  now rewrite !Nat2Z.id.
Qed.

Lemma endOf_specifier x :
  endOf (Babylon.specifier x)
  = Normal (let s := match x with
                     | Babylon.Default s _ | Babylon.Named s _ _ | Babylon.Namespace s _ => s
                     end in
            {| line := Babylon.endLine s; character := Babylon.endColumn s |}).
Proof. destruct x; unfold endOf; simpl; apply positionOf_position. Qed.

Lemma isSameBinding_specifier (b : Binding.t) x :
  Str.startsWith (Binding.name b) "{" = true ->
  isSameBinding b (Babylon.specifier x)
  = Normal (match x with
            | Babylon.Named _ imported _ => String.eqb imported (Binding.iden b)
            | _ => false
            end).
Proof. intros Hn. destruct x; unfold isSameBinding; simpl; rewrite ?Hn; reflexivity. Qed.

Lemma sameBinding_found (b : Binding.t) specifiers :
  Str.startsWith (Binding.name b) "{" = true ->
  match Babylon.firstNamed (Binding.iden b) specifiers with
  | Some s =>
      exists imported local,
        findM (isSameBinding b) (map Babylon.specifier specifiers)
        = Normal (Some (Babylon.specifier (Babylon.Named s imported local)))
  | None =>
      findM (isSameBinding b) (map Babylon.specifier specifiers) = Normal None
  end.
Proof.
  intros Hn. induction specifiers as [|x rest IH]; simpl; [reflexivity|].
  rewrite (isSameBinding_specifier b x Hn).
  destruct x as [s l|s i l|s l]; simpl; try exact IH.
  destruct (String.eqb i (Binding.iden b)); [|exact IH]. now exists i, l.
Qed.

Lemma findM_app p l1 l2 :
  findM p (l1 ++ l2)
  = match findM p l1 with
    | Normal None => findM p l2
    | r => r
    end.
Proof.
  induction l1 as [|x l1 IH]; simpl; [reflexivity|].
  destruct (p x) as [[|]|]; simpl; auto.
Qed.

Lemma lastNamed_found specifiers :
  match Babylon.lastNamed specifiers with
  | Some s =>
      exists imported local,
        findM (hasType "ImportSpecifier") (rev (map Babylon.specifier specifiers))
        = Normal (Some (Babylon.specifier (Babylon.Named s imported local)))
  | None =>
      findM (hasType "ImportSpecifier") (rev (map Babylon.specifier specifiers))
      = Normal None
  end.
Proof.
  induction specifiers as [|x rest IH]; simpl; [reflexivity|].
  rewrite findM_app. destruct (Babylon.lastNamed rest) as [s|].
  - destruct IH as (i & l & ->). now exists i, l.
  - rewrite IH. simpl. rewrite hasType_specifier.
    destruct x as [s l|s i l|s l]; simpl; try reflexivity. now exists i, l.
Qed.


Lemma bind_lift_Normal {A B} (a : A) (k : A -> M B) w : (lift (Normal a) ≫= k) w = k a w.
Proof. reflexivity. Qed.

Lemma bind_ret {A B} (a : A) (k : A -> M B) w : (mret a ≫= k) w = k a w.
Proof. reflexivity. Qed.

Lemma bind_notify {B} e (k : unit -> M B) w : (notify e ≫= k) w = k tt (record e w).
Proof. reflexivity. Qed.

Lemma prop_defined key v : defined (prop key v) -> defined v.
Proof. destruct v; simpl; tauto. Qed.

Lemma get_defined key v : defined v -> get key v = Normal (prop key v).
Proof. destruct v; simpl; tauto. Qed.

Lemma defined_Str v s : v = Str s -> defined v.
Proof. now intros ->. Qed.

Lemma defined_Num v n : v = Num n -> defined v.
Proof. now intros ->. Qed.

Lemma hasType_tree type x v :
  Babylon.isSpecifier x v ->
  hasType type v = Normal (String.eqb (Babylon.specifierType x) type).
Proof.
  intros (Ht & _). unfold Babylon.reads in Ht. simpl in Ht.
  unfold hasType. rewrite get_defined by (eapply prop_defined, defined_Str, Ht).
  now rewrite Ht.
Qed.

Lemma no_namespace_tree specifiers trees :
  Forall2 Babylon.isSpecifier specifiers trees ->
  forallb (fun x => negb (Babylon.isNamespace x)) specifiers = true ->
  findM (hasType "ImportNamespaceSpecifier") trees = Normal None.
Proof.
  induction 1 as [|x v specifiers trees Hx _ IH]; simpl; [reflexivity|].
  intros Hn. apply andb_true_iff in Hn as [Hx' Hrest].
  rewrite (hasType_tree _ x v Hx). destruct x; try discriminate; simpl; auto.
Qed.

Lemma positionOf_tree e l c :
  prop "line" e = Num (Z.of_nat (S l)) -> prop "column" e = Num (Z.of_nat c) ->
  positionOf e = Normal {| line := l; character := c |}.
Proof.
  intros Hl Hc. unfold positionOf.
  rewrite !get_defined by (eapply prop_defined, defined_Num, Hl).
  rewrite Hl, Hc. simpl. unfold newPosition.
  replace (Z.of_nat (S l) - 1)%Z with (Z.of_nat l) by lia.
  destruct (Z.ltb_spec (Z.of_nat l) 0); [lia|].
  destruct (Z.ltb_spec (Z.of_nat c) 0); [lia|]. simpl.
  now rewrite !Nat2Z.id.
Qed.

Lemma endOf_tree x v :
  Babylon.isSpecifier x v ->
  endOf v = Normal {| line := Babylon.endLine (Babylon.specifierSpan x);
                      character := Babylon.endColumn (Babylon.specifierSpan x) |}.
Proof.
  intros (_ & _ & _ & _ & Hl & Hc). unfold Babylon.reads in Hl, Hc. simpl in Hl, Hc.
  pose proof (prop_defined _ _ (defined_Num _ _ Hl)) as He.
  pose proof (prop_defined _ _ He) as Hloc.
  pose proof (prop_defined _ _ Hloc) as Hv.
  unfold endOf. rewrite (get_defined "loc" v Hv). simpl.
  rewrite (get_defined "end" _ Hloc). simpl.
  now apply positionOf_tree.
Qed.

Lemma isSameBinding_tree (b : Binding.t) x v :
  Str.startsWith (Binding.name b) "{" = true ->
  Babylon.isSpecifier x v ->
  isSameBinding b v
  = Normal (match x with
            | Babylon.Named _ imported _ => String.eqb imported (Binding.iden b)
            | _ => false
            end).
Proof.
  intros Hn (Ht & Hi & _). unfold Babylon.reads in Ht, Hi. simpl in Ht, Hi.
  pose proof (prop_defined _ _ (defined_Str _ _ Ht)) as Hv.
  unfold isSameBinding. rewrite (get_defined "type" v Hv), Ht. simpl. rewrite Hn.
  destruct x as [s l|s i l|s l]; simpl; try reflexivity.
  pose proof (prop_defined _ _ (defined_Str _ _ Hi)) as Himported.
  rewrite (get_defined "imported" v Hv). simpl.
  rewrite (get_defined "name" _ Himported). simpl. now rewrite Hi.
Qed.

Lemma sameBinding_tree (b : Binding.t) specifiers trees :
  Str.startsWith (Binding.name b) "{" = true ->
  Forall2 Babylon.isSpecifier specifiers trees ->
  match Babylon.firstNamed (Binding.iden b) specifiers with
  | Some s =>
      exists x v,
        Babylon.specifierSpan x = s /\ Babylon.isSpecifier x v /\
        findM (isSameBinding b) trees = Normal (Some v)
  | None => findM (isSameBinding b) trees = Normal None
  end.
Proof.
  intros Hn. induction 1 as [|x v specifiers trees Hx _ IH]; simpl; [reflexivity|].
  rewrite (isSameBinding_tree b x v Hn Hx).
  destruct x as [s l|s i l|s l]; simpl; try exact IH.
  destruct (String.eqb i (Binding.iden b)); [|exact IH].
  exists (Babylon.Named s i l), v. auto.
Qed.

Lemma lastNamed_tree specifiers trees :
  Forall2 Babylon.isSpecifier specifiers trees ->
  match Babylon.lastNamed specifiers with
  | Some s =>
      exists x v,
        Babylon.specifierSpan x = s /\ Babylon.isSpecifier x v /\
        findM (hasType "ImportSpecifier") (rev trees) = Normal (Some v)
  | None => findM (hasType "ImportSpecifier") (rev trees) = Normal None
  end.
Proof.
  induction 1 as [|x v specifiers trees Hx _ IH]; simpl; [reflexivity|].
  rewrite findM_app. destruct (Babylon.lastNamed specifiers) as [s|].
  - destruct IH as (x' & v' & Hs & Hv & ->). now exists x', v'.
  - rewrite IH. simpl. rewrite (hasType_tree _ x v Hx).
    destruct x as [s l|s i l|s l]; simpl; try reflexivity.
    exists (Babylon.Named s i l), v. auto.
Qed.

Lemma focusAtLoc_tree x v w :
  Babylon.isSpecifier x v ->
  (loc ← lift (get "loc" v); focusAtLoc loc) w
  = (Normal tt,
     record (Revealed {| line := Babylon.startLine (Babylon.specifierSpan x);
                         character := Babylon.endColumn (Babylon.specifierSpan x) |}) w).
Proof.
  intros (_ & _ & Hsl & _ & _ & Hec). unfold Babylon.reads in Hsl, Hec. simpl in Hsl, Hec.
  pose proof (prop_defined _ _ (defined_Num _ _ Hsl)) as Hs.
  pose proof (prop_defined _ _ (defined_Num _ _ Hec)) as He.
  pose proof (prop_defined _ _ Hs) as Hloc.
  pose proof (prop_defined _ _ Hloc) as Hv.
  rewrite (get_defined "loc" v Hv), bind_lift_Normal.
  unfold focusAtLoc.
  rewrite (get_defined "start" _ Hloc), bind_lift_Normal.
  rewrite (get_defined "end" _ Hloc), bind_lift_Normal.
  unfold focusAt.
  rewrite (get_defined "line" _ Hs), Hsl, (get_defined "column" _ He), Hec.
  cbn [mbind Completion_bind cbind number].
  rewrite !bind_lift_Normal. unfold newPosition.
  replace (Z.of_nat (S (Babylon.startLine (Babylon.specifierSpan x))) - 1)%Z
    with (Z.of_nat (Babylon.startLine (Babylon.specifierSpan x))) by lia.
  destruct (Z.ltb_spec (Z.of_nat (Babylon.startLine (Babylon.specifierSpan x))) 0); [lia|].
  destruct (Z.ltb_spec (Z.of_nat (Babylon.endColumn (Babylon.specifierSpan x))) 0); [lia|].
  simpl. rewrite bind_lift_Normal. unfold notify. now rewrite !Nat2Z.id.
Qed.

(** The statement that [getDuplicateImport] finds: the first one of the
    path. *)
Lemma getDuplicateImport_first earlier duplicateImport later p :
  Forall (fun stub => path stub <> Str p) earlier ->
  path duplicateImport = Str p ->
  getDuplicateImport (earlier ++ duplicateImport :: later) p = Some duplicateImport.
Proof.
  intros Hearlier Hp. unfold getDuplicateImport.
  induction Hearlier as [|stub earlier Hstub _ IH]; simpl.
  - rewrite Hp. simpl. now rewrite String.eqb_refl.
  - destruct (isStr (path stub) p) eqn:E; [|exact IH].
    exfalso. apply Hstub. unfold isStr in E. destruct (path stub); try discriminate.
    apply String.eqb_eq in E. now subst.
Qed.

(** The merge of a named binding into an import declaration without a
    namespace specifier. *)
Lemma mergeInto_named document duplicateImport iden p specifiers trees w :
  prop "specifiers" (node duplicateImport) = Arr trees ->
  Forall2 Babylon.isSpecifier specifiers trees ->
  forallb (fun x => negb (Babylon.isNamespace x)) specifiers = true ->
  let b := {| Binding.name := "{ " +:+ iden +:+ " }"; Binding.iden := iden;
              Binding.path := p |} in
  mergeInto document duplicateImport b w
  = match Babylon.firstNamed iden specifiers with
    | Some s =>
        (Normal tt,
         record (Revealed {| line := Babylon.startLine s;
                             character := Babylon.endColumn s |})
           (record (InformationMessage
                      ("The module " +:+ quoted iden +:+ " has been already imported."))
                   w))
    | None =>
        match Babylon.lastNamed specifiers with
        | Some s =>
            (edit (Insert {| line := Babylon.endLine s; character := Babylon.endColumn s |}
                          (", " +:+ iden)) ≫= fun _ => fixESLint) w
        | None => mergeInto document duplicateImport b w
        end
    end.
Proof.
  intros Hspecifiers Htrees Hns b.
  assert (Hname : Str.startsWith (Binding.name b) "{" = true) by reflexivity.
  assert (Hstar : Str.startsWith (Binding.name b) "*" = false) by reflexivity.
  pose proof (sameBinding_tree b specifiers trees Hname Htrees) as Hsame.
  pose proof (lastNamed_tree specifiers trees Htrees) as Hlast.
  change (Binding.iden b) with iden in Hsame.
  destruct (Babylon.firstNamed iden specifiers) as [s|];
    [|destruct (Babylon.lastNamed specifiers) as [s|]; [|reflexivity]];
    unfold mergeInto; rewrite Hspecifiers;
    unfold arrayFind; rewrite (no_namespace_tree _ _ Htrees Hns);
    rewrite bind_lift_Normal, bind_ret, Hstar.
  - destruct Hsame as (x & v & <- & Hv & ->).
    rewrite bind_lift_Normal, bind_notify.
    apply (focusAtLoc_tree x v _ Hv).
  - rewrite Hsame, bind_lift_Normal, Hname.
    destruct Hlast as (x & v & <- & Hv & Hlast). unfold findLast. rewrite Hlast.
    rewrite bind_lift_Normal, (endOf_tree x v Hv), bind_lift_Normal. reflexivity.
Qed.

(** C2. With grouping enabled, let the statements that the document
    imports with be [imports], let [duplicateImport] be the first of
    them that has the path [p], an import declaration whose specifiers
    the parser gave as [trees], none of them a namespace specifier, and
    let the new binding be the named binding [{ iden }] of [p]. The
    operation then acts on that declaration. If no named specifier of it
    imports [iden], the operation makes one edit: it inserts [, iden]
    directly after the last named specifier of the declaration, so that
    the declaration binds what it bound and then [iden], and no
    statement is added. If a named specifier imports [iden] already, the
    operation edits nothing, leaves the document as it is and reports
    that the module has been already imported. *)
Theorem merge_protocol self w beforeFirstImport imports earlier duplicateImport later
    specifiers trees iden p :
  grouping (options self) = true ->
  getExistingImports (parse (text (document w))) = Normal imports ->
  imports = earlier ++ duplicateImport :: later ->
  Forall (fun stub => path stub <> Str p) earlier ->
  path duplicateImport = Str p ->
  prop "type" (node duplicateImport) = Str "ImportDeclaration" ->
  prop "specifiers" (node duplicateImport) = Arr trees ->
  Forall2 Babylon.isSpecifier specifiers trees ->
  forallb (fun x => negb (Babylon.isNamespace x)) specifiers = true ->
  let b := {| Binding.name := "{ " +:+ iden +:+ " }"; Binding.iden := iden;
              Binding.path := p |} in
  let out := complete self (document w) imports beforeFirstImport b w in
  (forall s,
     Babylon.firstNamed iden specifiers = None ->
     Babylon.lastNamed specifiers = Some s ->
     let e := Insert {| line := Babylon.endLine s; character := Babylon.endColumn s |}
                     (", " +:+ iden) in
     fst out = Normal tt /\
     log (snd out)
     = log w ++ Edited e :: match linter w with Some _ => [LinterRan] | None => [] end /\
     (linter w = None ->
      document (snd out) = withText (applyEdit e (text (document w))) (document w))) /\
  (forall s,
     Babylon.firstNamed iden specifiers = Some s ->
     fst out = Normal tt /\
     document (snd out) = document w /\
     log (snd out)
     = log w ++ [InformationMessage
                   ("The module " +:+ quoted iden +:+ " has been already imported.");
                 Revealed {| line := Babylon.startLine s;
                             character := Babylon.endColumn s |}]).
Proof.
  intros Hgroup _ -> Hearlier Hpath Htype Hspecifiers Htrees Hns b out.
  assert (Hout : out = mergeInto (document w) duplicateImport b w).
  { unfold out, complete. change (Binding.path b) with p.
    rewrite (getDuplicateImport_first _ _ _ _ Hearlier Hpath), Hgroup.
    unfold hasType.
    rewrite (get_defined "type" _ (prop_defined _ _ (defined_Str _ _ Htype))), Htype.
    simpl. now rewrite bind_lift_Normal. }
  rewrite Hout. unfold b.
  rewrite (mergeInto_named (document w) duplicateImport iden p specifiers trees w
             Hspecifiers Htrees Hns).
  split.
  - intros s Hfirst Hlast. rewrite Hfirst, Hlast.
    unfold mbind, M_bind, edit, fixESLint. simpl.
    destruct (linter w) eqn:Hl; simpl.
    + repeat split; [now rewrite <- app_assoc | discriminate].
    + repeat split.
  - intros s Hfirst. rewrite Hfirst. simpl. repeat split.
    now rewrite <- app_assoc.
Qed.

End MergeProtocol.

(** ** The claims at concrete inputs *)

(** C5 as stated does not hold: of the literal [./lib//] the code
    records [./lib], where trimming one trailing slash gives [./lib/]. *)
Example recorded_path_loses_every_trailing_slash :
  exists imp,
    JavaScript.getExistingImports Sample.slashTree = Js.Normal [imp] /\
    JavaScript.path imp = Value.Str "./lib" /\
    JavaScript.trimOneTrailingSlash "./lib//" = "./lib/" /\
    JavaScript.path imp <> Value.Str (JavaScript.trimOneTrailingSlash "./lib//").
Proof.
  eexists. split; [vm_compute; reflexivity|].
  split; [reflexivity|]. split; [reflexivity|]. vm_compute. discriminate.
Qed.

(** C5 at the import of [./lib//]. *)
Lemma existing_imports_path_and_range_witness :
  JavaScript.getExistingImports Sample.slashTree = Js.Normal [Sample.slashImport] /\
  Forall (JavaScript.extractedFrom Sample.slashTree) [Sample.slashImport].
Proof.
  split; [vm_compute; reflexivity|].
  apply (existing_imports_path_and_range Sample.slashTree).
  vm_compute. reflexivity.
Defined.

(** C7 at a history [a; b; c] of bound 3: marking [d], which is not in
    the history, puts it at the front and drops the oldest id, [c]. *)
Lemma recency_rank_and_mark_used_witness :
  let self := RecentSelectedItems.moduleHistory in
  let x := RecentSelectedItems.moduleName "d" in
  RecentSelectedItems.sort self "JavaScript"
    (map RecentSelectedItems.moduleName ["x"; "c"; "y"; "a"])
  = map RecentSelectedItems.moduleName ["a"; "c"; "x"; "y"] /\
  RecentSelectedItems.history
    (RecentSelectedItems.markAsRecentlyUsed self "JavaScript" x) "JavaScript"
  = ["node://d"; "node://a"; "node://b"].
Proof.
  intros self x.
  destruct (recency_rank_and_mark_used self "JavaScript"
              (map RecentSelectedItems.moduleName ["x"; "c"; "y"; "a"]) x)
    as (_ & Hrank & Hmark & _).
  split.
  - destruct Hrank as (_ & _ & _ & -> & _); [vm_compute; discriminate|].
    vm_compute. reflexivity.
  - destruct Hmark as (_ & _ & Hdrop & _).
    + reflexivity.
    + apply (bool_decide_unpack _). vm_compute. exact I.
    + vm_compute. discriminate.
    + rewrite Hdrop.
      * vm_compute. reflexivity.
      * apply (bool_decide_unpack _). vm_compute. exact I.
      * vm_compute. reflexivity.
Defined.

(** C7 fails outside these conditions. A history that comes from
    storage can be longer than the bound, which may have been lowered
    since it was stored: a mark then drops one id only, and the bound is
    not enforced. With a bound of zero the id that is marked is dropped
    at once and is not at the front of the history. *)
Example mark_does_not_enforce_the_bound :
  let stored : gmap string (option (list string)) :=
    {["JavaScript" := Some ["a"; "b"; "c"; "d"]]} in
  let self := RecentSelectedItems.fromJSON (RecentSelectedItems.new 2) stored in
  RecentSelectedItems.limit self = 2%Z /\
  RecentSelectedItems.history
    (RecentSelectedItems.markAsRecentlyUsed self "JavaScript" "z") "JavaScript"
  = ["z"; "a"; "b"; "c"] /\
  RecentSelectedItems.history
    (RecentSelectedItems.markAsRecentlyUsed (RecentSelectedItems.new 0) "JavaScript" "q")
    "JavaScript"
  = [].
Proof. vm_compute. repeat split. Qed.

(** C8 on the example platform: no rule is configured and the
    convention is the default one. *)
Lemma name_transform_partial_witness :
  let platform := Sample.platform [] [] [] in
  JavaScript.getVariableName "0" Sample.options = Js.Throw Js.TypeError.
Proof.
  intros platform.
  apply (name_transform_partial Sample.options []); (reflexivity || constructor).
Defined.

(** C4 on a workspace of two files: the candidates returned for
    [main.js] do not hold [main.js]. *)
Lemma returned_items_exclude_requesting_document_witness :
  let platform := Sample.platform [] [] [] in
  let document := Editor.document (Sample.world EmptyString "/w/src/main.js" [] []) in
  exists items self',
    Language.getItems (Language.new Sample.options false) document
      ["/w/src/main.js"; "/w/src/util.js"] = Some (Js.Normal (Some items), self') /\
    forall item, In (Language.OfFile item) items -> FileItem.id item <> "/w/src/main.js".
Proof.
  intros platform document. eexists. eexists. split; [vm_compute; reflexivity|].
  intros item Hin.
  change "/w/src/main.js"
    with (Platform.fullPath (Platform.newFileInfo (Editor.fileName document))).
  revert item Hin.
  eapply (returned_items_exclude_requesting_document
            (Language.new Sample.options false) document
            ["/w/src/main.js"; "/w/src/util.js"]).
  - apply Language.reachable_new.
  - vm_compute. reflexivity.
Defined.



(** C1 on a file with one named export: the quick pick between [*] and
    [helper] is dismissed, nothing is edited and the document is as it
    was. *)
Lemma dismissed_choice_in_addImport_witness :
  let platform := Sample.utilPlatform in
  let item := FileItem.new "/w/src/util.js" "/w" Sample.options
                FileItem.WORKING_EXTENSION in
  let out := FileItem.addImport 8 item Sample.utilWorld in
  fst out = Js.Normal tt /\
  Editor.edits (Editor.log (snd out)) = [] /\
  Editor.document (snd out) = Editor.document Sample.utilWorld.
Proof.
  intros platform item out.
  destruct (dismissed_choice_in_addImport 8 item Sample.utilWorld eq_refl)
    as [Hpick _].
  destruct Hpick as (Hr & He & _ & Hd).
  - exists ["*"; "helper"], EmptyString, None. split; [|exact I].
    vm_compute. left. reflexivity.
  - auto.
Defined.

(** C2 on [import { a } from './m']: adding the named binding [b] of
    the same path makes the line [import { a, b } from './m']. *)
Lemma merge_protocol_witness :
  let platform := Sample.groupPlatform in
  let item := FileItem.new "/w/src/m.js" "/w" Sample.options
                FileItem.WORKING_EXTENSION in
  let out := FileItem.addImport 8 item Sample.groupWorld in
  fst out = Js.Normal tt /\
  Editor.text (Editor.document (snd out)) = Sample.groupedText.
Proof.
  intros platform item out.
  set (first_ := JavaScript.importOfDeclaration (Sample.namedImport 0 0 "x" "./n")).
  set (second_ := JavaScript.importOfDeclaration (Sample.namedImport 1 24 "a" "./m")).
  set (b := {| Binding.name := "{ b }"; Binding.iden := "b"; Binding.path := "./m" |}).
  set (w := snd (Editor.showQuickPick ["*"; "a"; "b"] EmptyString Sample.groupWorld)).
  assert (Hout : out = FileItem.complete item (Editor.document w) [first_; second_]
                         {| Editor.line := 0; Editor.character := 0 |} b w)
    by (vm_compute; reflexivity).
  destruct (merge_protocol item w {| Editor.line := 0; Editor.character := 0 |}
              [first_; second_] [first_] second_ []
              [Babylon.Named (Sample.onLine 1 24 9 10) "a" "a"]
              [Babylon.node "ImportSpecifier" (Sample.onLine 1 24 9 10)
                 [("imported", Babylon.identifier (Sample.onLine 1 24 9 10) "a");
                  ("importKind", Value.Null);
                  ("local", Babylon.identifier (Sample.onLine 1 24 9 10) "a")]]
              "b" "./m") as [Hnew _];
    try reflexivity.
  - repeat constructor. discriminate.
  - repeat constructor.
  - destruct (Hnew (Sample.onLine 1 24 9 10) eq_refl eq_refl) as (Hr & _ & Hd).
    rewrite Hout. split; [exact Hr|].
    etransitivity; [exact (f_equal Editor.text (Hd eq_refl))|].
    vm_compute. reflexivity.
Defined.
(** ** The recently-used list: storage and repeated marks *)

Section RecentStorage.
Import Js RecentSelectedItems.

Lemma fromJSON_lookup (self : t) (json : gmap string (option (list string))) language :
  data (fromJSON self json) !! language
  = match json !! language with
    | Some ids => Some (default [] ids)
    | None => data self !! language
    end.
Proof.
  unfold fromJSON. simpl.
  apply (map_fold_weak_ind
           (fun r (m : gmap string (option (list string))) =>
              r !! language = match m !! language with
                              | Some ids => Some (default [] ids)
                              | None => data self !! language
                              end)).
  - now rewrite lookup_empty.
  - intros i x m r Hi IH.
    destruct (decide (i = language)) as [->|Hne].
    + now rewrite !lookup_insert_eq.
    + rewrite !lookup_insert_ne by exact Hne. exact IH.
Qed.

Lemma toJSON_data (self : t) : toJSON self = data self.
Proof.
  unfold toJSON.
  apply (map_fold_weak_ind (fun r (m : gmap string (list string)) => r = m)).
  - reflexivity.
  - intros i x m r _ ->. reflexivity.
Qed.

(** X1. What [fromJSON] restores and what [toJSON] stores, for
    candidates whose ids name no member of [Object.prototype]. After
    [fromJSON], the history of a language that the stored object names
    is the stored list (the empty list when the stored value is
    [null]), and the history of any other language is what it was.
    Storing a list and restoring it into a new instance gives back the
    same histories, so that candidates are ranked as before; the bound
    is not part of what is stored. *)
Theorem stored_history_is_restored {A} `{OwnIds A} (self : t)
    (json : gmap string (option (list string))) (limit' : Z) :
  (forall language,
     history (fromJSON self json) language
     = match json !! language with
       | Some ids => default [] ids
       | None => history self language
       end) /\
  (forall language, json !! language = Some None ->
     has (fromJSON self json) language = false) /\
  data (fromJSON (new limit') (Some <$> toJSON self)) = data self /\
  (forall language (items : list A),
     sort (fromJSON (new limit') (Some <$> toJSON self)) language items
     = sort self language items) /\
  limit (fromJSON self json) = limit self /\
  limit (fromJSON (new limit') (Some <$> toJSON self)) = limit'.
Proof.
  assert (Hdata : data (fromJSON (new limit') (Some <$> toJSON self)) = data self).
  { apply map_eq. intros language. rewrite fromJSON_lookup, toJSON_data, lookup_fmap.
    destruct (data self !! language); reflexivity. }
  split; [|split; [|split; [|split; [|split]]]].
  - intros language. unfold history. rewrite fromJSON_lookup.
    destruct (json !! language); reflexivity.
  - intros language Hj. unfold has. rewrite fromJSON_lookup, Hj. reflexivity.
  - exact Hdata.
  - intros language items. unfold sort, has. rewrite Hdata. reflexivity.
  - reflexivity.
  - reflexivity.
Qed.

End RecentStorage.

(** X1 at the history of three modules, stored and restored into an
    instance of bound 5. *)
Lemma stored_history_is_restored_witness :
  let self := RecentSelectedItems.moduleHistory in
  let restored :=
    RecentSelectedItems.fromJSON (RecentSelectedItems.new 5)
      (Some <$> RecentSelectedItems.toJSON self) in
  RecentSelectedItems.history restored "JavaScript" = ["node://a"; "node://b"; "node://c"] /\
  RecentSelectedItems.sort restored "JavaScript"
    (map RecentSelectedItems.moduleName ["x"; "c"; "a"])
  = map RecentSelectedItems.moduleName ["a"; "c"; "x"] /\
  RecentSelectedItems.limit restored = 5%Z.
Proof.
  intros self restored.
  destruct (stored_history_is_restored (A := RecentSelectedItems.ModuleName)
              self ∅ 5) as (_ & _ & Hdata & Hsort & _ & Hlimit).
  split; [|split].
  - unfold RecentSelectedItems.history, restored. rewrite Hdata. reflexivity.
  - unfold restored. rewrite Hsort. vm_compute. reflexivity.
  - exact Hlimit.
Defined.

Section RecentRepeat.
Import Js RecentSelectedItems.
Context {A : Type} `{Item A}.

Lemma indexOf_head x rest : indexOf x (x :: rest) = Some 0.
Proof. simpl. now rewrite String.eqb_refl. Qed.

Lemma splice1_length i (ids : list string) :
  i < length ids -> length (splice1 i ids) = length ids - 1.
Proof.
  intros Hi. unfold splice1. rewrite length_app, length_take, length_drop. lia.
Qed.

Lemma indexOf_lt x ids i : indexOf x ids = Some i -> i < length ids.
Proof.
  revert i. induction ids as [|y rest IH]; intros i; simpl; [discriminate|].
  destruct (String.eqb y x).
  - intros [= <-]. lia.
  - destruct (indexOf x rest) as [j|]; simpl; [|discriminate].
    intros [= <-]. specialize (IH j eq_refl). lia.
Qed.

Lemma removelast_length {X} (l : list X) : length (removelast l) = length l - 1.
Proof.
  induction l as [|a [|b l] IH]; simpl in *; try reflexivity. rewrite IH. lia.
Qed.

(** X2. Marking the same candidate twice is marking it once, as long
    as the history is within a positive bound: the second mark finds the
    id at the front and leaves the history as it is. *)
Theorem mark_twice_is_mark_once (self : t) (language : string) (x : A) :
  (0 < limit self)%Z ->
  (Z.of_nat (length (history self language)) <= limit self)%Z ->
  let self' := markAsRecentlyUsed self language x in
  history (markAsRecentlyUsed self' language x) language = history self' language /\
  hd_error (history self' language) = Some (id x).
Proof.
  intros Hpos Hlen self'.
  assert (Hl : limit self' = limit self) by reflexivity.
  rewrite (history_markAsRecentlyUsed self' language x), Hl.
  unfold self'. rewrite (history_markAsRecentlyUsed self language x).
  set (old := history self language) in *.
  assert (Hfirst : exists rest, markList (limit self) (id x) old = id x :: rest /\
                     (Z.of_nat (length (id x :: rest)) <= limit self)%Z).
  { unfold markList.
    destruct (indexOf (id x) old) as [i|] eqn:Ei.
    - pose proof (indexOf_lt _ _ _ Ei) as Hi.
      pose proof (splice1_length i old Hi) as Hs.
      destruct (Z.ltb_spec (limit self) (Z.of_nat (length (id x :: splice1 i old)))) as [Hlt|Hge].
      + simpl in Hlt. lia.
      + eexists. split; [reflexivity|exact Hge].
    - destruct (Z.ltb_spec (limit self) (Z.of_nat (length (id x :: old)))) as [Hlt|Hge].
      + destruct old as [|y old']; [simpl in Hlt; lia|].
        change (removelast (id x :: y :: old')) with (id x :: removelast (y :: old')).
        eexists. split; [reflexivity|].
        change (length (id x :: removelast (y :: old')))
          with (S (length (removelast (y :: old')))).
        rewrite removelast_length.
        change (length (id x :: y :: old')) with (S (length (y :: old'))) in Hlt.
        change (length (y :: old')) with (S (length old')) in *. lia.
      + eexists. split; [reflexivity|exact Hge]. }
  destruct Hfirst as (rest & -> & Hrest). split; [|reflexivity].
  unfold markList. rewrite indexOf_head.
  change (splice1 0 (id x :: rest)) with rest.
  destruct (Z.ltb_spec (limit self) (Z.of_nat (length (id x :: rest)))); [lia|reflexivity].
Qed.

(** X3. A mark removes at most one id from a history, whatever the
    bound: the history afterwards is the id that was marked followed by
    the other ids, without the last one when that list is longer than
    the bound. A history that is more than one entry over the bound
    (one restored from storage after the bound was lowered) is still
    over the bound after a mark. *)
Theorem mark_drops_at_most_one (self : t) (language : string) (x : A) :
  let old := history self language in
  let self' := markAsRecentlyUsed self language x in
  let marked := id x :: match indexOf (id x) old with
                        | Some i => splice1 i old
                        | None => old
                        end in
  history self' language
  = (if (limit self <? Z.of_nat (length marked))%Z then removelast marked else marked) /\
  length old - 1 <= length (history self' language) /\
  ((limit self + 1 < Z.of_nat (length old))%Z ->
   (limit self < Z.of_nat (length (history self' language)))%Z).
Proof.
  intros old self' marked.
  assert (Hh : history self' language
               = if (limit self <? Z.of_nat (length marked))%Z
                 then removelast marked else marked).
  { unfold self'. rewrite (history_markAsRecentlyUsed self language x). reflexivity. }
  assert (Hm : length old <= length marked).
  { unfold marked. destruct (indexOf (id x) old) as [i|] eqn:Ei; simpl; [|lia].
    rewrite (splice1_length i old (indexOf_lt _ _ _ Ei)). lia. }
  assert (Hlen : length old - 1 <= length (history self' language)).
  { rewrite Hh. destruct (_ <? _)%Z; [rewrite removelast_length|]; lia. }
  split; [exact Hh|]. split; [exact Hlen|]. lia.
Qed.

End RecentRepeat.

(** X2 at the history [a; b; c] of bound 3, marking [b]. *)
Lemma mark_twice_is_mark_once_witness :
  let self := RecentSelectedItems.exampleHistory in
  let self' := RecentSelectedItems.markAsRecentlyUsed self "JavaScript" "b" in
  RecentSelectedItems.history
    (RecentSelectedItems.markAsRecentlyUsed self' "JavaScript" "b") "JavaScript"
  = RecentSelectedItems.history self' "JavaScript" /\
  hd_error (RecentSelectedItems.history self' "JavaScript") = Some "b".
Proof.
  refine (mark_twice_is_mark_once RecentSelectedItems.exampleHistory "JavaScript" "b" _ _).
  - reflexivity.
  - vm_compute. discriminate.
Defined.

(** ** The candidates of [getItems] and the file cache *)

Section CandidateFacts.
Import Js Value Platform JavaScript Editor Language.
Context `{Platform}.

Lemma climb_unfold rootPath segments :
  climb rootPath segments
  = if endsClimb rootPath (ancestorPath segments 0) then Some (ancestorPath segments 0)
    else match segments with
         | [] => None
         | _ :: rest => climb rootPath rest
         end.
Proof.
  unfold endsClimb, ancestorPath. rewrite drop_0.
  destruct segments; simpl; rewrite <- negb_orb;
    destruct (_ || _); reflexivity.
Qed.

Lemma ancestorPath_past segments k :
  length segments <= k -> ancestorPath segments k = ancestorPath segments (length segments).
Proof.
  intros Hk. unfold ancestorPath. rewrite !drop_ge by lia. reflexivity.
Qed.

Lemma climb_Some rootPath segments p :
  climb rootPath segments = Some p ->
  exists k, k <= length segments /\ p = ancestorPath segments k /\
    endsClimb rootPath p = true /\
    forall j, j < k -> endsClimb rootPath (ancestorPath segments j) = false.
Proof.
  induction segments as [|s rest IH]; rewrite climb_unfold;
    destruct (endsClimb rootPath (ancestorPath _ 0)) eqn:E; try discriminate.
  - intros [= <-]. exists 0.
    split; [simpl; lia|]. split; [reflexivity|]. split; [exact E|intros j Hj; lia].
  - intros [= <-]. exists 0.
    split; [simpl; lia|]. split; [reflexivity|]. split; [exact E|intros j Hj; lia].
  - intros Hc. destruct (IH Hc) as (k & Hk & -> & He & Hbefore).
    exists (S k).
    split; [simpl; lia|]. split; [reflexivity|]. split; [exact He|].
    intros [|j] Hj; [exact E|]. apply (Hbefore j). lia.
Qed.

Lemma climb_None rootPath segments :
  climb rootPath segments = None ->
  forall k, endsClimb rootPath (ancestorPath segments k) = false.
Proof.
  induction segments as [|s rest IH]; rewrite climb_unfold;
    destruct (endsClimb rootPath (ancestorPath _ 0)) eqn:E; try discriminate.
  - intros _ k. rewrite (ancestorPath_past [] k) by (simpl; lia). exact E.
  - intros Hc [|k]; [exact E|]. exact (IH Hc k).
Qed.

(** X4. The loop of [getItems] that climbs from the directory of the
    document to the nearest directory that is the workspace folder or
    holds a [package.json]. It stops at the first path on the way up
    that passes the test, and it does not end when no path on the way
    up passes it, the empty path included (a document outside the
    workspace folder, with no [package.json] above it): [getItems] then
    never returns. *)
Theorem package_json_search (self : Language.JavaScript) document fileLinks :
  let segments := segmentsOf document in
  let rootPath := workspaceFolder document in
  (forall p, climb rootPath segments = Some p <->
     exists k, k <= length segments /\ p = ancestorPath segments k /\
       endsClimb rootPath p = true /\
       forall j, j < k -> endsClimb rootPath (ancestorPath segments j) = false) /\
  (climb rootPath segments = None <->
     forall k, endsClimb rootPath (ancestorPath segments k) = false) /\
  (WORKING_LANGUAGE (languageId document) = true ->
   (getItems self document fileLinks = None <->
    (exists rule, findFileFilterRule (getLanguageOptions self)
                    (newFileInfo (fileName document)) = Normal rule) /\
    forall k, endsClimb rootPath (ancestorPath segments k) = false)).
Proof.
  intros segments rootPath.
  assert (Hnone : climb rootPath segments = None <->
                  forall k, endsClimb rootPath (ancestorPath segments k) = false).
  { split; [apply climb_None|].
    intros Hall. destruct (climb rootPath segments) as [p|] eqn:E; [|reflexivity].
    destruct (climb_Some _ _ _ E) as (k & _ & -> & He & _).
    rewrite Hall in He. discriminate. }
  split; [|split; [exact Hnone|]].
  - intros p. split; [apply climb_Some|].
    intros (k & Hk & -> & He & Hbefore).
    destruct (climb rootPath segments) as [q|] eqn:E.
    + destruct (climb_Some _ _ _ E) as (k' & _ & -> & He' & Hbefore').
      destruct (Nat.lt_trichotomy k k') as [Hlt|[->|Hgt]]; [|reflexivity|].
      * rewrite (Hbefore' k Hlt) in He. discriminate.
      * rewrite (Hbefore k' Hgt) in He'. discriminate.
    + rewrite (climb_None _ _ E) in He. discriminate.
  - intros Hlang. unfold getItems. rewrite Hlang. simpl negb. cbv iota.
    rewrite <- Hnone.
    change (rev (Str.split sep (Str.trimEnd (dirname (fileName document)) sep)))
      with segments.
    change (workspaceFolder document) with rootPath.
    destruct (fileItemCache self) as [cache|];
      change (getLanguageOptions (withFileItemCache _ self)) with (getLanguageOptions self);
      (destruct (findFileFilterRule (getLanguageOptions self)
                   (newFileInfo (fileName document))) as [rule|e];
       [|split; [discriminate|intros [[rule Hr] _]; discriminate]]);
      (destruct (climb rootPath segments) as [p|];
       [|split; [intros _; split; [now exists rule|reflexivity]|reflexivity]]);
      (split; [|intros [_ Hc]; discriminate]);
      match goal with |- context [match ?b with Normal _ => _ | Throw _ => _ end] =>
        destruct b end; discriminate.
Qed.

(** *** Order *)

Lemma sortKey_leb_total a b : sortKey_leb a b = false -> sortKey_leb b a = true.
Proof.
  unfold sortKey_leb. destruct (String.eqb_spec (fst a) (fst b)) as [Heq|Hne].
  - rewrite Heq, String.eqb_refl. intros Hf.
    destruct (String.leb_total (snd a) (snd b)) as [Ht|Ht]; [congruence|exact Ht].
  - destruct (String.eqb_spec (fst b) (fst a)) as [Heq'|_]; [now symmetry in Heq'|].
    intros Hf.
    destruct (String.leb_total (fst a) (fst b)) as [Ht|Ht]; [congruence|exact Ht].
Qed.

Lemma String_leb_total a b : String.leb a b = false -> String.leb b a = true.
Proof.
  intros Hf. destruct (String.leb_total a b) as [Ht|Ht]; [congruence|exact Ht].
Qed.

Lemma getItems_modulesSorted self document fileLinks result self' :
  getItems self document fileLinks = Some (result, self') ->
  modulesSorted self -> modulesSorted self'.
Proof.
  unfold getItems, modulesSorted. destruct (negb _); [now intros [= _ <-]|].
  destruct (fileItemCache self) as [cache|];
    change (getLanguageOptions (withFileItemCache _ self)) with (getLanguageOptions self);
    (destruct (findFileFilterRule _ _) as [rule|e]; [|intros [= _ <-] Hs; exact Hs]);
    (destruct (climb _ _) as [p|]; [|discriminate]);
    simpl nodeItemCache;
    (destruct (nodeItemCache self) as [nodes|] eqn:En;
     [intros [= _ <-] Hs nodes' [= <-]; apply Hs; reflexivity|]);
    (destruct (existsSync _); [|cbv beta iota; intros [= _ <-] _ nodes'; simpl; discriminate]);
    unfold buildNodeItemCache;
    (destruct (requireJson _) as [json|]; simpl;
     [|intros [= _ <-] _ n Hn; simpl in Hn; congruence]);
    (destruct (get "devDependencies" json); simpl;
     [|intros [= _ <-] _ n Hn; simpl in Hn; congruence]);
    (destruct (get "dependencies" json); simpl;
     [|intros [= _ <-] _ n Hn; simpl in Hn; congruence]);
    (destruct (mapM _ _) as [items|]; simpl;
     [|intros [= _ <-] _ n Hn; simpl in Hn; congruence]);
    intros [= _ <-] _ nodes' [= <-];
    apply sortBy_sorted; exact String_leb_total.
Qed.

Lemma reachable_modulesSorted self : Reachable self -> modulesSorted self.
Proof.
  induction 1 as [b a|self document fileLinks result self' _ IH Hg
                  |self filePath rootPath _ IH|self filePath _ IH|self _ IH].
  - intros nodes. discriminate.
  - exact (getItems_modulesSorted _ _ _ _ _ Hg IH).
  - unfold addItem. destruct (fileItemCache self); exact IH.
  - unfold cutItem. destruct (fileItemCache self); exact IH.
  - intros nodes. discriminate.
Qed.

Lemma getItems_returned self document fileLinks items self' :
  getItems self document fileLinks = Some (Normal (Some items), self') ->
  exists rule nodes,
    findFileFilterRule (getLanguageOptions self) (newFileInfo (fileName document))
    = Normal rule /\
    nodeItemCache self' = nodes /\
    items
    = map OfFile
        (sortBy sortKey_leb sortKey
           (map (setSortablePath (newFileInfo (fileName document)))
              (List.filter (offered self (newFileInfo (fileName document)) rule)
                 (cacheFor self document fileLinks))))
      ++ map OfNode (default [] nodes).
Proof.
  unfold getItems, cacheFor. destruct (negb _); [discriminate|].
  destruct (fileItemCache self) as [cache|] eqn:Ec; rewrite ?Ec;
    change (getLanguageOptions (withFileItemCache _ self)) with (getLanguageOptions self);
    (destruct (findFileFilterRule _ _) as [rule|e]; [|discriminate]);
    (destruct (climb _ _) as [p|]; [|discriminate]);
    match goal with |- context [match ?b with Normal _ => _ | Throw _ => _ end] =>
      destruct b as [nodes|] end; try discriminate;
    intros [= <- <-]; exists rule, nodes; repeat split.
Qed.

(** X5. The order of the candidates. What [getItems] returns is the
    file candidates followed by the module candidates; the file
    candidates are in the order of their sortable path and, for equal
    paths, of their sortable name, each with the sortable path computed
    for the requesting document; the module candidates are in the order
    of their names. *)
Theorem candidates_in_order self document fileLinks items self' :
  Reachable self ->
  getItems self document fileLinks = Some (Normal (Some items), self') ->
  exists files nodes,
    items = map OfFile files ++ map OfNode nodes /\
    Sorted (key_le sortKey_leb sortKey) files /\
    Sorted (key_le String.leb NodeItem.name) nodes /\
    Forall (fun file =>
              FileItem.sortablePath file
              = Some (getSortablePath (FileItem.fileInfo file)
                        (newFileInfo (fileName document)))) files.
Proof.
  intros Hreach Hg.
  pose proof (getItems_modulesSorted _ _ _ _ _ Hg (reachable_modulesSorted _ Hreach))
    as Hsorted.
  destruct (getItems_returned _ _ _ _ _ Hg) as (rule & nodes & _ & Hnodes & ->).
  eexists. exists (default [] nodes). split; [reflexivity|]. split; [|split].
  - apply sortBy_sorted. exact sortKey_leb_total.
  - destruct nodes as [nodes|]; [apply Hsorted; exact Hnodes|constructor].
  - apply List.Forall_forall. intros file Hin.
    apply (Permutation_in _ (sortBy_perm _ _ _)) in Hin.
    apply in_map_iff in Hin as (cached & <- & _). reflexivity.
Qed.

(** X6. Which files are offered. The file candidates that [getItems]
    returns are exactly the candidates of the cache that pass its three
    filters (not the requesting document, no TypeScript file unless the
    option allows them, and the file pattern of the rule that matches
    the document, when there is one), each with its sortable path set.
    In particular no [ts] or [tsx] file is offered when TypeScript files
    are not allowed. *)
Theorem offered_files_are_the_filtered_cache self document fileLinks items self' :
  getItems self document fileLinks = Some (Normal (Some items), self') ->
  let documentFileInfo := newFileInfo (fileName document) in
  exists rule,
    findFileFilterRule (getLanguageOptions self) documentFileInfo = Normal rule /\
    (forall item,
       In (OfFile item) items <->
       exists cached,
         In cached (cacheFor self document fileLinks) /\
         offered self documentFileInfo rule cached = true /\
         item = setSortablePath documentFileInfo cached) /\
    (allowTypeScriptFiles self = false ->
     forall item, In (OfFile item) items ->
       FileItem.TYPESCRIPT_EXTENSION
         (fileExtensionWithoutLeadingDot (FileItem.fileInfo item)) = false) /\
    (forall fileRule item,
       rule = Some fileRule -> In (OfFile item) items ->
       test (filePathPattern fileRule) (fullPathForPOSIX (FileItem.fileInfo item)) = true).
Proof.
  intros Hg documentFileInfo.
  destruct (getItems_returned _ _ _ _ _ Hg) as (rule & nodes & Hrule & _ & ->).
  exists rule. split; [exact Hrule|].
  assert (Hiff : forall item,
    In (OfFile item)
       (map OfFile
          (sortBy sortKey_leb sortKey
             (map (setSortablePath documentFileInfo)
                (List.filter (offered self documentFileInfo rule)
                   (cacheFor self document fileLinks))))
        ++ map OfNode (default [] nodes)) <->
    exists cached,
      In cached (cacheFor self document fileLinks) /\
      offered self documentFileInfo rule cached = true /\
      item = setSortablePath documentFileInfo cached).
  { intros item. rewrite in_app_iff. split.
    - intros [Hin|Hin].
      + apply in_map_iff in Hin as (item' & [= ->] & Hin).
        apply (Permutation_in _ (sortBy_perm _ _ _)) in Hin.
        apply in_map_iff in Hin as (cached & <- & Hin).
        apply filter_In in Hin as [Hin Hkeep].
        exists cached. repeat split; assumption.
      + apply in_map_iff in Hin as (n & [=] & _).
    - intros (cached & Hin & Hkeep & ->). left.
      apply in_map. apply (Permutation_in _ (Permutation_sym (sortBy_perm _ _ _))).
      apply in_map. apply filter_In. split; assumption. }
  split; [exact Hiff|]. split.
  - intros Hts item Hin. apply Hiff in Hin as (cached & _ & Hkeep & ->).
    unfold offered in Hkeep. rewrite Hts in Hkeep.
    apply andb_true_iff in Hkeep as [Hkeep _].
    apply andb_true_iff in Hkeep as [_ Hkeep].
    simpl in Hkeep. apply negb_true_iff in Hkeep. exact Hkeep.
  - intros fileRule item -> Hin. apply Hiff in Hin as (cached & _ & Hkeep & ->).
    unfold offered in Hkeep. apply andb_true_iff in Hkeep as [_ Hkeep]. exact Hkeep.
Qed.

(** X7. The file cache is built once. As long as a cache is there, a
    call of [getItems] does not look at the files of the workspace: the
    outcome is the same whatever they are. After [reset], the next call
    for a JavaScript document builds the cache again, one candidate for
    each file of the workspace in the order of the listing, identified
    by the full path of the file; candidates added or cut before the
    reset play no part. *)
Theorem file_cache_is_built_once self document fileLinks :
  (forall cache otherLinks,
     fileItemCache self = Some cache ->
     getItems self document fileLinks = getItems self document otherLinks) /\
  (forall result self',
     WORKING_LANGUAGE (languageId document) = true ->
     getItems (reset self) document fileLinks = Some (result, self') ->
     exists cache,
       fileItemCache self' = Some cache /\
       map FileItem.id cache = map (fun fileLink => fullPath (newFileInfo fileLink)) fileLinks /\
       map FileItem.fileInfo cache = map newFileInfo fileLinks) /\
  (WORKING_LANGUAGE (languageId document) = false ->
   getItems self document fileLinks = Some (Normal None, self)).
Proof.
  split; [|split].
  - intros cache otherLinks Hc. unfold getItems. rewrite Hc. reflexivity.
  - intros result self' Hlang. unfold getItems. rewrite Hlang. simpl negb. cbv iota.
    change (fileItemCache (reset self)) with (@None (list FileItem.FileItem)). cbv iota.
    change (getLanguageOptions (withFileItemCache _ (reset self)))
      with (getLanguageOptions self).
    destruct (findFileFilterRule _ _) as [rule|e].
    + destruct (climb _ _) as [p|]; [|discriminate].
      match goal with |- context [match ?b with Normal _ => _ | Throw _ => _ end] =>
        destruct b as [nodes|] end; intros [= _ <-]; simpl fileItemCache;
        eexists; (split; [reflexivity|]);
        rewrite !map_map; split; apply map_ext; intros fileLink;
        destruct (offered _ _ _ _); reflexivity.
    + intros [= _ <-]. simpl fileItemCache. eexists. split; [reflexivity|].
      rewrite !map_map. split; reflexivity.
  - intros Hlang. unfold getItems. rewrite Hlang. reflexivity.
Qed.

Lemma removeFirst_none {X} (p : X -> bool) (l : list X) :
  Forall (fun x => p x = false) l -> removeFirst p l = l.
Proof.
  induction 1 as [|x l Hx _ IH]; simpl; [reflexivity|]. now rewrite Hx, IH.
Qed.

Lemma removeFirst_app_new {X} (p : X -> bool) (l : list X) (x : X) (rest : list X) :
  Forall (fun y => p y = false) l -> p x = true ->
  removeFirst p (l ++ x :: rest) = l ++ rest.
Proof.
  induction 1 as [|y l Hy _ IH]; simpl; intros Hx; [now rewrite Hx|].
  now rewrite Hy, IH.
Qed.

Lemma withFileItemCache_same self cache :
  fileItemCache self = Some cache -> withFileItemCache (Some cache) self = self.
Proof. destruct self. simpl. now intros ->. Qed.

(** X8. The incremental updates of the file cache. Without a cache
    neither [addItem] nor [cutItem] does anything (no cache is built).
    With a cache, [addItem] appends a candidate for the file whether or
    not one is there already, and [cutItem] removes the first candidate
    of the file only: cutting a file that was just added restores the
    cache when the file was not in it before, cutting a file that is not
    cached changes nothing, and after adding a file twice one cut leaves
    one candidate of it. *)
Theorem add_then_cut self filePath rootPath :
  let sameFile := fun item : FileItem.FileItem =>
    String.eqb (fullPath (FileItem.fileInfo item)) (fullPath (newFileInfo filePath)) in
  (fileItemCache self = None ->
   addItem self filePath rootPath = self /\ cutItem self filePath = self) /\
  (forall cache,
     fileItemCache self = Some cache ->
     Forall (fun item => sameFile item = false) cache ->
     cutItem self filePath = self /\
     cutItem (addItem self filePath rootPath) filePath = self /\
     fileItemCache
       (cutItem (addItem (addItem self filePath rootPath) filePath rootPath) filePath)
     = Some (cache ++ [newFileItem self filePath rootPath])) /\
  (forall cache,
     fileItemCache self = Some cache ->
     fileItemCache (addItem self filePath rootPath)
     = Some (cache ++ [newFileItem self filePath rootPath]) /\
     forall before item after,
       cache = before ++ item :: after ->
       Forall (fun item => sameFile item = false) before -> sameFile item = true ->
       fileItemCache (cutItem self filePath) = Some (before ++ after)).
Proof.
  intros sameFile.
  assert (Hnew : sameFile (newFileItem self filePath rootPath) = true).
  { unfold sameFile, newFileItem, FileItem.new. simpl. apply String.eqb_refl. }
  split; [|split].
  - intros Hc. unfold addItem, cutItem. rewrite Hc. split; reflexivity.
  - intros cache Hc Hnone.
    assert (Hcut : cutItem self filePath = self).
    { unfold cutItem. rewrite Hc. fold sameFile. rewrite (removeFirst_none _ _ Hnone).
      exact (withFileItemCache_same _ _ Hc). }
    split; [exact Hcut|]. split.
    + unfold addItem, cutItem. rewrite Hc. simpl fileItemCache. fold sameFile.
      cbv iota.
      rewrite (removeFirst_app_new _ _ _ [] Hnone Hnew), app_nil_r.
      destruct self. simpl in *. now rewrite Hc.
    + unfold addItem, cutItem. rewrite Hc. simpl fileItemCache. fold sameFile.
      cbv iota. simpl fileItemCache.
      rewrite <- app_assoc. simpl app.
      rewrite (removeFirst_app_new _ _ _ _ Hnone Hnew). reflexivity.
  - intros cache Hc. split.
    + unfold addItem. rewrite Hc. reflexivity.
    + intros before item after -> Hbefore Hitem.
      unfold cutItem. rewrite Hc. simpl fileItemCache. fold sameFile.
      now rewrite (removeFirst_app_new _ _ _ _ Hbefore Hitem).
Qed.

End CandidateFacts.

(** X5 on a workspace of four files, for the document [main.js]. *)
Lemma candidates_in_order_witness :
  let platform := Sample.platform [] [] [] in
  let document := Editor.document (Sample.world EmptyString "/w/src/main.js" [] []) in
  exists items self',
    Language.getItems (Language.new Sample.options false) document
      ["/w/src/util.js"; "/w/src/main.js"; "/w/src/types.ts"; "/w/lib/index.js"]
    = Some (Js.Normal (Some items), self') /\
    map Language.id items = ["/w/lib/index.js"; "/w/src/util.js"] /\
    exists files nodes,
      items = map Language.OfFile files ++ map Language.OfNode nodes /\
      Sorted (Js.key_le Language.sortKey_leb Language.sortKey) files /\
      Sorted (Js.key_le String.leb NodeItem.name) nodes /\
      Forall (fun file =>
                FileItem.sortablePath file
                = Some (Platform.getSortablePath (FileItem.fileInfo file)
                          (Platform.newFileInfo (Editor.fileName document)))) files.
Proof.
  intros platform document. eexists. eexists.
  split; [vm_compute; reflexivity|]. split; [vm_compute; reflexivity|].
  eapply (candidates_in_order (Language.new Sample.options false) document
            ["/w/src/util.js"; "/w/src/main.js"; "/w/src/types.ts"; "/w/lib/index.js"]).
  - apply Language.reachable_new.
  - vm_compute. reflexivity.
Defined.

(** X6 on the same workspace: the TypeScript file is not offered. *)
Lemma offered_files_are_the_filtered_cache_witness :
  let platform := Sample.platform [] [] [] in
  let document := Editor.document (Sample.world EmptyString "/w/src/main.js" [] []) in
  exists items self',
    Language.getItems (Language.new Sample.options false) document
      ["/w/src/util.js"; "/w/src/main.js"; "/w/src/types.ts"; "/w/lib/index.js"]
    = Some (Js.Normal (Some items), self') /\
    forall item, In (Language.OfFile item) items ->
      FileItem.TYPESCRIPT_EXTENSION
        (Platform.fileExtensionWithoutLeadingDot (FileItem.fileInfo item)) = false.
Proof.
  intros platform document. eexists. eexists. split; [vm_compute; reflexivity|].
  match goal with
  | |- forall item, In (Language.OfFile item) ?items -> _ =>
      assert (Hg : exists self',
                Language.getItems (Language.new Sample.options false) document
                  ["/w/src/util.js"; "/w/src/main.js"; "/w/src/types.ts"; "/w/lib/index.js"]
                = Some (Js.Normal (Some items), self'))
        by (eexists; vm_compute; reflexivity)
  end.
  destruct Hg as [self' Hg].
  pose proof (offered_files_are_the_filtered_cache _ _ _ _ _ Hg) as Hthm.
  destruct Hthm as (rule & _ & _ & Hts & _).
  apply Hts. reflexivity.
Defined.

(** ** Fixing imports: outcomes *)

Section FixImportOutcomes.
Import Js Value Platform JavaScript TreeSearch Editor Language.
Context `{Platform}.

Lemma bind_poll {B} (k : bool -> M B) w :
  (isCancellationRequested ≫= k) w
  = k (match cancellations w with c :: _ => c | [] => false end)
      {| document := document w; selection := selection w;
         quickPicks := quickPicks w; dialogs := dialogs w;
         cancellations := tail (cancellations w); linter := linter w;
         log := log w |}.
Proof. reflexivity. Qed.

Lemma bind_notify' {B} e (k : unit -> M B) w : (notify e ≫= k) w = k tt (record e w).
Proof. reflexivity. Qed.

Lemma bind_out {A B} (m : M A) (k : A -> M B) w :
  (m ≫= k) w = match m w with
               | (Normal a, w') => k a w'
               | (Throw e, w') => (Throw e, w')
               end.
Proof. reflexivity. Qed.

Lemma bind_ret' {A B} (a : A) (k : A -> M B) w : (mret a ≫= k) w = k a w.
Proof. reflexivity. Qed.

Lemma bind_fixESLint {B} (k : unit -> M B) w :
  (fixESLint ≫= k) w
  = match linter w with
    | Some fix_ => k tt (record LinterRan (setText (fix_ (text (document w))) w))
    | None => k tt w
    end.
Proof. unfold mbind, M_bind, fixESLint. destruct (linter w); reflexivity. Qed.

Lemma neverCancelled_head w :
  neverCancelled w -> match cancellations w with c :: _ => c | [] => false end = false.
Proof. unfold neverCancelled. destruct 1; [reflexivity|assumption]. Qed.

Lemma neverCancelled_tail w : neverCancelled w -> Forall (fun c => c = false) (tail (cancellations w)).
Proof. unfold neverCancelled. destruct 1; [constructor|assumption]. Qed.

(** The first loop when no search finds a file: every statement is
    searched for and put aside. *)
Lemma fixAutomatically_unresolved self documentFileInfo rootPath broken :
  Forall (fun item => search documentFileInfo item = []) broken ->
  forall nonResolvable manual w,
    neverCancelled w ->
    let out := fixAutomatically self documentFileInfo rootPath broken nonResolvable manual w in
    fst out = Normal (Some (nonResolvable ++ broken, manual)) /\
    log (snd out) = log w ++ map (fun item => Searched (originalRelativePath item)) broken /\
    document (snd out) = document w /\
    linter (snd out) = linter w /\
    neverCancelled (snd out).
Proof.
  induction 1 as [|item rest Hitem _ IH]; intros nonResolvable manual w Hw.
  - simpl. rewrite !app_nil_r. repeat split. exact Hw.
  - cbn [fixAutomatically]. rewrite bind_poll, (neverCancelled_head w Hw).
    rewrite bind_notify', Hitem.
    match goal with |- context [fixAutomatically _ _ _ rest ?n ?m ?w'] =>
      specialize (IH n m w' (neverCancelled_tail w Hw))
    end.
    cbv zeta in IH. destruct IH as (Hr & Hl & Hd & Hlin & Hc).
    cbv zeta. rewrite Hr, Hl, Hd, Hlin. simpl log. simpl document. simpl linter.
    rewrite <- !app_assoc. repeat split. exact Hc.
Qed.

(** X9. Broken imports for which the search finds no file are left as
    they are. When every broken import of the document has no match and
    no cancellation is requested, [fixImport] searches for each of them
    in their order, edits nothing, runs the linter when there is one,
    warns with the number of statements that were not fixed, and returns
    [true]; without a linter the document is what it was. *)
Theorem unresolved_imports_are_left_alone self w total :
  WORKING_LANGUAGE (languageId (document w)) = true ->
  getTotalImports (parse (text (document w))) = Normal total ->
  let documentFileInfo := newFileInfo (fileName (document w)) in
  let broken := List.filter (isBroken documentFileInfo) total in
  broken <> [] ->
  Forall (fun item => search documentFileInfo item = []) broken ->
  neverCancelled w ->
  let out := fixImport self w in
  let es := map (fun item => Searched (originalRelativePath item)) broken
            ++ linterEvents w ++ [WarningMessage (notFixedMessage (length broken))] in
  fst out = Normal (Some true) /\
  log (snd out) = log w ++ es /\
  edits es = [] /\
  (linter w = None -> document (snd out) = document w).
Proof.
  intros Hlang Htotal documentFileInfo broken Hbroken Hnone Hw out es. subst es.
  pose proof (fixAutomatically_unresolved self documentFileInfo (workspaceFolder (document w))
                broken Hnone [] [] w Hw) as Hauto.
  cbv zeta in Hauto. destruct Hauto as (Hr & Hl & Hd & Hlin & _).
  assert (Hout : out =
    match fixAutomatically self documentFileInfo (workspaceFolder (document w)) broken [] [] w with
    | (Normal sorted, w') =>
        (match sorted with
         | None => mret None
         | Some (nonResolvableImports, manualSolvableImports) =>
             finished ← fixManually self documentFileInfo (workspaceFolder (document w))
                          manualSolvableImports;
             if finished : bool then
               _ ← fixESLint;
               _ ← match nonResolvableImports with
                   | [] => notify (StatusBarMessage allFixedMessage)
                   | _ => notify (WarningMessage
                                    (notFixedMessage (length nonResolvableImports)))
                   end;
               mret (Some true)
             else mret None
         end) w'
    | (Throw e, w') => (Throw e, w')
    end).
  { unfold out, fixImport. rewrite bind_out. unfold readDocument at 1. cbv iota beta.
    rewrite Hlang. simpl negb. cbv iota. rewrite Htotal.
    change (lift (Normal total) ≫= ?k) with (fun w => k total w). cbv beta.
    fold documentFileInfo. fold broken.
    destruct broken as [|item rest]; [contradiction|]. reflexivity. }
  rewrite Hout. clear Hout.
  destruct (fixAutomatically _ _ _ broken [] [] w) as [r w1].
  simpl in Hr, Hl, Hd, Hlin. subst r. cbn [app fixManually].
  rewrite bind_ret'. cbv iota. rewrite bind_fixESLint. unfold linterEvents. rewrite Hlin.
  assert (Hedits : forall tail_,
            edits (map (fun item => Searched (originalRelativePath item)) broken ++ tail_)
            = edits tail_).
  { intros tail_. unfold edits. rewrite flat_map_app.
    replace (flat_map _ (map _ broken)) with (@nil TextEdit); [reflexivity|].
    clear. induction broken; simpl; auto. }
  destruct broken as [|item rest] eqn:Eb; [contradiction|]. rewrite <- Eb in *.
  destruct (linter w) as [fix_|] eqn:El; cbv iota beta;
    rewrite bind_notify'; unfold mret, M_ret; simpl fst; simpl snd; simpl log;
    rewrite Hl, <- !app_assoc; (split; [reflexivity|]);
    (split; [rewrite Eb; reflexivity|]); (split; [rewrite Hedits; reflexivity|]).
  - discriminate.
  - intros _. simpl. exact Hd.
Qed.

Lemma bind_assoc {A B C} (m : M A) (k : A -> M B) (k' : B -> M C) w :
  ((m ≫= k) ≫= k') w = (m ≫= fun a => k a ≫= k') w.
Proof. unfold mbind, M_bind. destruct (m w) as [[a|e] w']; reflexivity. Qed.

Lemma bind_lift {A B} (a : A) (k : A -> M B) w : (lift (Normal a) ≫= k) w = k a w.
Proof. reflexivity. Qed.

Lemma bind_readDocument {B} (k : TextDocument -> M B) w :
  (readDocument ≫= k) w = k (document w) w.
Proof. reflexivity. Qed.

Lemma bind_edit {B} e (k : unit -> M B) w :
  (edit e ≫= k) w = k tt (record (Edited e) (setText (applyEdit e (text (document w))) w)).
Proof. reflexivity. Qed.

(** The part of [fixImport] that follows the collection of the broken
    statements. *)
Lemma fixImport_broken self w total :
  WORKING_LANGUAGE (languageId (document w)) = true ->
  getTotalImports (parse (text (document w))) = Normal total ->
  let documentFileInfo := newFileInfo (fileName (document w)) in
  let rootPath := workspaceFolder (document w) in
  let broken := List.filter (isBroken documentFileInfo) total in
  fixImport self w
  = match broken with
    | [] => (Normal None, record (StatusBarMessage noneBrokenMessage) w)
    | _ =>
        (sorted ← fixAutomatically self documentFileInfo rootPath broken [] [];
         match sorted with
         | None => mret None
         | Some (nonResolvableImports, manualSolvableImports) =>
             finished ← fixManually self documentFileInfo rootPath manualSolvableImports;
             if finished : bool then
               _ ← fixESLint;
               _ ← match nonResolvableImports with
                   | [] => notify (StatusBarMessage allFixedMessage)
                   | _ => notify (WarningMessage
                                    (notFixedMessage (length nonResolvableImports)))
                   end;
               mret (Some true)
             else mret None
         end) w
    end.
Proof.
  intros Hlang Htotal documentFileInfo rootPath broken.
  unfold fixImport. rewrite bind_readDocument, Hlang.
  change (negb true) with false. cbv iota.
  rewrite Htotal, bind_lift. fold documentFileInfo. fold broken.
  destruct broken; reflexivity.
Qed.

(** X10. A broken import with exactly one match, alone in its
    document, is rewritten in place. When the document has one broken
    import, the search finds exactly one file for it and no cancellation
    is requested, [fixImport] shows no prompt and makes one edit: it
    replaces the range of the literal by the path of the file relative
    to the document, between two quotes of the kind the literal has in
    the document (a single quote when the text of the range starts with
    one, a double quote otherwise). It then runs the linter when there
    is one, reports that all statements are fixed and returns [true]. *)
Theorem lone_broken_import_is_rewritten self w total item only name path :
  WORKING_LANGUAGE (languageId (document w)) = true ->
  getTotalImports (parse (text (document w))) = Normal total ->
  let documentFileInfo := newFileInfo (fileName (document w)) in
  let rootPath := workspaceFolder (document w) in
  List.filter (isBroken documentFileInfo) total = [item] ->
  search documentFileInfo item = [only] ->
  FileItem.getNameAndRelativePath (newFileItem self only rootPath)
    (directoryPath documentFileInfo) = Normal (name, path) ->
  neverCancelled w ->
  let quote := if Str.startsWith (getText (text (document w)) (editableRange item)) "'"
               then "'" else String DQUOTE EmptyString in
  let e := Replace (editableRange item) (quote +:+ path +:+ quote) in
  let out := fixImport self w in
  fst out = Normal (Some true) /\
  log (snd out)
  = log w ++ [Searched (originalRelativePath item); Edited e]
    ++ linterEvents w ++ [StatusBarMessage allFixedMessage] /\
  (linter w = None ->
   document (snd out) = withText (applyEdit e (text (document w))) (document w)).
Proof.
  intros Hlang Htotal documentFileInfo rootPath Hbroken Hsearch Hpath Hw quote e out.
  unfold out. rewrite (fixImport_broken self w total Hlang Htotal). cbv zeta.
  fold documentFileInfo. fold rootPath. rewrite Hbroken.
  cbn [fixAutomatically]. rewrite !bind_assoc, bind_poll, (neverCancelled_head w Hw).
  rewrite !bind_assoc, bind_notify', Hsearch.
  unfold rewrite. rewrite Hpath. rewrite !bind_assoc, bind_lift.
  unfold quoteChar. rewrite !bind_assoc, bind_readDocument, bind_ret', bind_edit.
  rewrite bind_ret'. cbn [fixManually]. rewrite bind_ret'. cbv iota.
  rewrite bind_fixESLint. unfold linterEvents.
  change (linter (record _ (setText _ ?w0))) with (linter w0). simpl linter.
  destruct (linter w) as [fix_|]; rewrite bind_notify'; unfold mret, M_ret;
    simpl fst; simpl snd; simpl log; simpl document; rewrite <- !app_assoc;
    (split; [reflexivity|]); (split; [reflexivity|]).
  - discriminate.
  - intros _. reflexivity.
Qed.

(** X11. The runs of [fixImport] that end before any search. For a
    document of another language it returns [false] and does nothing at
    all. When no collected import is broken it shows the message that
    none was found and returns [null]. When there are broken imports and
    the cancellation is requested at the first poll it returns [null]
    without a message. In all three cases nothing is searched for,
    nothing is edited, the linter does not run and the document is what
    it was. *)
Theorem fixImport_ends_early self w :
  let out := fixImport self w in
  let documentFileInfo := newFileInfo (fileName (document w)) in
  (WORKING_LANGUAGE (languageId (document w)) = false ->
   out = (Normal (Some false), w)) /\
  (forall total,
     WORKING_LANGUAGE (languageId (document w)) = true ->
     getTotalImports (parse (text (document w))) = Normal total ->
     List.filter (isBroken documentFileInfo) total = [] ->
     fst out = Normal None /\
     log (snd out) = log w ++ [StatusBarMessage noneBrokenMessage] /\
     document (snd out) = document w) /\
  (forall total cancellations',
     WORKING_LANGUAGE (languageId (document w)) = true ->
     getTotalImports (parse (text (document w))) = Normal total ->
     List.filter (isBroken documentFileInfo) total <> [] ->
     cancellations w = true :: cancellations' ->
     fst out = Normal None /\
     log (snd out) = log w /\
     document (snd out) = document w).
Proof.
  intros out documentFileInfo. split; [|split].
  - intros Hlang. unfold out, fixImport. rewrite bind_readDocument, Hlang. reflexivity.
  - intros total Hlang Htotal Hnone. unfold out.
    rewrite (fixImport_broken self w total Hlang Htotal). cbv zeta.
    fold documentFileInfo. rewrite Hnone. repeat split.
  - intros total cancellations' Hlang Htotal Hsome Hc. unfold out.
    rewrite (fixImport_broken self w total Hlang Htotal). cbv zeta.
    fold documentFileInfo.
    destruct (List.filter (isBroken documentFileInfo) total) as [|item rest];
      [contradiction|].
    cbn [fixAutomatically]. rewrite !bind_assoc, bind_poll, Hc. cbv iota.
    rewrite bind_ret'. repeat split.
Qed.

(** *** The result of a run *)

Lemma rewrite_plain self documentFileInfo rootPath item fullPath_ :
  emits (fun e => e <> LinterRan /\ isPick e = false)
        (rewrite self documentFileInfo rootPath item fullPath_).
Proof.
  unfold rewrite.
  apply emits_bind; [apply emits_lift | intros [_ p]].
  apply emits_bind.
  - unfold quoteChar. apply emits_bind; [|intros; apply emits_ret].
    apply runs_readDocument. constructor.
  - intros quote. apply emits_edit. split; [discriminate|reflexivity].
Qed.

Lemma fixAutomatically_plain self documentFileInfo rootPath broken :
  forall nonResolvable manual,
    emits (fun e => e <> LinterRan /\ isPick e = false)
          (fixAutomatically self documentFileInfo rootPath broken nonResolvable manual).
Proof.
  induction broken as [|item rest IH]; intros nonResolvable manual; simpl.
  - apply emits_ret.
  - apply emits_bind; [apply emits_isCancellationRequested|].
    intros [|]; [apply emits_ret|].
    apply emits_bind; [apply emits_notify; [reflexivity|split; [discriminate|reflexivity]]|].
    intros _. destruct (search documentFileInfo item) as [|only [|another more]].
    + apply IH.
    + apply emits_bind; [apply rewrite_plain|]. intros _. apply IH.
    + apply IH.
Qed.

Lemma fixManually_dismissed self documentFileInfo rootPath manual :
  runs (fixManually self documentFileInfo rootPath manual)
       (fun r es =>
          Forall (fun e => e <> LinterRan) es /\
          forall items placeHolder,
            In (QuickPickShown items placeHolder None) es -> r = Normal false).
Proof.
  induction manual as [|item rest IH]; simpl.
  - apply runs_ret. split; [constructor|]. intros ? ? [].
  - set (Post := fun (r : Completion bool) es =>
           Forall (fun e => e <> LinterRan) es /\
           forall items placeHolder,
             In (QuickPickShown items placeHolder None) es -> r = Normal false).
    apply (runs_bind _ _
             (fun r es => exists answer, r = Normal answer /\
                es = [QuickPickShown
                        (map (candidateLabel rootPath) (search documentFileInfo item))
                        (originalRelativePath item) answer])
             (fun answer r es =>
                Forall (fun e => e <> LinterRan) es /\
                (answer = None -> r = Normal false) /\
                forall items placeHolder,
                  In (QuickPickShown items placeHolder None) es -> r = Normal false)).
    + apply runs_showQuickPick. intros answer. now exists answer.
    + intros answer es1 _.
      destruct answer as [i|]; simpl;
        [destruct (search documentFileInfo item !! i) as [selected|]|].
      * apply (runs_bind _ _ (fun _ es => es = [])
                 (fun _ r es => Forall (fun e => e <> LinterRan) es /\
                    forall items placeHolder,
                      In (QuickPickShown items placeHolder None) es -> r = Normal false)).
        -- apply runs_isCancellationRequested. reflexivity.
        -- intros [|] _ _.
           ++ apply runs_ret. split; [constructor|]. intros ? ? [].
           ++ apply (runs_bind _ _
                       (fun _ es => Forall (fun e => e <> LinterRan /\ isPick e = false) es)
                       (fun _ => Post)).
              ** apply rewrite_plain.
              ** intros _ _ _. exact IH.
              ** intros e es Hf. split.
                 --- eapply List.Forall_impl; [|exact Hf]. now intros x [Hx _].
                 --- intros items ph Hin. rewrite List.Forall_forall in Hf.
                     destruct (Hf _ Hin) as [_ Hp]. discriminate.
              ** intros a es2 r es3 Hf [Hl Hd]. split.
                 --- apply Forall_app. split; [|exact Hl].
                     eapply List.Forall_impl; [|exact Hf]. now intros x [Hx _].
                 --- intros items ph Hin. apply in_app_or in Hin as [Hin|Hin].
                     +++ rewrite List.Forall_forall in Hf.
                         destruct (Hf _ Hin) as [_ Hp]. discriminate.
                     +++ now apply (Hd items ph).
        -- intros e es ->. split; [constructor|]. split; [discriminate|]. intros ? ? [].
        -- intros a es2 r es3 -> [Hl Hd]. split; [exact Hl|]. split; [discriminate|exact Hd].
      * apply runs_ret. split; [constructor|]. split; [discriminate|]. intros ? ? [].
      * apply runs_ret. split; [constructor|]. split; [reflexivity|]. intros ? ? [].
    + intros e es (answer & [=] & _).
    + intros answer es1 r es2 (answer' & [= <-] & ->) (Hl & Hnone & Hd). split.
      * constructor; [discriminate|exact Hl].
      * intros items ph [[= _ _ Ha]|Hin]; [now apply Hnone|now apply (Hd items ph)].
Qed.

Lemma summary_runs (nonResolvableImports : list ImportStatementForFixingImport) :
  runs (_ ← fixESLint;
        _ ← match nonResolvableImports with
            | [] => notify (StatusBarMessage allFixedMessage)
            | _ => notify (WarningMessage (notFixedMessage (length nonResolvableImports)))
            end;
        mret (Some true))
       (fun r es =>
          r = Normal (Some true) /\ Forall (fun e => isPick e = false) es /\
          exists es' summary, es = es' ++ [summary] /\ isSummary summary).
Proof.
  apply (runs_bind _ _ (fun r es => r = Normal tt /\ (es = [] \/ es = [LinterRan]))
           (fun _ r es => r = Normal (Some true) /\ exists summary, es = [summary] /\
                          isPick summary = false /\ isSummary summary)).
  - apply runs_fixESLint; auto.
  - intros _ es1 _.
    apply (runs_bind _ _ (fun r es => r = Normal tt /\ exists summary, es = [summary] /\
                            isPick summary = false /\ isSummary summary)
             (fun _ r es => r = Normal (Some true) /\ es = [])).
    + destruct nonResolvableImports as [|item rest]; apply runs_notify; try reflexivity.
      * split; [reflexivity|]. eexists. split; [reflexivity|]. split; [reflexivity|]. now left.
      * split; [reflexivity|]. eexists. split; [reflexivity|]. split; [reflexivity|]. right.
        exists (length (item :: rest)). split; [simpl; lia|reflexivity].
    + intros _ _ _. now apply runs_ret.
    + intros e es [[=] _].
    + intros a es2 r es3 (_ & summary & -> & Hp & Hs) [-> ->]. split; [reflexivity|].
      now exists summary.
  - intros e es [[=] _].
  - intros a es1 r es2 [_ Hl] (-> & summary & -> & Hp & Hs). split; [reflexivity|]. split.
    + destruct Hl as [->| ->]; repeat constructor; exact Hp.
    + exists es1, summary. split; [reflexivity|exact Hs].
Qed.

(** X12. What the result of [fixImport] tells. In every run: the
    result [false] comes with no event at all (nothing was shown,
    searched or edited); the linter runs only in a run that returns
    [true]; a run that returns [true] ends with its summary, either that
    all statements are fixed or the warning with the positive number
    of those that are not; and a quick pick that the user dismisses
    makes the run return [null], so that neither the linter nor a summary
    follows it. *)
Theorem fixImport_outcomes self : runs (fixImport self) fixImportPost.
Proof.
  unfold fixImport.
  apply (runs_bind _ _ (fun _ es => es = []) (fun _ => fixImportPost)).
  - apply runs_readDocument. reflexivity.
  - intros document _ _.
    destruct (negb (WORKING_LANGUAGE (languageId document))).
    { apply runs_ret. repeat split; try discriminate; intros; contradiction. }
    apply (runs_bind _ _ (fun _ es => es = []) (fun _ => fixImportPost)).
    + now apply runs_lift.
    + intros totalImports _ _.
      destruct (List.filter _ totalImports) as [|item rest].
      * apply (runs_bind _ _ (fun r es => r = Normal tt /\
                                es = [StatusBarMessage noneBrokenMessage])
                 (fun _ r es => r = Normal None /\ es = [])).
        -- now apply runs_notify.
        -- intros _ _ _. now apply runs_ret.
        -- intros e es [[=] _].
        -- intros a es1 r es2 [_ ->] [-> ->]. split; [discriminate|].
           split; [intros [[=]|[]]|]. split; [discriminate|].
           intros items ph [[=]|[]].
      * apply (runs_bind _ _
                 (fun _ es => Forall (fun e => e <> LinterRan /\ isPick e = false) es)
                 (fun _ r es =>
                    r <> Normal (Some false) /\
                    (In LinterRan es -> r = Normal (Some true)) /\
                    (r = Normal (Some true) ->
                     exists es' summary, es = es' ++ [summary] /\ isSummary summary) /\
                    (forall items placeHolder,
                       In (QuickPickShown items placeHolder None) es -> r = Normal None))).
        -- apply fixAutomatically_plain.
        -- intros [[nonResolvableImports manualSolvableImports]|] es1 _.
           ++ apply (runs_bind _ _
                       (fun r es =>
                          Forall (fun e => e <> LinterRan) es /\
                          forall items placeHolder,
                            In (QuickPickShown items placeHolder None) es ->
                            r = Normal false)
                       (fun finished r es =>
                          if finished : bool
                          then r = Normal (Some true) /\
                               Forall (fun e => isPick e = false) es /\
                               exists es' summary, es = es' ++ [summary] /\ isSummary summary
                          else r = Normal None /\ es = [])).
              ** apply fixManually_dismissed.
              ** intros [|] es2 _; [apply summary_runs|now apply runs_ret].
              ** intros e es [Hl Hd]. split; [discriminate|]. split; [|split].
                 --- intros Hin. rewrite List.Forall_forall in Hl. now destruct (Hl _ Hin).
                 --- discriminate.
                 --- intros items ph Hin. now specialize (Hd _ _ Hin).
              ** intros [|] es2 r es3 [Hl Hd].
                 --- intros (-> & Hp & es' & summary & -> & Hs).
                     split; [discriminate|]. split; [reflexivity|]. split.
                     +++ intros _. exists (es2 ++ es'), summary.
                         split; [now rewrite app_assoc|exact Hs].
                     +++ intros items ph Hin. apply in_app_or in Hin as [Hin|Hin].
                         *** now specialize (Hd _ _ Hin).
                         *** rewrite List.Forall_forall in Hp. specialize (Hp _ Hin).
                             discriminate.
                 --- intros [-> ->]. rewrite app_nil_r.
                     split; [discriminate|]. split; [|split].
                     +++ intros Hin. rewrite List.Forall_forall in Hl.
                         now destruct (Hl _ Hin).
                     +++ discriminate.
                     +++ reflexivity.
           ++ apply runs_ret. split; [discriminate|]. split; [intros []|].
              split; [discriminate|]. intros ? ? [].
        -- intros e es Hf. repeat split; try discriminate.
           ++ intros Hin. rewrite List.Forall_forall in Hf.
              destruct (Hf _ Hin) as [Hne _]. now destruct Hne.
           ++ intros items ph Hin. rewrite List.Forall_forall in Hf.
              destruct (Hf _ Hin) as [_ Hp]. discriminate.
        -- intros a es1 r es2 Hf (Hne & Hlint & Htrue & Hpick).
           rewrite List.Forall_forall in Hf. split; [|split; [|split]].
           ++ intros Hr. contradiction.
           ++ intros Hin. apply in_app_or in Hin as [Hin|Hin]; [|now apply Hlint].
              destruct (Hf _ Hin) as [Hx _]. now destruct Hx.
           ++ intros Hr. destruct (Htrue Hr) as (es' & summary & -> & Hs).
              exists (es1 ++ es'), summary. split; [now rewrite app_assoc|exact Hs].
           ++ intros items ph Hin. apply in_app_or in Hin as [Hin|Hin];
                [|now apply (Hpick items ph)].
              destruct (Hf _ Hin) as [_ Hp]. discriminate.
    + intros e es ->. repeat split; try discriminate; intros; contradiction.
    + intros a es1 r es2 -> Hp. exact Hp.
  - intros e es ->. repeat split; try discriminate; intros; contradiction.
  - intros a es1 r es2 -> Hp. exact Hp.
Qed.

End FixImportOutcomes.

(** X9 on the document with two imports, when no search finds a file:
    both are searched for, the warning counts two, the text is as it
    was. *)
Lemma unresolved_imports_are_left_alone_witness :
  let platform := Sample.lostPlatform in
  let out := Language.fixImport (Language.new Sample.options false)
               Sample.twoImportsWorld in
  fst out = Js.Normal (Some true) /\
  Editor.log (snd out)
  = [Editor.Searched "./a"; Editor.Searched "./b";
     Editor.WarningMessage (Language.notFixedMessage 2)] /\
  Editor.document (snd out) = Editor.document Sample.twoImportsWorld.
Proof.
  intros platform out.
  destruct (unresolved_imports_are_left_alone
              (Language.new Sample.options false) Sample.twoImportsWorld
              Sample.twoImportsTotal) as (Hr & Hl & _ & Hd).
  - reflexivity.
  - vm_compute. reflexivity.
  - vm_compute. discriminate.
  - vm_compute. repeat constructor.
  - constructor.
  - split; [exact Hr|]. split; [|exact (Hd eq_refl)].
    etransitivity; [exact Hl|]. vm_compute. reflexivity.
Defined.

(** X10 on the same document when the second import resolves and the
    search finds one file for the first. *)
Lemma lone_broken_import_is_rewritten_witness :
  let platform := Sample.oneBrokenPlatform in
  let out := Language.fixImport (Language.new Sample.options false)
               Sample.twoImportsWorld in
  fst out = Js.Normal (Some true) /\
  Editor.text (Editor.document (snd out)) = Sample.oneBrokenFixed.
Proof.
  intros platform out.
  destruct (lone_broken_import_is_rewritten
              (Language.new Sample.options false) Sample.twoImportsWorld
              Sample.twoImportsTotal
              {| Language.originalRelativePath := "./a";
                 Language.editableRange :=
                   {| Editor.start := {| Editor.line := 0; Editor.character := 14 |};
                      Editor.end_ := {| Editor.line := 0; Editor.character := 19 |} |} |}
              "/w/src/lib/a.js" "a" "./lib/a") as (Hr & _ & Hd).
  - reflexivity.
  - vm_compute. reflexivity.
  - vm_compute. reflexivity.
  - vm_compute. reflexivity.
  - vm_compute. reflexivity.
  - constructor.
  - split; [exact Hr|].
    etransitivity; [exact (f_equal Editor.text (Hd eq_refl))|]. vm_compute. reflexivity.
Defined.

(** ** The table of local names *)

Section LocalNames.
Import Js Value Platform JavaScript TreeSearch Editor FileItem.
Context `{Platform}.

Lemma find_none_of_keys {X} (pairs : list (string * X)) key :
  ~ In key (map fst pairs) ->
  List.find (fun pair => String.eqb (fst pair) key) pairs = None.
Proof.
  induction pairs as [|[k x] pairs IH]; simpl; [reflexivity|].
  intros Hk. destruct (String.eqb k key) eqn:E.
  - apply String.eqb_eq in E. exfalso. apply Hk. now left.
  - apply IH. intros Hin. apply Hk. now right.
Qed.

Lemma declarations_of_readable imports :
  Forall readable imports ->
  mapM (fun item => type ← get "type" (node item);
                     mret (isStr type "ImportDeclaration", item)) imports
  = Normal (map (fun item => (isStr (prop "type" (node item)) "ImportDeclaration", item))
                imports).
Proof.
  induction 1 as [|item imports [Hd _] _ IH]; [reflexivity|].
  cbn [mapM map]. rewrite (get_defined "type" _ Hd). cbn [mbind Completion_bind cbind mret
    Completion_ret]. rewrite IH. reflexivity.
Qed.

Lemma localNames_Arr item specifiers :
  prop "specifiers" (node item) = Arr specifiers ->
  localNames item
  = Normal (map (fun spec => (match prop "name" (prop "local" spec) with
                              | Undefined => Str EmptyString
                              | v => v
                              end, item)) specifiers).
Proof. intros Hs. unfold localNames. now rewrite Hs. Qed.

Lemma localNames_of_readable imports :
  Forall readable imports ->
  exists pairs,
    mapM localNames
         (map snd (List.filter fst
            (map (fun item => (isStr (prop "type" (node item)) "ImportDeclaration", item))
                 imports)))
    = Normal pairs /\
    forall key, In key (map (fun pair => baseToString (fst pair)) (concat pairs)) ->
                exists item, In item imports /\ In key (importedNames item).
Proof.
  induction 1 as [|item imports [_ Hs] _ (pairs & IH & Hkeys)].
  - exists []. split; [reflexivity|]. intros key [].
  - cbn [map List.filter fst snd].
    destruct (isStr (prop "type" (node item)) "ImportDeclaration") eqn:Et.
    + destruct (Hs eq_refl) as [specifiers Hspecifiers].
      cbn [map mapM]. change (true, item).2 with item.
      rewrite (localNames_Arr item specifiers Hspecifiers).
      cbn [mbind Completion_bind cbind mret Completion_ret]. rewrite IH.
      eexists. split; [reflexivity|].
      intros key Hin. cbn [concat] in Hin. rewrite map_app in Hin.
      apply in_app_or in Hin as [Hin|Hin].
      * exists item. split; [now left|]. unfold importedNames.
        rewrite Et, Hspecifiers. rewrite map_map in Hin. exact Hin.
      * destruct (Hkeys key Hin) as (item' & Hitem' & Hkey). exists item'.
        split; [now right|exact Hkey].
    + exists pairs. split; [exact IH|].
      intros key Hin. destruct (Hkeys key Hin) as (item' & Hitem' & Hkey).
      exists item'. split; [now right|exact Hkey].
Qed.

(** What the table gives for a name that no import declaration binds:
    the member of [Object.prototype] of that name, when there is one. *)
Lemma findDuplicateVariable_unbound imports iden :
  unbound iden imports ->
  findDuplicateVariable imports iden
  = Normal (if inherited iden then Some Builtin else None).
Proof.
  intros Hu.
  assert (Hr : Forall readable imports).
  { eapply List.Forall_impl; [|exact Hu]. now intros item [Hitem _]. }
  unfold findDuplicateVariable. rewrite (declarations_of_readable _ Hr).
  cbn [mbind Completion_bind cbind].
  destruct (localNames_of_readable _ Hr) as (pairs & -> & Hkeys).
  cbn [mbind Completion_bind cbind mret Completion_ret].
  set (table := map _ (List.filter _ (concat pairs))).
  assert (Hnone : forall key,
            (forall item, In item imports -> ~ In key (importedNames item)) ->
            List.find (fun pair => String.eqb (fst pair) key) (rev table) = None).
  { intros key Hkey. apply find_none_of_keys. rewrite map_rev, <- in_rev.
    unfold table. rewrite map_map. cbn [fst]. intros Hin.
    apply in_map_iff in Hin as (pair & <- & Hpair).
    apply filter_In in Hpair as [Hpair _].
    destruct (Hkeys (baseToString (fst pair))) as (item & Hitem & Hin).
    - apply in_map_iff. now exists pair.
    - exact (Hkey item Hitem Hin). }
  unfold unbound in Hu. rewrite List.Forall_forall in Hu.
  unfold fromPairs_get.
  rewrite (Hnone "__proto__") by (intros item Hitem; apply (Hu item Hitem)).
  rewrite (Hnone iden) by (intros item Hitem; apply (Hu item Hitem)).
  cbn [fmap option_fmap option_map mbind option_bind].
  destruct (String.eqb iden "__proto__") eqn:Ep.
  - apply String.eqb_eq in Ep. subst iden. reflexivity.
  - destruct (inherited iden); reflexivity.
Qed.

End LocalNames.
(** ** Adding an import: what is edited *)

Section AddImportEdits.
Import Js Value Platform JavaScript TreeSearch Editor FileItem.
Context `{Platform}.

Lemma calm_edits es : Forall calm es -> edits es = [] /\ changes es = [].
Proof.
  induction 1 as [|e es He _ [IH1 IH2]]; [split; reflexivity|].
  unfold calm in He. unfold changes in *. simpl. rewrite He, IH2.
  destruct e; try discriminate; simpl; rewrite IH1; auto.
Qed.

Lemma edits_app' es1 es2 : edits (es1 ++ es2) = edits es1 ++ edits es2.
Proof. apply flat_map_app. Qed.

Lemma changes_app' es1 es2 : changes (es1 ++ es2) = changes es1 ++ changes es2.
Proof. apply List.filter_app. Qed.

Lemma editShape_calm_app es1 es2 : Forall calm es1 -> editShape es2 -> editShape (es1 ++ es2).
Proof.
  intros Hc Hs. destruct (calm_edits _ Hc) as [He _].
  unfold editShape. rewrite edits_app', He. simpl.
  destruct Hs as [Hs|[Hs|[Hs|(rg & p & s & m & o & Hs & Hin)]]]; auto.
  right. right. right. exists rg, p, s, m, o. split; [exact Hs|].
  apply in_or_app. now right.
Qed.

Lemma addImportEdits_of_calm (m : M unit) : emits calm m -> runs m addImportEdits.
Proof.
  intros Hm. eapply runs_conseq; [exact Hm|]. intros r es Hc.
  destruct (calm_edits _ Hc) as [He Hch]. split; [now left|]. intros _ _. exact Hch.
Qed.

Lemma addImportEdits_bind_calm {A} (m : M A) (k : A -> M unit) :
  emits calm m -> (forall a, runs (k a) addImportEdits) -> runs (m ≫= k) addImportEdits.
Proof.
  intros Hm Hk.
  apply (runs_bind m k (fun _ es => Forall calm es) (fun _ => addImportEdits)).
  - exact Hm.
  - intros a _ _. apply Hk.
  - intros e es Hc. destruct (calm_edits _ Hc) as [He Hch].
    split; [now left|]. intros _ _. exact Hch.
  - intros a es1 r es2 Hc [Hs Ht]. split; [now apply editShape_calm_app|].
    intros e He. rewrite changes_app', (proj2 (calm_edits _ Hc)). simpl. now apply (Ht e).
Qed.

Lemma edit_then_lint (x : TextEdit) :
  match x with Delete _ => False | _ => True end ->
  runs (edit x ≫= fun _ => fixESLint) addImportEdits.
Proof.
  intros Hx.
  apply (runs_bind _ _ (fun r es => r = Normal tt /\ es = [Edited x])
           (fun _ r es => r = Normal tt /\ (es = [] \/ es = [LinterRan]))).
  - now apply runs_edit.
  - intros _ _ _. apply runs_fixESLint; auto.
  - intros e es [[=] _].
  - intros a es1 r es2 [_ ->] [-> Hl]. split; [|discriminate].
    destruct x as [rg s|p s|rg]; [| |contradiction];
      destruct Hl as [->| ->]; unfold editShape; simpl; eauto 7.
Qed.

Ltac calm_step :=
  first
    [ apply emits_ret
    | apply emits_lift
    | apply emits_notify; [reflexivity|reflexivity]
    | apply emits_focusAt; intros; reflexivity
    | apply emits_readDocument
    | apply runs_readSelection; constructor
    | apply emits_bind; [|intros ?]
    | match goal with
      | |- emits _ (match ?x with _ => _ end) => destruct x
      | |- emits _ (if ?x then _ else _) => destruct x
      end ].

Ltac edits_step :=
  first
    [ apply edit_then_lint; exact I
    | apply addImportEdits_of_calm; solve [repeat calm_step]
    | apply addImportEdits_bind_calm; [solve [repeat calm_step] | intros ?]
    | match goal with
      | |- runs (match ?x with _ => _ end) _ => destruct x
      | |- runs (if ?x then _ else _) _ => destruct x
      end ].

Lemma mergeInto_edits document duplicateImport b :
  runs (mergeInto document duplicateImport b) addImportEdits.
Proof.
  unfold mergeInto, replaceWithNamespace, focusAtLoc. repeat edits_step.
Qed.

(** The conflict dialog: what it shows and deletes. *)
Lemma conflictDialog_edits (duplicateVariable : option Found) iden :
  runs (match duplicateVariable with
        | Some duplicate =>
            selectedOption ← showWarningModal
              ("Do you want to replace the existing " +:+ quoted iden +:+ "?")
              [REPLACE_IT; KEEP_BOTH];
            match selectedOption with
            | Some 0 =>
                range ← lift (rangeOf (startOfFound duplicate) (endOfFound duplicate));
                edit (Delete range)
            | _ => mret tt
            end
        | None => mret tt
        end)
       (fun r es =>
          Forall calm es \/
          (r = Normal tt /\ exists range message options,
             es = [WarningModalShown message options (Some 0); Edited (Delete range)])).
Proof.
  destruct duplicateVariable as [duplicate|].
  - apply (runs_bind _ _
             (fun r es => exists answer, r = Normal answer /\
                es = [WarningModalShown
                        ("Do you want to replace the existing " +:+ quoted iden +:+ "?")
                        [REPLACE_IT; KEEP_BOTH] answer])
             (fun answer r es =>
                es = [] \/
                (answer = Some 0 /\ r = Normal tt /\ exists range, es = [Edited (Delete range)]))).
    + apply runs_showWarningModal. intros answer. now exists answer.
    + intros answer es1 _. destruct answer as [[|n]|]; try (apply runs_ret; now left).
      apply (runs_bind _ _ (fun _ es => es = [])
               (fun range r es => r = Normal tt /\ es = [Edited (Delete range)])).
      * now apply runs_lift.
      * intros range _ _. now apply runs_edit.
      * intros e es ->. now left.
      * intros range es1' r es2 -> [-> ->]. right. eauto.
    + intros e es (answer & [=] & _).
    + intros answer es1 r es2 (answer' & [= <-] & ->) [->|(-> & -> & range & ->)].
      * left. repeat constructor.
      * right. split; [reflexivity|]. eauto.
  - apply runs_ret. left. constructor.
Qed.

Lemma insertStatement_edits self document existingImports beforeFirstImport b :
  runs (insertStatement self document existingImports beforeFirstImport b) addImportEdits.
Proof.
  unfold insertStatement.
  apply addImportEdits_bind_calm; [apply emits_lift|]. intros duplicateVariable.
  eapply runs_bind.
  - apply conflictDialog_edits.
  - intros u es1 _.
    apply (runs_bind _ _ (fun r es => r = Normal tt /\ exists p s, es = [Edited (Insert p s)])
                         (fun _ r es => r = Normal tt /\ (es = [] \/ es = [LinterRan]))).
    + apply runs_edit. split; [reflexivity|]. eauto.
    + intros u' es2 _. apply runs_fixESLint; auto.
    + intros e es [[=] _].
    + intros a es2 r es3 [_ (p & s & ->)] [-> Hl].
      instantiate (1 := fun _ r es =>
        r = Normal tt /\ exists p s, es = [Edited (Insert p s)] \/
                                     es = [Edited (Insert p s); LinterRan]).
      split; [reflexivity|]. exists p, s. destruct Hl as [->| ->]; auto.
  - intros e es [Hc|[[=] _]].
    destruct (calm_edits _ Hc) as [He Hch]. split; [now left|]. intros _ _. exact Hch.
  - intros a es1 r es2 Hd (-> & p & s & Hes). split; [|discriminate].
    destruct Hd as [Hc|(_ & range & message & options & ->)].
    + apply editShape_calm_app; [exact Hc|].
      right. left. exists p, s. destruct Hes as [->| ->]; reflexivity.
    + right. right. right. exists range, p, s, message, options.
      split; [destruct Hes as [->| ->]; reflexivity|]. now left.
Qed.

Lemma complete_edits self document existingImports beforeFirstImport b :
  runs (complete self document existingImports beforeFirstImport b) addImportEdits.
Proof.
  unfold complete. destruct (getDuplicateImport _ _) as [duplicateImport|].
  - apply addImportEdits_bind_calm; [apply emits_lift|]. intros [|].
    + apply mergeInto_edits.
    + unfold focusAtImport. repeat edits_step.
  - apply insertStatement_edits.
Qed.

Lemma settleBinding_calm depth self existingImports directory :
  emits calm (settleBinding depth self existingImports directory).
Proof.
  eapply runs_conseq; [apply settleBinding_settled|].
  intros r es [Hs _]. eapply List.Forall_impl; [|exact Hs]. now intros e [He _].
Qed.

(** X13. The edits of [addImport] are all or nothing. In every run
    the edits are of one of four kinds: none; one insertion; one
    replacement; or the deletion of the statement whose name is in
    conflict, which happens only after the user answered [Replace It],
    followed by the insertion of the new statement. A run that raises
    has changed nothing: no edit was applied and the linter did not
    run. *)
Theorem addImport_edits_all_or_nothing depth self :
  runs (addImport depth self) addImportEdits.
Proof.
  unfold addImport.
  apply addImportEdits_bind_calm; [apply emits_readDocument|]. intros document.
  apply addImportEdits_bind_calm; [apply emits_lift|]. intros existingImports.
  apply addImportEdits_bind_calm; [apply emits_lift|]. intros beforeFirstImport.
  destruct (extension self _).
  - apply addImportEdits_bind_calm; [apply settleBinding_calm|].
    intros [b|]; [apply complete_edits|apply addImportEdits_of_calm, emits_ret].
  - unfold focusAtImport. repeat edits_step.
Qed.

End AddImportEdits.

Section AddImportCases.
Import Js Value Platform JavaScript TreeSearch Editor FileItem.
Context `{Platform}.

Lemma settleBinding_require depth self existingImports directory name path :
  syntax (options self) = SyntaxRequire ->
  getNameAndRelativePath self directory = Normal (name, path) ->
  settleBinding depth self existingImports directory
  = mret (Some {| Binding.name := name; Binding.iden := name; Binding.path := path |}).
Proof.
  intros Hs Hn. unfold settleBinding. rewrite Hn, Hs. reflexivity.
Qed.

Lemma settleBinding_require_no_pick depth self existingImports directory :
  syntax (options self) = SyntaxRequire ->
  emits (fun e => isPick e = false) (settleBinding depth self existingImports directory).
Proof.
  intros Hs. unfold settleBinding. rewrite Hs.
  apply emits_bind; [apply emits_lift|]. intros [name path]. apply emits_ret.
Qed.

(** X14. With the [require] syntax no export is looked up. In every
    run of [addImport] with that syntax no quick pick is shown. For a
    file of the working language whose path is not imported yet and
    whose name is free (no import declaration of the document binds it
    and it names no member of [Object.prototype]), the run makes one
    edit: it inserts, before the first existing import, the snippet that
    [getImportSnippet] makes for [require] of the name and the relative
    path of the file. *)
Theorem require_syntax_inserts_without_asking depth self :
  syntax (options self) = SyntaxRequire ->
  emits (fun e => isPick e = false) (addImport depth self) /\
  forall w imports position name path,
    extension self (fileExtensionWithoutLeadingDot (fileInfo self)) = true ->
    getExistingImports (parse (text (document w))) = Normal imports ->
    firstImportPosition imports = Normal position ->
    getNameAndRelativePath self (directoryPath (newFileInfo (fileName (document w))))
    = Normal (name, path) ->
    getDuplicateImport imports path = None ->
    unbound name imports ->
    inherited name = false ->
    let e := Insert position
               (getImportSnippet (nonEmpty name) path false (options self) (document w)) in
    let out := addImport depth self w in
    fst out = Normal tt /\
    log (snd out) = log w ++ Edited e :: Language.linterEvents w /\
    (linter w = None ->
     document (snd out) = withText (applyEdit e (text (document w))) (document w)).
Proof.
  intros Hs. split.
  - unfold addImport.
    apply emits_bind; [apply emits_readDocument|]. intros document.
    apply emits_bind; [apply emits_lift|]. intros existingImports.
    apply emits_bind; [apply emits_lift|]. intros beforeFirstImport.
    destruct (extension self _).
    + apply emits_bind; [now apply settleBinding_require_no_pick|].
      intros [b|]; [|apply emits_ret].
      eapply runs_conseq; [apply complete_runs|]. now intros r es [Hp _].
    + eapply runs_conseq.
      * assert (Hm : emits noPrompt
                  (if STYLE_EXTENSION (fileExtensionWithoutLeadingDot (fileInfo self))
                   then
                     '(_, path) ← lift (getNameAndRelativePath self
                                          (directoryPath (newFileInfo (fileName document))));
                     match getDuplicateImport existingImports path with
                     | Some duplicateImport =>
                         _ ← notify (InformationMessage
                                ("The module " +:+ quoted (label self)
                                 +:+ " has been already imported."));
                         focusAtImport duplicateImport
                     | None =>
                         let snippet := getImportSnippet None path (useImport self)
                                          (options self) document in
                         _ ← edit (Insert beforeFirstImport snippet);
                         fixESLint
                     end
                   else
                     '(_, path) ← lift (getNameAndRelativePath self
                                          (directoryPath (newFileInfo (fileName document))));
                     let snippet := getImportSnippet None path false (options self) document in
                     active ← readSelection;
                     _ ← edit (Insert active snippet);
                     fixESLint)).
        { destruct (STYLE_EXTENSION _).
          - apply emits_bind; [apply emits_lift|]. intros [_ path].
            destruct (getDuplicateImport _ _).
            + apply emits_bind; [now apply emits_notify|]. intros _.
              apply focusAtImport_emits.
            + apply emits_bind; [now apply emits_edit|]. intros _. now apply emits_fixESLint.
          - apply emits_bind; [apply emits_lift|]. intros [_ path].
            apply emits_bind; [apply runs_readSelection; constructor|]. intros active.
            apply emits_bind; [now apply emits_edit|]. intros _. now apply emits_fixESLint. }
        exact Hm.
      * intros r es. apply noPrompt_noPick.
  - intros w imports position name path Hext Himports Hposition Hname Hdup Hfree Hown e out.
    pose proof (findDuplicateVariable_unbound _ _ Hfree) as Hvar. rewrite Hown in Hvar.
    unfold out, addImport.
    rewrite bind_readDocument, Himports, bind_lift, Hposition, bind_lift, Hext.
    rewrite (settleBinding_require depth self imports _ name path Hs Hname), bind_ret'.
    unfold complete. cbn [Binding.path]. rewrite Hdup.
    unfold insertStatement. cbn [Binding.iden Binding.name Binding.path].
    rewrite Hvar, bind_lift, bind_ret', Hs, bind_edit.
    unfold fixESLint, Language.linterEvents.
    change (linter (record _ (setText _ w))) with (linter w).
    destruct (linter w) as [fix_|]; simpl fst; simpl snd; simpl log;
      rewrite <- ?app_assoc;
      (split; [reflexivity|]); (split; [reflexivity|]).
    + discriminate.
    + intros _. reflexivity.
Qed.

Lemma focusAtImport_out duplicateImport w :
  exists es,
    log (snd (focusAtImport duplicateImport w)) = log w ++ es /\
    Forall calm es /\
    document (snd (focusAtImport duplicateImport w)) = document w.
Proof.
  assert (Hm : emits calm (focusAtImport duplicateImport)).
  { unfold focusAtImport. apply emits_focusAt. intros p. reflexivity. }
  destruct (Hm w) as (es & Hl & _ & Hd & Hc). exists es.
  split; [exact Hl|]. split; [exact Hc|].
  rewrite Hd. apply replay_unchanged. apply calm_edits. exact Hc.
Qed.

(** X15. Files that are not of the working language. For a style
    sheet (css, less, sass, scss, styl): when a statement of the
    document has the relative path of the file already, nothing is
    edited and the message names the label of the candidate; otherwise
    the one edit inserts, before the first existing import, the snippet
    without a name. For any other file the one edit inserts
    [require(...)] of the quoted path at the cursor, with no semicolon
    and no line ending, whether or not the path is imported already. *)
Theorem addImport_of_other_files depth self w imports position name path :
  extension self (fileExtensionWithoutLeadingDot (fileInfo self)) = false ->
  getExistingImports (parse (text (document w))) = Normal imports ->
  firstImportPosition imports = Normal position ->
  getNameAndRelativePath self (directoryPath (newFileInfo (fileName (document w))))
  = Normal (name, path) ->
  let out := addImport depth self w in
  let wrapped := match quoteCharacter (options self) with
                 | single => "'" +:+ path +:+ "'"
                 | double => String DQUOTE path +:+ String DQUOTE EmptyString
                 end in
  (STYLE_EXTENSION (fileExtensionWithoutLeadingDot (fileInfo self)) = true ->
   (forall duplicateImport,
      getDuplicateImport imports path = Some duplicateImport ->
      document (snd out) = document w /\
      exists es,
        log (snd out)
        = log w ++ InformationMessage
                     ("The module " +:+ quoted (label self) +:+ " has been already imported.")
                   :: es /\
        Forall calm es) /\
   (getDuplicateImport imports path = None ->
    let e := Insert position
               (getImportSnippet None path (useImport self) (options self) (document w)) in
    fst out = Normal tt /\
    log (snd out) = log w ++ Edited e :: Language.linterEvents w /\
    (linter w = None ->
     document (snd out) = withText (applyEdit e (text (document w))) (document w)))) /\
  (STYLE_EXTENSION (fileExtensionWithoutLeadingDot (fileInfo self)) = false ->
   let e := Insert (selection w) ("require(" +:+ wrapped +:+ ")") in
   fst out = Normal tt /\
   log (snd out) = log w ++ Edited e :: Language.linterEvents w /\
   (linter w = None ->
    document (snd out) = withText (applyEdit e (text (document w))) (document w))).
Proof.
  intros Hext Himports Hposition Hname out wrapped.
  assert (Hout : out =
    (if STYLE_EXTENSION (fileExtensionWithoutLeadingDot (fileInfo self)) then
       match getDuplicateImport imports path with
       | Some duplicateImport =>
           _ ← notify (InformationMessage
                  ("The module " +:+ quoted (label self) +:+ " has been already imported."));
           focusAtImport duplicateImport
       | None =>
           _ ← edit (Insert position
                       (getImportSnippet None path (useImport self) (options self)
                          (document w)));
           fixESLint
       end
     else
       active ← readSelection;
       _ ← edit (Insert active
                   (getImportSnippet None path false (options self) (document w)));
       fixESLint) w).
  { unfold out, addImport.
    rewrite bind_readDocument, Himports, bind_lift, Hposition, bind_lift, Hext.
    destruct (STYLE_EXTENSION _); rewrite Hname, bind_lift; reflexivity. }
  rewrite Hout. clear Hout. split.
  - intros Hstyle. rewrite Hstyle. split.
    + intros duplicateImport Hdup. rewrite Hdup, bind_notify'.
      destruct (focusAtImport_out duplicateImport
                  (record (InformationMessage
                             ("The module " +:+ quoted (label self)
                              +:+ " has been already imported.")) w))
        as (es & Hl & Hc & Hd).
      split; [exact Hd|]. exists es. split; [|exact Hc].
      rewrite Hl. simpl log. now rewrite <- app_assoc.
    + intros Hdup e. rewrite Hdup, bind_edit.
      unfold fixESLint, Language.linterEvents.
      change (linter (record _ (setText _ w))) with (linter w).
      destruct (linter w) as [fix_|]; simpl fst; simpl snd; simpl log;
        rewrite <- ?app_assoc;
        (split; [reflexivity|]); (split; [reflexivity|]).
      * discriminate.
      * intros _. reflexivity.
  - intros Hstyle e. rewrite Hstyle.
    change ((readSelection ≫= ?k) w) with (k (selection w) w). cbv beta.
    rewrite bind_edit.
    unfold fixESLint, Language.linterEvents.
    change (linter (record _ (setText _ w))) with (linter w).
    assert (Hsnippet : getImportSnippet None path false (options self) (document w)
                       = "require(" +:+ wrapped +:+ ")").
    { unfold getImportSnippet, wrapped. destruct (quoteCharacter (options self)); reflexivity. }
    rewrite Hsnippet. fold e.
    destruct (linter w) as [fix_|]; simpl fst; simpl snd; simpl log;
      rewrite <- ?app_assoc;
      (split; [reflexivity|]); (split; [reflexivity|]).
    + discriminate.
    + intros _. reflexivity.
Qed.

End AddImportCases.

(** ** Adding a module of [node_modules] *)

Section ModuleImport.
Import Js Value Platform JavaScript TreeSearch Editor.
Context `{Platform}.

(** X16. [addImport] of a module. When a statement of the document
    (import, [require] in a declaration or bare [require]) has the name
    of the module as its path, nothing is edited and the message says
    that the module has been already imported. Otherwise the one edit
    inserts the snippet before the first existing import; the name of
    the snippet is the variable name of the module, as a namespace
    import ([* as name]) when the language of the document is
    TypeScript. No prompt is shown in either case. *)
Theorem module_is_imported_once (self : NodeItem.NodeItem) w imports :
  getExistingImports (parse (text (document w))) = Normal imports ->
  let out := NodeItem.addImport self w in
  let name := if Str.contains (languageId (document w)) "typescript"
              then "* as " +:+ NodeItem.name self
              else NodeItem.name self in
  let found := List.find (fun item => isStr (JavaScript.path item) (NodeItem.path self))
                         imports in
  (forall duplicateImport,
     found = Some duplicateImport ->
     document (snd out) = document w /\
     exists es,
       log (snd out)
       = log w ++ InformationMessage
                    ("The module " +:+ FileItem.quoted (NodeItem.path self)
                     +:+ " has been already imported.")
                  :: es /\
       Forall calm es /\ Forall noPrompt es) /\
  (found = None ->
   forall position,
     FileItem.firstImportPosition imports = Normal position ->
     let e := Insert position
                (FileItem.getImportSnippet (FileItem.nonEmpty name) (NodeItem.path self)
                   (match syntax (NodeItem.options self) with
                    | SyntaxImport => true
                    | SyntaxRequire => false
                    end)
                   (NodeItem.options self) (document w)) in
     fst out = Normal tt /\
     log (snd out) = log w ++ Edited e :: Language.linterEvents w /\
     (linter w = None ->
      document (snd out) = withText (applyEdit e (text (document w))) (document w))).
Proof.
  intros Himports out name found.
  unfold out, NodeItem.addImport.
  rewrite bind_readDocument, Himports, bind_lift. fold found. fold name. split.
  - intros duplicateImport Hfound. rewrite Hfound, bind_notify'.
    set (w1 := record _ w).
    assert (Hm : emits (fun e => calm e /\ noPrompt e) (FileItem.focusAtImport duplicateImport)).
    { unfold FileItem.focusAtImport. apply emits_focusAt. intros p. split; reflexivity. }
    destruct (Hm w1) as (es & Hl & _ & Hd & Hc).
    assert (Hcalm : Forall calm es).
    { eapply List.Forall_impl; [|exact Hc]. now intros e [He _]. }
    split.
    + rewrite Hd. apply replay_unchanged. apply calm_edits. exact Hcalm.
    + exists es. split; [|split; [exact Hcalm|]].
      * rewrite Hl. unfold w1. simpl log. now rewrite <- app_assoc.
      * eapply List.Forall_impl; [|exact Hc]. now intros e [_ He].
  - intros Hnone position Hposition. cbv zeta.
    rewrite Hnone, Hposition, bind_lift, bind_edit.
    unfold fixESLint, Language.linterEvents.
    change (linter (record _ (setText _ w))) with (linter w).
    destruct (linter w) as [fix_|]; simpl fst; simpl snd; simpl log;
      rewrite <- ?app_assoc;
      (split; [reflexivity|]); (split; [reflexivity|]).
    + discriminate.
    + intros _. reflexivity.
Qed.

End ModuleImport.

(** ** Merging a default binding *)

Section DefaultMerge.
Import Js Value Platform JavaScript TreeSearch Editor FileItem.
Context `{Platform}.




End DefaultMerge.

(** X14 on a document with one call of [require]: the file [util.js]
    is required under the name [util]. *)
Lemma require_syntax_inserts_without_asking_witness :
  let platform := Sample.requirePlatform in
  let item := FileItem.new "/w/src/util.js" "/w" Sample.requireOptions
                FileItem.WORKING_EXTENSION in
  let out := FileItem.addImport 8 item
               (Sample.world Sample.requireText "/w/src/main.js" [] []) in
  fst out = Js.Normal tt /\
  Editor.text (Editor.document (snd out)) = Sample.requiredText.
Proof.
  intros platform item out.
  destruct (require_syntax_inserts_without_asking 8 item eq_refl) as [_ Hinsert].
  destruct (Hinsert (Sample.world Sample.requireText "/w/src/main.js" [] [])
              Sample.requireImports
              {| Editor.line := 0; Editor.character := 0 |} "util" "./util")
    as (Hr & _ & Hd); try reflexivity.
  - constructor; [|constructor].
    split; [split; [exact I | discriminate]|]. split; intros [].
  - split; [exact Hr|].
    etransitivity; [exact (f_equal Editor.text (Hd eq_refl))|]. vm_compute. reflexivity.
Defined.

(** X15 on an empty document: an image is required at the cursor. *)
Lemma addImport_of_other_files_witness :
  let platform := Sample.utilPlatform in
  let item := FileItem.new "/w/src/logo.png" "/w" Sample.options
                FileItem.WORKING_EXTENSION in
  let out := FileItem.addImport 8 item (Sample.world EmptyString "/w/src/main.js" [] []) in
  fst out = Js.Normal tt /\
  Editor.text (Editor.document (snd out)) = "require('./logo.png')".
Proof.
  intros platform item out.
  destruct (addImport_of_other_files 8 item
              (Sample.world EmptyString "/w/src/main.js" [] []) []
              {| Editor.line := 0; Editor.character := 0 |} "logo" "./logo.png")
    as [_ Hother]; try reflexivity.
  destruct (Hother eq_refl) as (Hr & _ & Hd).
  split; [exact Hr|].
  etransitivity; [exact (f_equal Editor.text (Hd eq_refl))|]. vm_compute. reflexivity.
Defined.

(** X16 on an empty document: the module [lodash] is imported. *)
Lemma module_is_imported_once_witness :
  let platform := Sample.utilPlatform in
  let out := NodeItem.addImport Sample.lodash
               (Sample.world EmptyString "/w/src/main.js" [] []) in
  fst out = Js.Normal tt /\
  Editor.text (Editor.document (snd out)) = "import lodash from 'lodash'" +:+ Sample.newline.
Proof.
  intros platform out.
  destruct (module_is_imported_once Sample.lodash
              (Sample.world EmptyString "/w/src/main.js" [] []) [])
    as [_ Hnew]; [reflexivity|].
  destruct (Hnew eq_refl {| Editor.line := 0; Editor.character := 0 |} eq_refl)
    as (Hr & _ & Hd).
  split; [exact Hr|].
  etransitivity; [exact (f_equal Editor.text (Hd eq_refl))|]. vm_compute. reflexivity.
Defined.


(** ** Existing imports: their order, and paths written with slashes *)

Section ExistingImportFacts.
Import Js Value JavaScript.

Lemma filterM_sublist (p : Value -> Completion bool) l r :
  filterM p l = Normal r -> sublist r l.
Proof.
  revert r. induction l as [|x l IH]; simpl; intros r.
  - intros [= <-]. constructor.
  - destruct (p x) as [keep|]; simpl; [|discriminate].
    destruct (filterM p l) as [kept|]; simpl; [|discriminate].
    intros [= <-]. destruct keep; constructor; now apply IH.
Qed.

Lemma filterM_complete (p : Value -> Completion bool) l r x :
  filterM p l = Normal r -> In x l -> p x = Normal true -> In x r.
Proof.
  revert r. induction l as [|y l IH]; simpl; intros r Hr Hin Hp; [destruct Hin|].
  destruct (p y) as [keep|] eqn:Ey; simpl in Hr; [|discriminate].
  destruct (filterM p l) as [kept|]; simpl in Hr; [|discriminate].
  injection Hr as <-. destruct Hin as [->|Hin].
  - rewrite Hp in Ey. injection Ey as <-. now left.
  - destruct keep; [right|]; now apply IH.
Qed.

Lemma getExistingImports_statements codeTree imports :
  getExistingImports codeTree = Normal imports ->
  exists lines1 lines2 nested stubs3 imports3,
    filterM isImportWithLiteralSource (statements codeTree) = Normal lines1 /\
    filterM isVariableDeclaration (statements codeTree) = Normal lines2 /\
    mapM requiresOfDeclaration lines2 = Normal nested /\
    filterM isImmediateRequire (statements codeTree) = Normal stubs3 /\
    mapM requireOfStatement stubs3 = Normal imports3 /\
    imports = map importOfDeclaration lines1 ++ concat nested ++ imports3.
Proof.
  intros Hr. unfold statements.
  destruct (getExistingImports_body _ _ Hr) as [->|(body & -> & H)]; [|exact H].
  unfold getExistingImports in Hr.
  destruct (truthy codeTree && _ && _) eqn:Eg.
  - destruct (prop "body" (prop "program" codeTree)) as [| | | | |body|];
      simpl in Hr; try discriminate.
    destruct (filterM isImportWithLiteralSource body) as [lines1|] eqn:E1;
      simpl in Hr; [|discriminate].
    destruct (filterM isVariableDeclaration body) as [lines2|] eqn:E2;
      simpl in Hr; [|discriminate].
    destruct (mapM requiresOfDeclaration lines2) as [nested|] eqn:E3;
      simpl in Hr; [|discriminate].
    destruct (filterM isImmediateRequire body) as [stubs3|] eqn:E4;
      simpl in Hr; [|discriminate].
    destruct (mapM requireOfStatement stubs3) as [imports3|] eqn:E5;
      simpl in Hr; [|discriminate].
    exists lines1, lines2, nested, stubs3, imports3. now injection Hr as <-.
  - exists [], [], [], [], [].
    destruct (prop "body" (prop "program" codeTree)) as [| | | | |body|] eqn:Eb;
      try (repeat split; reflexivity).
    exfalso. destruct codeTree as [| | | | | |ps]; try (simpl in Eb; discriminate Eb).
    destruct (prop "program" (Obj ps)) as [| | | | | |qs];
      try (simpl in Eb; discriminate Eb).
    discriminate Eg.
Qed.

(** X18. The existing imports are listed by kind, not by position.
    The list that [getExistingImports] returns starts with the import
    declarations of the document, in their order, and continues with the
    statements that call [require]; so the first element, before which
    [addImport] inserts, is the first import declaration of the document
    whenever there is one, even when a [require] stands above it. *)
Theorem imports_are_listed_by_kind codeTree imports :
  getExistingImports codeTree = Normal imports ->
  exists lines others,
    filterM isImportWithLiteralSource (statements codeTree) = Normal lines /\
    sublist lines (statements codeTree) /\
    imports = map importOfDeclaration lines ++ others /\
    Forall (fun imp =>
              exists line, In line (statements codeTree) /\ hasRangeOf imp line /\
                (isVariableDeclaration line = Normal true \/
                 isImmediateRequire line = Normal true)) others /\
    (forall line rest,
       lines = line :: rest ->
       FileItem.firstImportPosition imports
       = Editor.positionOf (prop "start" (prop "loc" line))).
Proof.
  intros Hr.
  destruct (getExistingImports_statements _ _ Hr)
    as (lines1 & lines2 & nested & stubs3 & imports3 & H1 & H2 & H2' & H3 & H3' & Himports).
  exists lines1, (concat nested ++ imports3).
  split; [exact H1|]. split; [exact (filterM_sublist _ _ _ H1)|].
  split; [exact Himports|]. split.
  - apply List.Forall_forall. intros imp Himp.
    apply in_app_or in Himp as [Himp|Himp].
    + apply in_concat in Himp as (group & Hgroup & Himp).
      destruct (mapM_Normal _ _ _ H2' _ Hgroup) as (line & Hline & Hreq).
      destruct (filterM_Normal _ _ _ H2 _ Hline) as [Hin Hp].
      exists line. split; [exact Hin|].
      unfold requiresOfDeclaration in Hreq.
      destruct (arrayFilter _ _) as [stubs|]; simpl in Hreq; [|discriminate].
      destruct (mapM_Normal _ _ _ Hreq _ Himp) as (stub & _ & Hstub).
      unfold requireOfDeclarator in Hstub.
      destruct (get "value" _); simpl in Hstub; [|discriminate].
      injection Hstub as <-. split; [now split|]. now left.
    + destruct (mapM_Normal _ _ _ H3' _ Himp) as (line & Hline & Hreq).
      destruct (filterM_Normal _ _ _ H3 _ Hline) as [Hin Hp].
      exists line. split; [exact Hin|].
      unfold requireOfStatement in Hreq.
      destruct (get "value" _); simpl in Hreq; [|discriminate].
      injection Hreq as <-. split; [now split|]. now right.
  - intros line rest ->. rewrite Himports. reflexivity.
Qed.

Lemma trimEnd_cons a rest c :
  Str.trimEnd (String a rest) c
  = match Str.trimEnd rest c with
    | EmptyString => if Ascii.eqb a c then EmptyString else String a EmptyString
    | rest' => String a rest'
    end.
Proof. reflexivity. Qed.

Lemma trimEnd_replicate s n c :
  Str.trimEnd (s +:+ Str.replicate n c) c = Str.trimEnd s c.
Proof.
  induction s as [|a s IH].
  - induction n as [|n IHn]; [reflexivity|].
    change (EmptyString +:+ Str.replicate (S n) c) with (String c (Str.replicate n c)).
    change (EmptyString +:+ Str.replicate n c) with (Str.replicate n c) in IHn.
    rewrite trimEnd_cons, IHn. simpl. now rewrite Ascii.eqb_refl.
  - change (String a s +:+ Str.replicate n c) with (String a (s +:+ Str.replicate n c)).
    now rewrite !trimEnd_cons, IH.
Qed.

(** X19. An import written with trailing slashes is found under the
    path without them. When the document has an import declaration whose
    source is [p] followed by any number of slashes, [p] being without a
    trailing slash itself, the search for a statement of path [p] finds
    one, and the path recorded for it is [p]. *)
Theorem import_with_slashes_is_found codeTree imports line p n :
  getExistingImports codeTree = Normal imports ->
  In line (statements codeTree) ->
  isImportWithLiteralSource line = Normal true ->
  prop "value" (prop "source" line) = Str (p +:+ Str.replicate n "/") ->
  Str.trimEnd p "/" = p ->
  exists duplicateImport,
    getDuplicateImport imports p = Some duplicateImport /\
    In duplicateImport imports /\
    path duplicateImport = Str p.
Proof.
  intros Hr Hline Himport Hvalue Hp.
  destruct (getExistingImports_statements _ _ Hr)
    as (lines1 & lines2 & nested & stubs3 & imports3 & H1 & _ & _ & _ & _ & Himports).
  assert (Hin : In (importOfDeclaration line) imports).
  { rewrite Himports. apply in_or_app. left. apply in_map.
    exact (filterM_complete _ _ _ _ H1 Hline Himport). }
  assert (Hpath : path (importOfDeclaration line) = Str p).
  { simpl. rewrite Hvalue. simpl. now rewrite trimEnd_replicate, Hp. }
  unfold getDuplicateImport.
  destruct (List.find (fun stub => isStr (path stub) p) imports) as [d|] eqn:Ef.
  - exists d. split; [reflexivity|].
    apply find_some in Ef as [Hd Hs]. split; [exact Hd|].
    destruct (path d) as [| |s| | | |]; try discriminate.
    simpl in Hs. apply String.eqb_eq in Hs. now subst.
  - exfalso. apply (find_none _ _ Ef) in Hin. rewrite Hpath in Hin.
    simpl in Hin. now rewrite String.eqb_refl in Hin.
Qed.

End ExistingImportFacts.

(** X18 on the tree of [import x from './lib//']: the insertion point
    is the start of that declaration. *)
Lemma imports_are_listed_by_kind_witness :
  FileItem.firstImportPosition [Sample.slashImport]
  = Js.Normal {| Editor.line := 0; Editor.character := 0 |} /\
  exists lines others,
    JavaScript.filterM JavaScript.isImportWithLiteralSource
      (JavaScript.statements Sample.slashTree) = Js.Normal lines /\
    sublist lines (JavaScript.statements Sample.slashTree) /\
    [Sample.slashImport] = map JavaScript.importOfDeclaration lines ++ others /\
    Forall (fun imp =>
              exists line, In line (JavaScript.statements Sample.slashTree) /\
                JavaScript.hasRangeOf imp line /\
                (JavaScript.isVariableDeclaration line = Js.Normal true \/
                 JavaScript.isImmediateRequire line = Js.Normal true)) others /\
    (forall line rest,
       lines = line :: rest ->
       FileItem.firstImportPosition [Sample.slashImport]
       = Editor.positionOf (Value.prop "start" (Value.prop "loc" line))).
Proof.
  split; [vm_compute; reflexivity|].
  apply (imports_are_listed_by_kind Sample.slashTree). vm_compute. reflexivity.
Defined.

(** X19 on the same tree: the import of [./lib//] is found under
    [./lib]. *)
Lemma import_with_slashes_is_found_witness :
  JavaScript.getDuplicateImport [Sample.slashImport] "./lib" = Some Sample.slashImport.
Proof.
  destruct (import_with_slashes_is_found Sample.slashTree [Sample.slashImport]
              (Babylon.importDeclaration (Babylon.onFirstLine 0 24)
                 [Babylon.Default (Babylon.onFirstLine 7 8) "x"]
                 (Babylon.stringLiteral (Babylon.onFirstLine 14 24) "./lib//"))
              "./lib" 2) as (d & Hd & [<-|[]] & _).
  - vm_compute. reflexivity.
  - left. reflexivity.
  - vm_compute. reflexivity.
  - reflexivity.
  - reflexivity.
  - exact Hd.
Defined.

(** ** The tree searches *)

Section TreeSearchFacts.
Import Js Value JavaScript TreeSearch.

Lemma Value_nested_ind (P : Value -> Prop) :
  P Undefined -> P Null -> (forall s, P (Str s)) -> (forall n, P (Num n)) ->
  (forall b, P (Boolean b)) ->
  (forall l, Forall P l -> P (Arr l)) ->
  (forall ps, Forall (fun kv => P (snd kv)) ps -> P (Obj ps)) ->
  forall v, P v.
Proof.
  intros HU HN HS HZ HB HA HO. fix IH 1.
  intros [| |s|n|b|l|ps]; [exact HU|exact HN|apply HS|apply HZ|apply HB| |].
  - apply HA. induction l as [|x l IHl]; constructor; [apply IH|exact IHl].
  - apply HO. induction ps as [|[k x] ps IHps]; constructor; [apply IH|exact IHps].
Qed.

Lemma withProp_cases {R} key (absent : R) (k : Value -> R) properties :
  withProp key absent k properties = absent \/
  exists v, In v (map snd properties) /\ withProp key absent k properties = k v.
Proof.
  induction properties as [|[k' v] rest IH]; simpl; [now left|].
  destruct (String.eqb k' key).
  - right. exists v. split; [now left|reflexivity].
  - destruct IH as [IH|(x & Hx & IH)]; [now left|].
    right. exists x. split; [now right|exact IH].
Qed.

Lemma firstDefined_found f l y :
  firstDefined f l = Normal (Some y) -> exists x, In x l /\ f x = Normal (Some y).
Proof.
  induction l as [|x l IH]; simpl; [discriminate|].
  destruct (f x) as [[z|]|] eqn:E; simpl; try discriminate.
  - intros [= <-]. exists x. split; [now left|exact E].
  - intros Hr. destruct (IH Hr) as (x' & Hx' & Hf). exists x'. split; [now right|exact Hf].
Qed.

Lemma lookup_in key properties :
  lookup key properties = Undefined \/ In (lookup key properties) (map snd properties).
Proof.
  induction properties as [|[k v] rest IH]; simpl; [now left|].
  destruct (String.eqb k key); [right; now left|].
  destruct IH as [IH|IH]; [now left|right; now right].
Qed.

(** X20. What [findInCodeTree] returns matches the template. When the
    search returns a node, that node matches the target in the sense of
    [_.isMatch]; the search of [null] returns nothing. *)
Theorem findInCodeTree_finds_a_match target source found :
  findInCodeTree target source = Normal (Some found) ->
  isMatch target found = true.
Proof.
  revert found.
  assert (Hall : forall v,
    (forall found, findInCodeTree target v = Normal (Some found) ->
                   isMatch target found = true) /\
    match v with
    | Arr l => Forall (fun x => forall found,
                         findInCodeTree target x = Normal (Some found) ->
                         isMatch target found = true) l
    | _ => True
    end).
  { induction v as [| |s|n|b|l IHl|ps IHps] using Value_nested_ind;
      try (split; [intros found; simpl; discriminate|exact I]).
    - split; [intros found; simpl; discriminate|].
      eapply List.Forall_impl; [|exact IHl]. now intros x [Hx _].
    - split; [|exact I]. intros found.
      assert (Hchild : forall v, In v (map snd ps) ->
                (forall found, findInCodeTree target v = Normal (Some found) ->
                               isMatch target found = true) /\
                match v with
                | Arr l => Forall (fun x => forall found,
                                     findInCodeTree target x = Normal (Some found) ->
                                     isMatch target found = true) l
                | _ => True
                end).
      { intros v Hv. apply in_map_iff in Hv as (kv & <- & Hkv).
        rewrite List.Forall_forall in IHps. now apply IHps. }
      assert (Hrec : forall key,
                withProp key (Normal None) (findInCodeTree target) ps = Normal (Some found) ->
                isMatch target found = true).
      { intros key Hw.
        destruct (withProp_cases key (Normal None) (findInCodeTree target) ps)
          as [Ha|(v & Hv & Hk)]; [rewrite Ha in Hw; discriminate|].
        rewrite Hk in Hw. now apply (Hchild v Hv). }
      assert (Hlist : forall key,
                withProp key (Normal None)
                  (fun body => match body with
                               | Arr l => firstDefined (findInCodeTree target) l
                               | _ => Normal None
                               end) ps = Normal (Some found) ->
                isMatch target found = true).
      { intros key Hw.
        destruct (withProp_cases key (Normal None)
                    (fun body => match body with
                                 | Arr l => firstDefined (findInCodeTree target) l
                                 | _ => Normal None
                                 end) ps)
          as [Ha|(v & Hv & Hk)]; [rewrite Ha in Hw; discriminate|].
        rewrite Hk in Hw. destruct v as [| | | | |l|]; try discriminate.
        destruct (firstDefined_found _ _ _ Hw) as (x & Hx & Hf).
        destruct (Hchild (Arr l) Hv) as [_ Hl].
        rewrite List.Forall_forall in Hl. now apply (Hl x Hx). }
      cbn [findInCodeTree].
      destruct (isStr (lookup "type" ps) "File" && truthy (lookup "program" ps));
        [apply Hrec|].
      destruct (isMatch target (Obj ps)) eqn:Em; [now intros [= <-]|].
      destruct (lookup "body" ps) as [| |s|n|b|l|qs];
        try apply Hrec; try apply Hlist; try discriminate.
      all: destruct (typeEndsWithDeclaration (Obj ps)) as [declaration|];
        unfold mbind, Completion_bind, cbind; try discriminate.
      all: destruct (declaration && has "declaration" (Obj ps)); [apply Hrec|].
      all: destruct (declaration && has "declarations" (Obj ps) && _);
        [apply Hlist|discriminate]. }
  intros found. apply (Hall source).
Qed.

Lemma concatMapM_sound {X} (P : X -> Prop) (f : Value -> Completion (list X)) l r :
  Forall (fun v => forall r, f v = Normal r -> Forall P r) l ->
  concatMapM f l = Normal r -> Forall P r.
Proof.
  intros Hl. revert r. induction Hl as [|x l Hx _ IH]; simpl; intros r.
  - intros [= <-]. constructor.
  - destruct (f x) as [a|] eqn:Ea; simpl; [|discriminate].
    destruct (concatMapM f l) as [b'|]; simpl; [|discriminate].
    intros [= <-]. apply Forall_app. split; [now apply Hx|now apply IH].
Qed.

Lemma concatMapValues_sound {X} (P : X -> Prop) (f : Value -> Completion (list X)) ps r :
  Forall (fun kv => forall r, f (snd kv) = Normal r -> Forall P r) ps ->
  concatMapValues f ps = Normal r -> Forall P r.
Proof.
  intros Hl. revert r. induction Hl as [|[k x] l Hx _ IH]; simpl; intros r.
  - intros [= <-]. constructor.
  - destruct (f x) as [a|] eqn:Ea; simpl; [|discriminate].
    destruct (concatMapValues f l) as [b'|]; simpl; [|discriminate].
    intros [= <-]. apply Forall_app. split; [now apply Hx|now apply IH].
Qed.

Lemma findRequireRecursively_sound node calls :
  findRequireRecursively node = Normal calls ->
  Forall (fun call => isRequireCall call = Normal true) calls.
Proof.
  revert calls.
  induction node as [| |s|n|b|l IHl|ps IHps] using Value_nested_ind; intros calls;
    try (simpl; intros [= <-]; constructor).
  - cbn [findRequireRecursively]. now apply concatMapM_sound.
  - cbn [findRequireRecursively].
    destruct (lookup "type" ps) eqn:Et; try (intros [= <-]; constructor).
    all: destruct (isRequireCall (Obj ps)) as [[|]|] eqn:Ec; simpl; try discriminate.
    all: try (intros [= <-]; constructor; [exact Ec|constructor]).
    all: now apply concatMapValues_sound.
Qed.

End TreeSearchFacts.

Section RequireCollection.
Import Js Value Platform JavaScript TreeSearch Editor Language.
Context `{Platform}.

(** X21. The calls of [require] that [fixImport] collects. Every
    statement collected from a call comes from a node that is a call of
    the identifier [require] with one argument, a string literal; its
    path is the value of that literal and starts with a dot. The test on
    the path of a call is the first character only: unlike an import
    declaration, a call whose path holds [?], [!] or a double quote is
    collected. *)
Theorem collected_requires_are_relative_calls body items :
  requiresToFix body = Normal items ->
  Forall (fun item =>
            Str.startsWith (originalRelativePath item) "." = true /\
            exists call,
              isRequireCall call = Normal true /\
              stringValue (first (prop "arguments" call))
              = Normal (originalRelativePath item) /\
              newImportStatement (originalRelativePath item)
                (prop "loc" (first (prop "arguments" call)))
              = Normal item) items /\
  (forall call v,
     stringValue (first (prop "arguments" call)) = Normal v ->
     isRelativeRequire call = Normal (Str.startsWith v ".")).
Proof.
  intros Hr. split.
  - unfold requiresToFix in Hr.
    destruct (findRequireRecursively body) as [calls|] eqn:Ec; simpl in Hr; [|discriminate].
    destruct (filterM isRelativeRequire calls) as [kept|] eqn:Ek; simpl in Hr; [|discriminate].
    pose proof (findRequireRecursively_sound _ _ Ec) as Hsound.
    rewrite List.Forall_forall in Hsound.
    apply List.Forall_forall. intros item Hitem.
    destruct (mapM_Normal _ _ _ Hr _ Hitem) as (call & Hcall & Hnew).
    destruct (filterM_Normal _ _ _ Ek _ Hcall) as [Hin Hrel].
    unfold isRelativeRequire in Hrel.
    destruct (stringValue (first (prop "arguments" call))) as [v|] eqn:Ev;
      simpl in Hnew, Hrel; [|discriminate].
    injection Hrel as Hrel.
    assert (Hpath : originalRelativePath item = v).
    { unfold newImportStatement in Hnew.
      destruct (get "start" _); simpl in Hnew; [|discriminate].
      destruct (get "end" _); simpl in Hnew; [|discriminate].
      destruct (rangeOf _ _); simpl in Hnew; [|discriminate].
      now injection Hnew as <-. }
    rewrite Hpath. split; [exact Hrel|].
    exists call. split; [now apply Hsound|]. split; [exact Ev|exact Hnew].
  - intros call v Hv. unfold isRelativeRequire. now rewrite Hv.
Qed.

End RequireCollection.

(** X20 on the tree of [export default 1]. *)
Lemma findInCodeTree_finds_a_match_witness :
  exists found,
    TreeSearch.findInCodeTree JavaScript.EXPORT_DEFAULT Sample.fooTree
    = Js.Normal (Some found) /\
    Value.isMatch JavaScript.EXPORT_DEFAULT found = true.
Proof.
  eexists. split; [vm_compute; reflexivity|].
  apply (findInCodeTree_finds_a_match JavaScript.EXPORT_DEFAULT Sample.fooTree).
  vm_compute. reflexivity.
Defined.

(** X21 on the tree of [const fs = require('./fs')]. *)
Lemma collected_requires_are_relative_calls_witness :
  let platform := Sample.platform [] [] [] in
  exists item,
    Language.requiresToFix (Value.Arr (JavaScript.statements Sample.requireTree))
    = Js.Normal [item] /\
    Language.originalRelativePath item = "./fs" /\
    Str.startsWith (Language.originalRelativePath item) "." = true.
Proof.
  intros platform. eexists. split; [vm_compute; reflexivity|]. split; [reflexivity|].
  destruct (collected_requires_are_relative_calls
              (Value.Arr (JavaScript.statements Sample.requireTree)) _
              ltac:(vm_compute; reflexivity)) as [Hitems _].
  apply Forall_inv in Hitems. exact (proj1 Hitems).
Defined.

(** ** Names and index files *)

Section NameFacts.
Import Js Value Platform JavaScript.
Context `{Platform}.





Lemma mapM_Throw {X Y} (f : X -> Completion Y) l x e :
  In x l -> f x = Throw e -> exists e', mapM f l = Throw e'.
Proof.
  induction l as [|y l IH]; intros Hin Hf; [destruct Hin|]. simpl.
  destruct (f y) as [b|e1] eqn:Ey; simpl; [|now exists e1].
  destruct Hin as [->|Hin]; [rewrite Hf in Ey; discriminate|].
  destruct (IH Hin Hf) as [e' ->]. now exists e'.
Qed.

(** X23. One pattern that does not compile breaks every name. The
    predefined rules are all compiled before the name is looked at: when
    the pattern of any rule of the configuration is no regular
    expression, [getVariableName] raises for every name, and with it the
    name and path of every file candidate and the construction of every
    module candidate. *)
Theorem bad_rule_pattern_breaks_every_name options pair e :
  In pair (predefinedVariableNames options) ->
  newRegExp (fst pair) = Throw e ->
  (forall name, exists e', getVariableName name options = Throw e') /\
  (forall self directory,
     FileItem.options self = options ->
     exists e', FileItem.getNameAndRelativePath self directory = Throw e') /\
  (forall name rootPath, exists e', NodeItem.new name rootPath options = Throw e').
Proof.
  intros Hin He.
  assert (Hrules : exists e', compileRules options = Throw e').
  { unfold compileRules. apply (mapM_Throw _ _ pair e Hin). now rewrite He. }
  destruct Hrules as [e' Hrules].
  assert (Hname : forall name, getVariableName name options = Throw e').
  { intros name. unfold getVariableName. now rewrite Hrules. }
  split; [|split].
  - intros name. now exists e'.
  - intros self directory <-. exists e'.
    unfold FileItem.getNameAndRelativePath. now rewrite !Hname.
  - intros name rootPath. exists e'. unfold NodeItem.new. now rewrite Hname.
Qed.

End NameFacts.

Section IndexPathFacts.
Import Js FileItem.

Lemma split_cons c s : exists part parts, Str.split c s = part :: parts.
Proof.
  destruct s as [|a s]; simpl; [now exists EmptyString, []|].
  destruct (Ascii.eqb a c); [now eexists; eexists|].
  destruct (Str.split c s); now eexists; eexists.
Qed.

Lemma split_parts c s : Forall (fun part => Str.includes part c = false) (Str.split c s).
Proof.
  induction s as [|a s IH]; simpl; [repeat constructor|].
  destruct (Ascii.eqb a c) eqn:Ea; [constructor; [reflexivity|exact IH]|].
  destruct (Str.split c s) as [|part parts]; [repeat constructor; simpl; now rewrite Ea|].
  inversion IH as [|? ? Hpart Hparts]; subst.
  constructor; [simpl; now rewrite Ea, Hpart|exact Hparts].
Qed.

Lemma split_join c s : String.concat (String c EmptyString) (Str.split c s) = s.
Proof.
  induction s as [|a s IH]; [reflexivity|]. cbn [Str.split].
  destruct (split_cons c s) as (part & parts & Es). rewrite Es in *.
  destruct (Ascii.eqb_spec a c) as [->|Hne].
  - change (String.concat (String c EmptyString) (EmptyString :: part :: parts))
      with (String c (String.concat (String c EmptyString) (part :: parts))).
    now rewrite IH.
  - destruct parts as [|p2 parts].
    + simpl in *. now rewrite IH.
    + change (String.concat (String c EmptyString) (String a part :: p2 :: parts))
        with (String a (String.concat (String c EmptyString) (part :: p2 :: parts))).
      now rewrite IH.
Qed.

Lemma split_plain c s : Str.includes s c = false -> Str.split c s = [s].
Proof.
  induction s as [|a s IH]; simpl; [reflexivity|].
  intros Hi. apply orb_false_iff in Hi as [Ha Hs]. rewrite Ha, (IH Hs). reflexivity.
Qed.

Lemma split_app c a b :
  Str.includes a c = false ->
  Str.split c (a +:+ String c b) = a :: Str.split c b.
Proof.
  induction a as [|x a IH]; simpl; [now rewrite Ascii.eqb_refl|].
  intros Hi. apply orb_false_iff in Hi as [Hx Ha]. rewrite Hx, (IH Ha). reflexivity.
Qed.

(** X24. Which file names are index files. [checkIfIndexPath] holds
    exactly of the names [index.] followed by an extension without a dot
    that the pattern of the language accepts; with the pattern of
    JavaScript these are [index.js] and [index.jsx], so that a name with
    a second dot such as [index.test.js] is no index file. Splitting a
    name at the dots and joining the parts with dots gives the name
    back. *)
Theorem index_path_is_index_dot_extension (extension : string -> bool)
    (fileNameWithExtension : string) :
  (checkIfIndexPath extension fileNameWithExtension = true <->
   exists e, fileNameWithExtension = "index." +:+ e /\
             Str.includes e "." = false /\ extension e = true) /\
  (checkIfIndexPath WORKING_EXTENSION fileNameWithExtension = true <->
   fileNameWithExtension = "index.js" \/ fileNameWithExtension = "index.jsx") /\
  String.concat "." (Str.split "." fileNameWithExtension) = fileNameWithExtension.
Proof.
  assert (Hiff : forall ext,
    checkIfIndexPath ext fileNameWithExtension = true <->
    exists e, fileNameWithExtension = "index." +:+ e /\
              Str.includes e "." = false /\ ext e = true).
  { intros ext. unfold checkIfIndexPath. split.
    - pose proof (split_join "." fileNameWithExtension) as Hj.
      pose proof (split_parts "." fileNameWithExtension) as Hp.
      destruct (Str.split "." fileNameWithExtension) as [|p0 [|p1 [|p2 ps]]];
        try discriminate.
      intros Hc. apply andb_true_iff in Hc as [H0 H1].
      apply String.eqb_eq in H0. subst p0. exists p1.
      split; [now rewrite <- Hj|]. split; [|exact H1].
      inversion Hp as [|? ? _ Hp1]; subst. now inversion Hp1.
    - intros (e & -> & Hdot & He).
      change ("index." +:+ e) with ("index" +:+ String "." e).
      rewrite (split_app "." "index" e eq_refl), (split_plain "." e Hdot).
      now rewrite He. }
  split; [apply Hiff|]. split; [|apply split_join].
  rewrite Hiff. unfold WORKING_EXTENSION. split.
  - intros (e & -> & _ & He). apply orb_true_iff in He as [He|He];
      apply String.eqb_eq in He; subst; auto.
  - intros [->| ->]; eexists; (split; [reflexivity|]); split; reflexivity.
Qed.

End IndexPathFacts.


(** X23 on a platform whose regular-expression engine rejects the
    pattern [(]. *)
Lemma bad_rule_pattern_breaks_every_name_witness :
  let base := Sample.platform [] [] [] in
  let platform :=
    {| Platform.existsSync := @Platform.existsSync base;
       Platform.readFileSync := @Platform.readFileSync base;
       Platform.requireJson := @Platform.requireJson base;
       Platform.sep := @Platform.sep base;
       Platform.join := @Platform.join base;
       Platform.resolve := @Platform.resolve base;
       Platform.dirname := @Platform.dirname base;
       Platform.extname := @Platform.extname base;
       Platform.babylon_parse := @Platform.babylon_parse base;
       Platform.newRegExp := fun source =>
         if String.eqb source "(" then Js.Throw "SyntaxError"
         else @Platform.newRegExp base source;
       Platform.camelCase := @Platform.camelCase base;
       Platform.snakeCase := @Platform.snakeCase base;
       Platform.words := @Platform.words base;
       Platform.upperFirst := @Platform.upperFirst base;
       Platform.toLowerCase := @Platform.toLowerCase base;
       Platform.newFileInfo := @Platform.newFileInfo base;
       Platform.getRelativePath := @Platform.getRelativePath base;
       Platform.getSortablePath := @Platform.getSortablePath base;
       Platform.findFilesRoughly := @Platform.findFilesRoughly base |} in
  let options :=
    {| JavaScript.syntax := JavaScript.SyntaxImport;
       JavaScript.grouping := true;
       JavaScript.fileExtension := false;
       JavaScript.indexFile := true;
       JavaScript.quoteCharacter := JavaScript.single;
       JavaScript.semiColons := false;
       JavaScript.predefinedVariableNames := [("^react$", "React"); ("(", "x")];
       JavaScript.variableNamingConvention := JavaScript.none;
       JavaScript.filteredFileList := [] |} in
  exists e', @JavaScript.getVariableName platform "react" options = Js.Throw e'.
Proof.
  intros base platform options.
  destruct (@bad_rule_pattern_breaks_every_name platform options ("(", "x") "SyntaxError")
    as [Hname _].
  - right. left. reflexivity.
  - reflexivity.
  - apply Hname.
Defined.

(** ** Adding an import of a file that cannot be analysed *)

Section ForeignFile.
Import Js Value Platform JavaScript TreeSearch Editor FileItem.
Context `{Platform}.

(** X25. A file that cannot be parsed is imported by default, and a
    file that cannot be read is not imported. With the [import] syntax
    and no index file beside the candidate: when the text of the file
    does not parse, no export is looked up and no prompt is shown, and,
    the path being free in the document and the name as well (no import
    declaration binds it and it names no member of [Object.prototype]),
    the one edit inserts the default import of the file before the first
    existing import; when the file cannot be read, the operation raises
    with the error of the file system, having shown and edited
    nothing. *)
Theorem file_that_cannot_be_analysed depth self w imports position name path :
  extension self (fileExtensionWithoutLeadingDot (fileInfo self)) = true ->
  syntax (options self) = SyntaxImport ->
  hasIndexFile self = false ->
  getExistingImports (parse (text (document w))) = Normal imports ->
  firstImportPosition imports = Normal position ->
  getNameAndRelativePath self (directoryPath (newFileInfo (fileName (document w))))
  = Normal (name, path) ->
  let out := addImport depth self w in
  (forall code e,
     readFileSync (fullPath (fileInfo self)) = Normal code ->
     babylon_parse code = Throw e ->
     getDuplicateImport imports path = None ->
     unbound name imports ->
     inherited name = false ->
     let edit_ := Insert position
                    (getImportSnippet (nonEmpty name) path true (options self) (document w)) in
     fst out = Normal tt /\
     log (snd out) = log w ++ Edited edit_ :: Language.linterEvents w /\
     (linter w = None ->
      document (snd out) = withText (applyEdit edit_ (text (document w))) (document w))) /\
  (forall e,
     readFileSync (fullPath (fileInfo self)) = Throw e ->
     out = (Throw e, w)).
Proof.
  intros Hext Hs Hindex Himports Hposition Hname out.
  assert (Hout : out =
    (chosen ← viaForeignFile depth self
                {| Binding.name := name; Binding.iden := name; Binding.path := path |};
     match chosen with
     | None => mret tt
     | Some b => complete self (document w) imports position b
     end) w).
  { unfold out, addImport.
    rewrite bind_readDocument, Himports, bind_lift, Hposition, bind_lift, Hext.
    unfold settleBinding. rewrite Hname, Hs. rewrite !bind_assoc, bind_lift.
    unfold viaIndexFile. rewrite Hindex. rewrite !bind_assoc, bind_ret'. reflexivity. }
  rewrite Hout. clear Hout. split.
  - intros code e Hread Hparse Hdup Hfree Hown. cbv zeta.
    pose proof (findDuplicateVariable_unbound _ _ Hfree) as Hvar. rewrite Hown in Hvar.
    unfold viaForeignFile. rewrite Hread, !bind_assoc, bind_lift.
    rewrite (parse_of_malformed code e Hparse), !bind_assoc, bind_lift, bind_ret'.
    unfold complete. cbn [Binding.path]. rewrite Hdup.
    unfold insertStatement. cbn [Binding.iden Binding.name Binding.path].
    rewrite Hvar, bind_lift, bind_ret', Hs, bind_edit.
    unfold fixESLint, Language.linterEvents.
    change (linter (record _ (setText _ w))) with (linter w).
    destruct (linter w) as [fix_|]; simpl fst; simpl snd; simpl log;
      rewrite <- ?app_assoc;
      (split; [reflexivity|]); (split; [reflexivity|]).
    + discriminate.
    + intros _. reflexivity.
  - intros e Hread. unfold viaForeignFile. rewrite Hread. reflexivity.
Qed.

End ForeignFile.

(** X25 on an empty document and a file whose text does not parse. *)
Lemma file_that_cannot_be_analysed_witness :
  let platform := Sample.platform [("/w/src/util.js", "export {")]
                    [(EmptyString, Babylon.file [])] [] in
  let item := FileItem.new "/w/src/util.js" "/w" Sample.options
                FileItem.WORKING_EXTENSION in
  let out := FileItem.addImport 8 item (Sample.world EmptyString "/w/src/main.js" [] []) in
  fst out = Js.Normal tt /\
  Editor.text (Editor.document (snd out)) = "import util from './util'" +:+ Sample.newline.
Proof.
  intros platform item out.
  destruct (file_that_cannot_be_analysed 8 item
              (Sample.world EmptyString "/w/src/main.js" [] []) []
              {| Editor.line := 0; Editor.character := 0 |} "util" "./util")
    as [Hparse _]; try reflexivity.
  destruct (Hparse "export {" "SyntaxError") as (Hr & _ & Hd); try reflexivity;
    [constructor|].
  split; [exact Hr|].
  etransitivity; [exact (f_equal Editor.text (Hd eq_refl))|]. vm_compute. reflexivity.
Defined.

(** ** Adding an import: the choice between the exports of the file *)

Section ExportChoice.
Import Js Value Platform JavaScript TreeSearch Editor FileItem.
Context `{Platform}.

Lemma bind_showQuickPick {B} items placeHolder (k : option nat -> M B) w :
  (showQuickPick items placeHolder ≫= k) w
  = k (match quickPicks w with a :: _ => a | [] => None end)
      (snd (showQuickPick items placeHolder w)).
Proof. reflexivity. Qed.

(** X26. The exports of the file decide how it is imported. With the
    [import] syntax and no index file beside the candidate, for a file
    that parses and has no default export ([export default] or an
    assignment to [module.exports]): when it exports no name, it is
    imported as a namespace, [* as name], without a prompt; otherwise
    one quick pick offers [*] and the exported names, and the operation
    goes on with the namespace binding when [*] is picked, with the
    named binding [{ picked }] when a name is picked, and returns with
    nothing edited when the pick is dismissed. *)
Theorem export_choice_decides_the_binding depth self w imports position name path code :
  extension self (fileExtensionWithoutLeadingDot (fileInfo self)) = true ->
  syntax (options self) = SyntaxImport ->
  hasIndexFile self = false ->
  getExistingImports (parse (text (document w))) = Normal imports ->
  firstImportPosition imports = Normal position ->
  getNameAndRelativePath self (directoryPath (newFileInfo (fileName (document w))))
  = Normal (name, path) ->
  readFileSync (fullPath (fileInfo self)) = Normal code ->
  parse code <> Null ->
  findInCodeTree EXPORT_DEFAULT (parse code) = Normal None ->
  findInCodeTree MODULE_EXPORTS (parse code) = Normal None ->
  let exports := map baseToString (getExportedVariables depth (fullPath (fileInfo self))) in
  let finish := complete self (document w) imports position in
  let out := addImport depth self w in
  (exports = [] ->
   out = finish {| Binding.name := "* as " +:+ name; Binding.iden := name;
                   Binding.path := path |} w) /\
  (exports <> [] ->
   let items := "*" :: exports in
   let answer := match quickPicks w with a :: _ => a | [] => None end in
   let w' := snd (showQuickPick items EmptyString w) in
   log w' = log w ++ [QuickPickShown items EmptyString answer] /\
   document w' = document w /\
   match answer ≫= (fun i => items !! i) with
   | None => out = (Normal tt, w')
   | Some selected =>
       if String.eqb selected EmptyString then out = (Normal tt, w')
       else if String.eqb selected "*"
       then out = finish {| Binding.name := "* as " +:+ name; Binding.iden := name;
                            Binding.path := path |} w'
       else out = finish {| Binding.name := "{ " +:+ selected +:+ " }";
                            Binding.iden := selected; Binding.path := path |} w'
   end).
Proof.
  intros Hext Hs Hindex Himports Hposition Hname Hread Hparsed Hdefault Hmodule
         exports finish out.
  assert (Hout : out =
    (chosen ← viaForeignFile depth self
                {| Binding.name := name; Binding.iden := name; Binding.path := path |};
     match chosen with
     | None => mret tt
     | Some b => finish b
     end) w).
  { unfold out, addImport.
    rewrite bind_readDocument, Himports, bind_lift, Hposition, bind_lift, Hext.
    unfold settleBinding. rewrite Hname, Hs. rewrite !bind_assoc, bind_lift.
    unfold viaIndexFile. rewrite Hindex. rewrite !bind_assoc, bind_ret'. reflexivity. }
  rewrite Hout. clear Hout.
  unfold viaForeignFile. rewrite Hread, !bind_assoc, bind_lift.
  assert (Hnone :
    match parse code with
    | Null => Normal true
    | _ =>
        found ← findInCodeTree EXPORT_DEFAULT (parse code);
        match found with
        | Some _ => Normal true
        | None => found ← findInCodeTree MODULE_EXPORTS (parse code);
                  Normal (match found with Some _ => true | None => false end)
        end
    end = Normal false).
  { rewrite Hdefault. cbn [mbind Completion_bind cbind]. rewrite Hmodule.
    destruct (parse code); try reflexivity. contradiction. }
  rewrite Hnone, !bind_assoc, bind_lift. clear Hnone. fold exports.
  cbn [Binding.iden Binding.path]. split.
  - intros ->. rewrite bind_ret'. reflexivity.
  - intros Hsome. cbv zeta.
    split; [reflexivity|]. split; [reflexivity|].
    destruct exports as [|first_ more] eqn:Ee; [contradiction|]. rewrite <- Ee.
    unfold chooseExport. rewrite !bind_assoc, bind_showQuickPick.
    set (answer := match quickPicks w with a :: _ => a | [] => None end).
    destruct (answer ≫= (fun i => ("*" :: exports) !! i)) as [selected|];
      [|now rewrite !bind_ret'].
    destruct (String.eqb selected EmptyString); [now rewrite !bind_ret'|].
    destruct (String.eqb selected "*"); now rewrite !bind_ret'.
Qed.

End ExportChoice.

(** X26 on the file [util.js], which exports [helper]: the second item
    of the quick pick is chosen and the named import is inserted. *)
Lemma export_choice_decides_the_binding_witness :
  let platform := Sample.utilPlatform in
  let item := FileItem.new "/w/src/util.js" "/w" Sample.options
                FileItem.WORKING_EXTENSION in
  let out := FileItem.addImport 8 item
               (Sample.world EmptyString "/w/src/main.js" [Some 1] []) in
  fst out = Js.Normal tt /\
  Editor.text (Editor.document (snd out))
  = "import { helper } from './util'" +:+ Sample.newline.
Proof.
  intros platform item out.
  destruct (export_choice_decides_the_binding 8 item
              (Sample.world EmptyString "/w/src/main.js" [Some 1] []) []
              {| Editor.line := 0; Editor.character := 0 |} "util" "./util"
              Sample.utilText) as [_ Hpick]; try reflexivity.
  - vm_compute. discriminate.
  - destruct Hpick as (_ & _ & Hout); [vm_compute; discriminate|].
    match type of Hout with
    | match ?scrutinee with _ => _ end =>
        assert (Hpicked : scrutinee = Some "helper") by (vm_compute; reflexivity);
        rewrite Hpicked in Hout
    end.
    cbn [String.eqb Ascii.eqb Bool.eqb] in Hout.
    unfold out. rewrite Hout. vm_compute. split; reflexivity.
Defined.
(** ** The exports of a file, statement by statement *)

Section ExportedNames.
Import Js Value Platform JavaScript.
Context `{Platform}.





End ExportedNames.

(** ** Adding an import: the index file of the directory *)

Section IndexFile.
Import Js Value Platform JavaScript TreeSearch Editor FileItem.
Context `{Platform}.

(** X28. An index file beside the candidate takes the import over when
    it exports names for it. With the [import] syntax: when the document
    already imports the index file as a namespace, the user is told so
    and nothing else happens; otherwise, one exported name is imported
    as [{ name }] from the index file without a prompt, and several
    names are offered with [*] in one quick pick, whose answer gives the
    binding, from the index file too, or ends the operation when the
    pick is dismissed. *)
Theorem index_file_decides_the_binding depth self w imports position name path :
  extension self (fileExtensionWithoutLeadingDot (fileInfo self)) = true ->
  syntax (options self) = SyntaxImport ->
  hasIndexFile self = true ->
  getExistingImports (parse (text (document w))) = Normal imports ->
  firstImportPosition imports = Normal position ->
  getNameAndRelativePath self (directoryPath (newFileInfo (fileName (document w))))
  = Normal (name, path) ->
  let exports := map baseToString (getExportedVariablesFromIndexFile depth self) in
  let relative :=
    getRelativePath (newFileInfo (getIndexPath self))
      (directoryPath (newFileInfo (fileName (document w)))) in
  let indexPath :=
    if negb (indexFile (options self)) then dirname relative
    else if negb (fileExtension (options self))
    then Str.dropSuffix relative (extname relative)
    else relative in
  let everything :=
    match getDuplicateImport imports indexPath with
    | Some d => isMatch IMPORT_EVERYTHING (node d)
    | None => false
    end in
  let finish := complete self (document w) imports position in
  let out := addImport depth self w in
  (forall d, exports <> [] -> getDuplicateImport imports indexPath = Some d ->
             everything = true ->
     out = (_ ← notify (InformationMessage
                   ("The module " +:+ quoted name +:+ " has been already imported from "
                    +:+ quoted indexPath +:+ "."));
            focusAtImport d) w) /\
  (everything = false ->
   (forall only, exports = [only] ->
      out = finish {| Binding.name := "{ " +:+ only +:+ " }"; Binding.iden := only;
                      Binding.path := indexPath |} w) /\
   (2 <= length exports ->
    let items := "*" :: exports in
    let answer := match quickPicks w with a :: _ => a | [] => None end in
    let w' := snd (showQuickPick items EmptyString w) in
    log w' = log w ++ [QuickPickShown items EmptyString answer] /\
    document w' = document w /\
    match answer ≫= (fun i => items !! i) with
    | None => out = (Normal tt, w')
    | Some selected =>
        if String.eqb selected EmptyString then out = (Normal tt, w')
        else if String.eqb selected "*"
        then out = finish {| Binding.name := "* as " +:+ name; Binding.iden := name;
                             Binding.path := indexPath |} w'
        else out = finish {| Binding.name := "{ " +:+ selected +:+ " }";
                             Binding.iden := selected; Binding.path := indexPath |} w'
    end)).
Proof.
  intros Hext Hs Hindex Himports Hposition Hname exports relative indexPath everything
         finish out.
  assert (Hout : out =
    (indexed ← viaIndexFile depth self imports
                 (directoryPath (newFileInfo (fileName (document w))))
                 {| Binding.name := name; Binding.iden := name; Binding.path := path |};
     chosen ← match indexed with
              | None => mret None
              | Some (b, true) => mret (Some b)
              | Some (b, false) => viaForeignFile depth self b
              end;
     match chosen with
     | None => mret tt
     | Some b => finish b
     end) w).
  { unfold out, addImport.
    rewrite bind_readDocument, Himports, bind_lift, Hposition, bind_lift, Hext.
    unfold settleBinding. rewrite Hname, Hs. rewrite !bind_assoc, bind_lift.
    rewrite !bind_assoc. reflexivity. }
  rewrite Hout. clear Hout.
  unfold viaIndexFile. rewrite Hindex. cbv zeta.
  fold exports. fold relative. fold indexPath. cbn [Binding.name Binding.iden].
  split.
  - intros d Hsome Hd Hall. unfold everything in Hall. rewrite Hd in *.
    rewrite Hall. destruct exports as [|first_ more]; [contradiction|].
    cbn [length Nat.ltb Nat.leb andb].
    rewrite !bind_assoc, !bind_notify', !bind_assoc.
    rewrite bind_out. destruct (focusAtImport d _) as [[[]|e] w']; reflexivity.
  - intros Hnot.
    assert (Hproceed : forall (k : option (Binding.t * bool) -> M unit) b,
      (match getDuplicateImport imports indexPath with
       | Some d =>
           if Nat.ltb 0 (length exports)
              && match getDuplicateImport imports indexPath with
                 | Some d => isMatch IMPORT_EVERYTHING (node d)
                 | None => false
                 end
           then
             _ ← notify (InformationMessage
                    ("The module " +:+ quoted name
                     +:+ " has been already imported from "
                     +:+ quoted indexPath +:+ "."));
             _ ← focusAtImport d;
             mret None
           else mret (Some (b, false))
       | None => mret (Some (b, false))
       end ≫= k) w = k (Some (b, false)) w).
    { intros k b. fold everything. rewrite Hnot, andb_false_r.
      destruct (getDuplicateImport imports indexPath); reflexivity. }
    split.
    + intros only Honly. rewrite !bind_assoc, Hproceed, Honly.
      rewrite !bind_ret'. reflexivity.
    + intros Hmany. cbv zeta.
      split; [reflexivity|]. split; [reflexivity|].
      rewrite !bind_assoc, Hproceed.
      destruct exports as [|first_ [|second_ more]] eqn:Ee; [simpl in Hmany; lia..|].
      rewrite <- Ee.
      unfold chooseExport. rewrite !bind_assoc, bind_showQuickPick.
      set (answer := match quickPicks w with a :: _ => a | [] => None end).
      destruct (answer ≫= (fun i => ("*" :: exports) !! i)) as [selected|];
        [|now rewrite !bind_ret'].
      destruct (String.eqb selected EmptyString); [now rewrite !bind_ret'|].
      destruct (String.eqb selected "*"); now rewrite !bind_ret'.
Qed.

End IndexFile.

(** X28 on the index file of [lib], which exports the one name [a]. *)
Lemma index_file_decides_the_binding_witness :
  let platform := Sample.indexPlatform in
  let item := FileItem.new "/w/src/lib/index.js" "/w" Sample.options
                FileItem.WORKING_EXTENSION in
  let out := FileItem.addImport 8 item
               (Sample.world EmptyString "/w/src/main.js" [] []) in
  fst out = Js.Normal tt /\
  Editor.text (Editor.document (snd out))
  = "import { a } from './lib/index'" +:+ Sample.newline.
Proof.
  intros platform item out.
  destruct (index_file_decides_the_binding 8 item
              (Sample.world EmptyString "/w/src/main.js" [] []) []
              {| Editor.line := 0; Editor.character := 0 |} "lib" "./lib")
    as [_ Hone]; try reflexivity.
  destruct (Hone eq_refl) as [Hone' _].
  unfold out. rewrite (Hone' "a" ltac:(vm_compute; reflexivity)).
  vm_compute. split; reflexivity.
Defined.
(** ** Adding an import under a name of [Object.prototype] *)

Section InheritedName.
Import Js Value Platform JavaScript TreeSearch Editor FileItem.
Context `{Platform}.

(** X29. A file whose name is that of a member of [Object.prototype]
    ([constructor.js], [toString.js], ...) meets the dialog of the
    naming conflict although no import declaration binds the name: the
    table of the bound names is a plain object and has that member. For
    a binding whose path is not imported yet: the dialog is shown; on
    [Replace It] the operation raises a [TypeError], the member having
    no range to delete, and nothing is edited; on any other answer the
    new statement is inserted before the first existing import. *)
Theorem inherited_name_meets_the_conflict_dialog self w imports position (b : Binding.t) :
  getDuplicateImport imports (Binding.path b) = None ->
  unbound (Binding.iden b) imports ->
  inherited (Binding.iden b) = true ->
  let answer := match dialogs w with a :: _ => a | [] => None end in
  let shown :=
    WarningModalShown
      ("Do you want to replace the existing " +:+ quoted (Binding.iden b) +:+ "?")
      [REPLACE_IT; KEEP_BOTH] answer in
  let e := Insert position
             (getImportSnippet (nonEmpty (Binding.name b)) (Binding.path b)
                (useImport self) (options self) (document w)) in
  let out := complete self (document w) imports position b w in
  (answer = Some 0 ->
   fst out = Throw TypeError /\
   log (snd out) = log w ++ [shown] /\
   document (snd out) = document w) /\
  (answer <> Some 0 ->
   fst out = Normal tt /\
   log (snd out) = log w ++ shown :: Edited e :: Language.linterEvents w /\
   (linter w = None ->
    document (snd out) = withText (applyEdit e (text (document w))) (document w))).
Proof.
  intros Hdup Hfree Hinherited answer shown e out.
  pose proof (findDuplicateVariable_unbound _ _ Hfree) as Hvar.
  rewrite Hinherited in Hvar.
  assert (Hout : out =
    (selectedOption ← showWarningModal
       ("Do you want to replace the existing " +:+ quoted (Binding.iden b) +:+ "?")
       [REPLACE_IT; KEEP_BOTH];
     _ ← match selectedOption with
         | Some 0 =>
             range ← lift (rangeOf (startOfFound Builtin) (endOfFound Builtin));
             edit (Delete range)
         | _ => mret tt
         end;
     _ ← edit e;
     fixESLint) w).
  { unfold out, complete. rewrite Hdup. unfold insertStatement.
    rewrite Hvar, bind_lift, !bind_assoc. unfold e, useImport. reflexivity. }
  rewrite Hout. clear Hout.
  rewrite bind_out. unfold showWarningModal. fold answer. fold shown. cbv iota.
  set (w' := record shown _).
  assert (Hlog : log w' = log w ++ [shown]) by reflexivity.
  split.
  - intros ->. rewrite !bind_assoc. unfold lift at 1.
    rewrite bind_out. cbn. auto.
  - intros Hother.
    assert (Hskip :
      (_ ← match answer with
           | Some 0 =>
               range ← lift (rangeOf (startOfFound Builtin) (endOfFound Builtin));
               edit (Delete range)
           | _ => mret tt
           end;
       _ ← edit e;
       fixESLint) w'
      = (_ ← edit e; fixESLint) w').
    { destruct answer as [[|n]|]; [congruence|reflexivity|reflexivity]. }
    rewrite Hskip, bind_edit. unfold fixESLint, Language.linterEvents.
    change (linter (record _ (setText _ w'))) with (linter w).
    destruct (linter w) as [fix_|] eqn:El; simpl fst; simpl snd; simpl log;
      rewrite ?Hlog, <- ?app_assoc; simpl app;
      (split; [reflexivity|]); (split; [reflexivity|]).
    + discriminate.
    + intros _. reflexivity.
Qed.

End InheritedName.

(** X29 on the file [constructor.js], added to an empty document: the
    user answers [Replace It]. *)
Lemma inherited_name_meets_the_conflict_dialog_witness :
  let platform := Sample.constructorPlatform in
  let item := FileItem.new "/w/src/constructor.js" "/w" Sample.options
                FileItem.WORKING_EXTENSION in
  let w := Sample.world EmptyString "/w/src/main.js" [] [Some 0] in
  let out := FileItem.addImport 8 item w in
  fst out = Js.Throw Js.TypeError /\
  Editor.log (snd out)
  = [Editor.WarningModalShown
       ("Do you want to replace the existing " +:+ FileItem.quoted "constructor" +:+ "?")
       [FileItem.REPLACE_IT; FileItem.KEEP_BOTH] (Some 0)] /\
  Editor.text (Editor.document (snd out)) = EmptyString.
Proof.
  intros platform item w out.
  set (b := {| Binding.name := "constructor"; Binding.iden := "constructor";
               Binding.path := "./constructor" |}).
  assert (Hout : out = FileItem.complete item (Editor.document w) []
                         {| Editor.line := 0; Editor.character := 0 |} b w)
    by (vm_compute; reflexivity).
  destruct (inherited_name_meets_the_conflict_dialog item w []
              {| Editor.line := 0; Editor.character := 0 |} b)
    as [Hreplace _]; try reflexivity; [constructor|].
  destruct (Hreplace eq_refl) as (Hr & Hl & Hd).
  rewrite Hout. split; [exact Hr|]. split; [exact Hl|]. now rewrite Hd.
Defined.
